(** * Solana arbitrage bot: market analysis, admission and two-leg execution

    A shallow embedding of the TypeScript sources and the properties proved
    about them.

    Conventions of the embedding.
    - A JavaScript [number] that holds a price, an amount or a percentage is
      an exact rational ([Q]); millisecond timestamps and counters are
      integers ([Z]).  Rounding, infinities and NaN of IEEE doubles are not
      modelled; in particular a division by a zero price, which JavaScript
      answers with an infinity or NaN, is [0] here, so the computed figures
      are those of the source for nonzero prices.
    - [Date.now()] is a read of an ambient clock.  The clock is a function
      [nat -> Z] giving the value of the n-th read, and code that reads the
      clock threads the number of reads made so far.
    - A JavaScript [Map] is an association list in insertion order where the
      iteration order matters, and a [gmap] where only lookups matter.
    - Objects and arrays that are shared by reference live in an explicit
      store and are named by their index in it. *)

From Stdlib Require Import ZArith QArith Lqa Sorted.
From stdpp Require Import gmap strings list pretty.

Local Open Scope Z_scope.

(** ** Numbers *)

(** [x < y] on rationals as a boolean, the way the source's [if]s use it. *)
Definition Qltb (x y : Q) : bool := negb (Qle_bool y x).

(** JavaScript truthiness of an optional number: [undefined] and [0] are
    falsy. *)
Definition truthy (x : option Q) : bool :=
  match x with
  | Some q => negb (Qeq_bool q 0)
  | None => false
  end.

(** ** market-analyzer: [MarketAnalyzer] *)

Module Analyzer.

Inductive Direction := buy | sell.

(** [PriceData] of market-collector.ts. *)
Record PriceData := mkPriceData {
  pd_dex : string;
  pd_pair : string;
  pd_bid : Q;
  pd_ask : Q;
  pd_last : option Q;
  pd_timestamp : Z
}.

Record ArbitrageOpportunity := mkOpportunity {
  sourceDex : string;
  targetDex : string;
  pair : string;
  profitPercentage : Q;
  estimatedProfit : Q;
  sourcePrice : Q;
  targetPrice : Q;
  direction : Direction;
  timestamp : Z;
  tradeSize : Q
}.

(** The private fields of the class. *)
Record MarketAnalyzer := mkAnalyzer {
  minProfitThreshold : Q;
  maxSlippage : Q;
  tradeSizeUsd : Q;
  gasCostSol : Q;
  solPriceUsd : Q
}.

(** A [Map<string, PriceData[]>] in insertion order. *)
Definition MarketData := list (string * list PriceData).

Definition gasCostUsd (self : MarketAnalyzer) : Q :=
  (gasCostSol self * solPriceUsd self)%Q.

(** Data older than 30 seconds at the clock read of this comparison:
    [now - d.timestamp > 30000]. *)
Definition stale (now : Z) (d : PriceData) : bool :=
  30000 <? now - pd_timestamp d.

(** "Check for buy opportunity: buy on dexA, sell on dexB". *)
Definition buyBlock (self : MarketAnalyzer) (pairName : string)
    (now : Z) (dexA dexB : PriceData) : list ArbitrageOpportunity :=
  if Qltb (pd_ask dexA) (pd_bid dexB) then
    let profitPerUnit := (pd_bid dexB - pd_ask dexA)%Q in
    let profitPercentage := ((profitPerUnit / pd_ask dexA) * 100)%Q in
    let tradeSize := (tradeSizeUsd self / pd_ask dexA)%Q in
    let estimatedProfit := ((profitPerUnit * tradeSize) - gasCostUsd self)%Q in
    if Qle_bool (minProfitThreshold self) profitPercentage
       && Qltb 0 estimatedProfit
    then [ {| sourceDex := pd_dex dexA;
              targetDex := pd_dex dexB;
              pair := pairName;
              profitPercentage := profitPercentage;
              estimatedProfit := estimatedProfit;
              sourcePrice := pd_ask dexA;
              targetPrice := pd_bid dexB;
              direction := buy;
              timestamp := now;
              tradeSize := tradeSize |} ]
    else []
  else [].

(** "Check for sell opportunity: buy on dexB, sell on dexA".  The pushed
    object has the two venues exchanged and, as in the first block,
    [direction: 'buy']. *)
Definition sellBlock (self : MarketAnalyzer) (pairName : string)
    (now : Z) (dexA dexB : PriceData) : list ArbitrageOpportunity :=
  if Qltb (pd_ask dexB) (pd_bid dexA) then
    let profitPerUnit := (pd_bid dexA - pd_ask dexB)%Q in
    let profitPercentage := ((profitPerUnit / pd_ask dexB) * 100)%Q in
    let tradeSize := (tradeSizeUsd self / pd_ask dexB)%Q in
    let estimatedProfit := ((profitPerUnit * tradeSize) - gasCostUsd self)%Q in
    if Qle_bool (minProfitThreshold self) profitPercentage
       && Qltb 0 estimatedProfit
    then [ {| sourceDex := pd_dex dexB;
              targetDex := pd_dex dexA;
              pair := pairName;
              profitPercentage := profitPercentage;
              estimatedProfit := estimatedProfit;
              sourcePrice := pd_ask dexB;
              targetPrice := pd_bid dexA;
              direction := buy;
              timestamp := now;
              tradeSize := tradeSize |} ]
    else []
  else [].

(** The body of the inner loop for one pair of venues [(dexA, dexB)], given
    the value [now] that [Date.now()] returned in this iteration. *)
Definition comparePair (self : MarketAnalyzer) (pairName : string)
    (now : Z) (dexA dexB : PriceData) : list ArbitrageOpportunity :=
  if stale now dexA || stale now dexB then []
  else buyBlock self pairName now dexA dexB
       ++ sellBlock self pairName now dexA dexB.

(** [for (let j = i + 1; ...)]: [dexA] against every later entry; one clock
    read per iteration.  Returns the pushed opportunities and the number of
    clock reads made so far. *)
Fixpoint innerLoop (self : MarketAnalyzer) (clock : nat -> Z)
    (pairName : string) (dexA : PriceData) (rest : list PriceData)
    (t : nat) : list ArbitrageOpportunity * nat :=
  match rest with
  | [] => ([], t)
  | dexB :: rest' =>
      let pushed := comparePair self pairName (clock t) dexA dexB in
      let '(more, t') := innerLoop self clock pairName dexA rest' (S t) in
      (pushed ++ more, t')
  end.

(** [for (let i = 0; ...)] over the array of one trading pair. *)
Fixpoint outerLoop (self : MarketAnalyzer) (clock : nat -> Z)
    (pairName : string) (priceDataArray : list PriceData)
    (t : nat) : list ArbitrageOpportunity * nat :=
  match priceDataArray with
  | [] => ([], t)
  | dexA :: rest =>
      let '(pushed, t1) := innerLoop self clock pairName dexA rest t in
      let '(more, t2) := outerLoop self clock pairName rest t1 in
      (pushed ++ more, t2)
  end.

(** [for (const [pair, priceDataArray] of marketData.entries())]. *)
Fixpoint scan (self : MarketAnalyzer) (clock : nat -> Z)
    (marketData : MarketData) (t : nat) : list ArbitrageOpportunity * nat :=
  match marketData with
  | [] => ([], t)
  | (pairName, priceDataArray) :: md' =>
      let '(pushed, t1) :=
        if (length priceDataArray <? 2)%nat then ([], t)
        else outerLoop self clock pairName priceDataArray t in
      let '(more, t2) := scan self clock md' t1 in
      (pushed ++ more, t2)
  end.

(** [opportunities.sort((a, b) => b.profitPercentage - a.profitPercentage)]:
    a stable sort, highest profit percentage first. *)
Fixpoint insertDesc (o : ArbitrageOpportunity)
    (l : list ArbitrageOpportunity) : list ArbitrageOpportunity :=
  match l with
  | [] => [o]
  | x :: l' =>
      if Qle_bool (profitPercentage x) (profitPercentage o)
      then o :: x :: l'
      else x :: insertDesc o l'
  end.

Definition sortDesc (l : list ArbitrageOpportunity) : list ArbitrageOpportunity :=
  foldr insertDesc [] l.

(** The method: the sorted opportunities and the number of clock reads
    after the call.  The analyzer's fields and the market data are only
    read. *)
Definition findArbitrageOpportunities (self : MarketAnalyzer)
    (clock : nat -> Z) (t : nat) (marketData : MarketData)
    : list ArbitrageOpportunity * nat :=
  let '(opportunities, t') := scan self clock marketData t in
  (sortDesc opportunities, t').

(** The comparisons the loops make, in order: the trading pair and the two
    venues [(dexA, dexB)] of each iteration of the inner loop. *)
Fixpoint pairsOf (pairName : string) (arr : list PriceData)
    : list (string * PriceData * PriceData) :=
  match arr with
  | [] => []
  | dexA :: rest => map (fun dexB => (pairName, dexA, dexB)) rest
                    ++ pairsOf pairName rest
  end.

Definition comparisons (marketData : MarketData)
    : list (string * PriceData * PriceData) :=
  concat (map (fun e => pairsOf (fst e) (snd e)) marketData).

(** What the comparisons [cmps] push when the first of them makes clock
    read number [t]. *)
Fixpoint contributions (self : MarketAnalyzer) (clock : nat -> Z)
    (cmps : list (string * PriceData * PriceData)) (t : nat)
    : list ArbitrageOpportunity :=
  match cmps with
  | [] => []
  | (pairName, dexA, dexB) :: cmps' =>
      comparePair self pairName (clock t) dexA dexB
      ++ contributions self clock cmps' (S t)
  end.

End Analyzer.

(** Two venues quoting SOL/USDC at time 1000 with an analyzer on its default
    settings: Serum bids 101 and asks 101.5, Raydium bids 99.5 and asks 100. *)
Module AnalyzerExample.
Import Analyzer.
Local Open Scope string_scope.

Definition analyzer0 : MarketAnalyzer :=
  {| minProfitThreshold := 1 # 2;
     maxSlippage := 3 # 10;
     tradeSizeUsd := 1000;
     gasCostSol := 1 # 1000;
     solPriceUsd := 150 |}.

Definition serumQuote : PriceData :=
  mkPriceData "Serum" "SOL/USDC" 101 (203 # 2) (Some 101%Q) 1000.

Definition raydiumQuote : PriceData :=
  mkPriceData "Raydium" "SOL/USDC" (199 # 2) 100 (Some 100%Q) 1000.

Definition marketData0 : MarketData :=
  [("SOL/USDC", [serumQuote; raydiumQuote])].

(** What the analyzer pushes for them: buy on Raydium at 100, sell on Serum
    at 101. *)
Definition opportunity0 (now : Z) : ArbitrageOpportunity :=
  {| sourceDex := "Raydium";
     targetDex := "Serum";
     pair := "SOL/USDC";
     profitPercentage := ((101 - 100) / 100 * 100)%Q;
     estimatedProfit := ((101 - 100) * (1000 / 100) - (1 # 1000) * 150)%Q;
     sourcePrice := 100;
     targetPrice := 101;
     direction := buy;
     timestamp := now;
     tradeSize := (1000 / 100)%Q |}.

End AnalyzerExample.

(** ** market-collector.ts: [MarketDataCollector] *)

Module Collector.

(** What [provider.getPrice(pairName)] resolves to when it is not [null]. *)
Record Price := mkPrice {
  bid : Q;
  ask : Q;
  last : option Q;
  timestamp : Z
}.

(** A [DexMarketProvider] as [collectData] sees it: [getDexName()] and the
    names of [getSupportedPairs()]. *)
Record Provider := mkProvider {
  dexName : string;
  supportedPairs : list string
}.

(** The answers of the venues during one poll cycle: [feed dex pair] is what
    [getPrice(pair)] of the provider named [dex] resolves to ([None] for
    [null]). *)
Definition Feed := string -> string -> option Price.

(** The collector.  [priceData] is the [Map<string, PriceData[]>]; its values
    are arrays, which JavaScript holds by reference: [arrays] is the store of
    all arrays allocated so far and a reference is an index into it. *)
Record MarketDataCollector := mkCollector {
  providers : list Provider;
  priceData : list (string * nat);
  arrays : list (list Analyzer.PriceData)
}.

(** [Map.prototype.get] and [has] on an insertion-ordered map. *)
Definition get {V} (key : string) (m : list (string * V)) : option V :=
  (fun found => snd (snd found)) <$> list_find (fun e => fst e = key) m.

Definition has {V} (key : string) (m : list (string * V)) : bool :=
  bool_decide (is_Some (get key m)).

(** [pairData.findIndex(p => p.dex === dexName)], [None] for [-1]. *)
Definition findIndex (dexName : string) (pairData : list Analyzer.PriceData)
    : option nat :=
  fst <$> list_find (fun p => Analyzer.pd_dex p = dexName) pairData.

(** The block under [if (priceData)] in [collectData]: build the record, get
    or create the array of the pair, and overwrite or push in place. *)
Definition storePrice (dexName pairName : string) (price : Price)
    (c : MarketDataCollector) : MarketDataCollector :=
  let data :=
    {| Analyzer.pd_dex := dexName;
       Analyzer.pd_pair := pairName;
       Analyzer.pd_bid := bid price;
       Analyzer.pd_ask := ask price;
       Analyzer.pd_last := last price;
       Analyzer.pd_timestamp := timestamp price |} in
  (* if (!this.priceData.has(pairName)) this.priceData.set(pairName, []) *)
  let c1 :=
    if has pairName (priceData c) then c
    else {| providers := providers c;
            priceData := priceData c ++ [(pairName, length (arrays c))];
            arrays := arrays c ++ [[]] |} in
  (* const pairData = this.priceData.get(pairName)! *)
  match get pairName (priceData c1) with
  | None => c1
  | Some ref =>
      let pairData := default [] (arrays c1 !! ref) in
      let pairData' :=
        match findIndex dexName pairData with
        | Some existingIndex => <[existingIndex := data]> pairData
        | None => pairData ++ [data]
        end in
      {| providers := providers c1;
         priceData := priceData c1;
         arrays := <[ref := pairData']> (arrays c1) |}
  end.

(** The [getPrice] calls of one cycle, in the order of the two loops. *)
Definition requests (c : MarketDataCollector) : list (string * string) :=
  concat (map (fun provider =>
                 map (fun pairName => (dexName provider, pairName))
                     (supportedPairs provider))
              (providers c)).

(** One iteration of the inner loop: await the price, store it if any. *)
Definition collectOne (feed : Feed) (c : MarketDataCollector)
    (request : string * string) : MarketDataCollector :=
  match feed (fst request) (snd request) with
  | Some price => storePrice (fst request) (snd request) price c
  | None => c
  end.

(** The collector after the given iterations of one cycle. *)
Definition collectSome (feed : Feed) (reqs : list (string * string))
    (c : MarketDataCollector) : MarketDataCollector :=
  foldl (collectOne feed) c reqs.

(** [getPriceData]: [new Map(this.priceData)], a new map with the same keys
    and the same array references. *)
Definition getPriceData (c : MarketDataCollector) : list (string * nat) :=
  priceData c.

(** [collectData]: the whole cycle, then [notifyUpdateCallbacks], which hands
    [this.getPriceData()] to the subscribers. *)
Definition collectData (feed : Feed) (c : MarketDataCollector)
    : MarketDataCollector * list (string * nat) :=
  let c' := collectSome feed (requests c) c in
  (c', getPriceData c').

(** What a holder of the map [snapshot] reads from it when the store of
    arrays is [store]. *)
Definition contents (store : list (list Analyzer.PriceData))
    (snapshot : list (string * nat)) : Analyzer.MarketData :=
  map (fun e => (fst e, default [] (store !! snd e))) snapshot.

End Collector.

(** Two providers of SOL/USDC polled twice: prices near 100 in the first
    cycle and near 200 in the second. *)
Module CollectorExample.
Import Collector.
Local Open Scope string_scope.

Definition collector0 : MarketDataCollector :=
  {| providers := [mkProvider "Serum" ["SOL/USDC"];
                   mkProvider "Raydium" ["SOL/USDC"]];
     priceData := [];
     arrays := [] |}.

Definition feed1 : Feed := fun dex _ =>
  if String.eqb dex "Serum" then Some (mkPrice 100 101 None 1000)
  else Some (mkPrice 99 102 None 1000).

Definition feed2 : Feed := fun dex _ =>
  if String.eqb dex "Serum" then Some (mkPrice 200 201 None 6000)
  else Some (mkPrice 199 202 None 6000).

Definition quote (dex : string) (b a : Q) (ts : Z) : Analyzer.PriceData :=
  Analyzer.mkPriceData dex "SOL/USDC" b a None ts.

End CollectorExample.

(** ** detector.ts and strategy.ts: [ArbitrageDetector], [ArbitrageStrategy] *)

Module Arbitrage.

Inductive Status := pending | executing | completed | failed.

(** [ExecutableArbitrageOpportunity]: the fields of the [ArbitrageOpportunity]
    it was spread from, and its own. *)
Record ExecutableArbitrageOpportunity := mkExecutable {
  opportunity : Analyzer.ArbitrageOpportunity;
  id : string;
  status : Status;
  executionTimestamp : option Z;
  executionTxId : option string;
  actualProfit : option Q;
  error : option string
}.

Record ArbitrageDetectorConfig := mkDetectorConfig {
  minProfitThreshold : Q;
  maxSlippage : Q;
  tradeSizeUsd : Q;
  maxConcurrentTrades : Z;
  cooldownMs : Z;
  gasMultiplier : Q
}.

(** The detector's fields.  [detectedOpportunities] maps an id to a reference
    to the opportunity object; the objects themselves are in the world's
    store, where the callbacks and the suspended executions reach them too. *)
Record ArbitrageDetector := mkDetector {
  config : ArbitrageDetectorConfig;
  isRunning : bool;
  detectedOpportunities : gmap string nat;
  lastExecutionTime : Z;
  activeExecutions : Z
}.

(** [ArbitrageStrategyConfig]; the fields it shares with the detector's
    configuration carry the prefix [s_]. *)
Record ArbitrageStrategyConfig := mkStrategyConfig {
  s_minProfitThreshold : Q;
  s_maxSlippage : Q;
  s_tradeSizeUsd : Q;
  s_maxConcurrentTrades : Z;
  s_cooldownMs : Z;
  s_gasMultiplier : Q;
  prioritizePairs : option (list string);
  blacklistPairs : option (list string);
  prioritizeDexes : option (list string);
  blacklistDexes : option (list string);
  minTradeIntervalMs : Z;
  maxDailyTrades : Z
}.

Record ArbitrageStrategy := mkStrategy {
  strategyConfig : ArbitrageStrategyConfig;
  dailyTradeCount : Z;
  lastTradeTime : Z;
  dailyResetTime : Z
}.

(** [Partial<ArbitrageDetectorConfig>]: [None] is a key that is absent. *)
Record PartialDetectorConfig := mkPartialDetectorConfig {
  p_minProfitThreshold : option Q;
  p_maxSlippage : option Q;
  p_tradeSizeUsd : option Q;
  p_maxConcurrentTrades : option Z;
  p_cooldownMs : option Z;
  p_gasMultiplier : option Q
}.

(** [Partial<ArbitrageStrategyConfig>]. *)
Record PartialStrategyConfig := mkPartialStrategyConfig {
  ps_minProfitThreshold : option Q;
  ps_maxSlippage : option Q;
  ps_tradeSizeUsd : option Q;
  ps_maxConcurrentTrades : option Z;
  ps_cooldownMs : option Z;
  ps_gasMultiplier : option Q;
  ps_prioritizePairs : option (list string);
  ps_blacklistPairs : option (list string);
  ps_prioritizeDexes : option (list string);
  ps_blacklistDexes : option (list string);
  ps_minTradeIntervalMs : option Z;
  ps_maxDailyTrades : option Z
}.

(** [{ ...old, ...partial }] of [ArbitrageDetector.updateConfig]: the keys
    present replace the old values. *)
Definition mergeDetectorConfig (partial : PartialDetectorConfig)
    (old : ArbitrageDetectorConfig) : ArbitrageDetectorConfig :=
  {| minProfitThreshold :=
       default (minProfitThreshold old) (p_minProfitThreshold partial);
     maxSlippage := default (maxSlippage old) (p_maxSlippage partial);
     tradeSizeUsd := default (tradeSizeUsd old) (p_tradeSizeUsd partial);
     maxConcurrentTrades :=
       default (maxConcurrentTrades old) (p_maxConcurrentTrades partial);
     cooldownMs := default (cooldownMs old) (p_cooldownMs partial);
     gasMultiplier :=
       default (gasMultiplier old) (p_gasMultiplier partial) |}.


(** The state the two classes run in: the detector, the strategy subscribed
    to it (as [ArbitrageManager] wires them), the store of opportunity
    objects, the number of clock reads made so far, and the pending timers:
    the references of the executions suspended at their [await]. *)
Record World := mkWorld {
  detector : ArbitrageDetector;
  strategy : ArbitrageStrategy;
  objects : list ExecutableArbitrageOpportunity;
  reads : nat;
  timers : list nat
}.

(** *** Field updates *)

Definition setDetector (d : ArbitrageDetector) (w : World) : World :=
  mkWorld d (strategy w) (objects w) (reads w) (timers w).
Definition setStrategy (s : ArbitrageStrategy) (w : World) : World :=
  mkWorld (detector w) s (objects w) (reads w) (timers w).
Definition setObjects (os : list ExecutableArbitrageOpportunity) (w : World) : World :=
  mkWorld (detector w) (strategy w) os (reads w) (timers w).
Definition setReads (n : nat) (w : World) : World :=
  mkWorld (detector w) (strategy w) (objects w) n (timers w).
Definition setTimers (ts : list nat) (w : World) : World :=
  mkWorld (detector w) (strategy w) (objects w) (reads w) ts.

Definition setConfig (c : ArbitrageDetectorConfig) (d : ArbitrageDetector) :=
  mkDetector c (isRunning d) (detectedOpportunities d)
             (lastExecutionTime d) (activeExecutions d).
Definition setIsRunning (b : bool) (d : ArbitrageDetector) :=
  mkDetector (config d) b (detectedOpportunities d)
             (lastExecutionTime d) (activeExecutions d).
Definition setDetectedOpportunities (m : gmap string nat) (d : ArbitrageDetector) :=
  mkDetector (config d) (isRunning d) m
             (lastExecutionTime d) (activeExecutions d).
Definition setLastExecutionTime (t : Z) (d : ArbitrageDetector) :=
  mkDetector (config d) (isRunning d) (detectedOpportunities d)
             t (activeExecutions d).
Definition setActiveExecutions (n : Z) (d : ArbitrageDetector) :=
  mkDetector (config d) (isRunning d) (detectedOpportunities d)
             (lastExecutionTime d) n.

(** *** The state monad of the world *)

Definition M (A : Type) : Type := World -> A * World.

Definition ret {A} (a : A) : M A := fun w => (a, w).

Definition bind {A B} (m : M A) (k : A -> M B) : M B :=
  fun w => let '(a, w') := m w in k a w'.

(** stdpp's notations: [x ← m; k] and [m ;; k]. *)
#[export] Instance M_ret : MRet M := @ret.
#[export] Instance M_bind : MBind M := fun A B k m => bind m k.

Definition get : M World := fun w => (w, w).
Definition modify (f : World -> World) : M unit := fun w => (tt, f w).

(** [for (const x of xs) body(x)]. *)
Fixpoint forEach {A} (xs : list A) (body : A -> M unit) : M unit :=
  match xs with
  | [] => ret tt
  | x :: xs' => body x ;; forEach xs' body
  end.

(** Writes to the fields of the object behind a reference. *)
Definition modifyObject (ref : nat)
    (f : ExecutableArbitrageOpportunity -> ExecutableArbitrageOpportunity)
    : M unit :=
  modify (fun w =>
    match objects w !! ref with
    | Some o => setObjects (<[ref := f o]> (objects w)) w
    | None => w
    end).

(** Allocation of a new object; returns the reference to it. *)
Definition newObject (o : ExecutableArbitrageOpportunity) : M nat :=
  fun w => (length (objects w), setObjects (objects w ++ [o]) w).

(** [ArbitrageDetector.updateConfig], as far as the detector goes: the keys
    present replace the detector's settings.  The three values it passes on
    to the market monitor reach the analyzer, which is not part of this
    world ([Manager.updateConfig] has both). *)
Definition updateConfig (partial : PartialDetectorConfig) : M unit :=
  modify (fun w =>
    setDetector
      (setConfig (mergeDetectorConfig partial (config (detector w)))
                 (detector w)) w).


Section WithClock.

(** [clock n] is what the [n]-th read of [Date.now()] returns. *)
Variable clock : nat -> Z.

Definition Date_now : M Z :=
  fun w => (clock (reads w), setReads (S (reads w)) w).

(** *** strategy.ts *)

(** [list.includes(x)]. *)
Definition includes (l : list string) (x : string) : bool :=
  bool_decide (x ∈ l).

(** [filterOpportunity]: [false] rejects. *)
Definition filterOpportunity (cfg : ArbitrageStrategyConfig)
    (o : ExecutableArbitrageOpportunity) : bool :=
  let opp := opportunity o in
  let profit := Analyzer.profitPercentage opp in
  (* Check blacklisted pairs *)
  if match blacklistPairs cfg with
     | Some l => includes l (Analyzer.pair opp)
     | None => false
     end
  then false
  (* Check blacklisted DEXes *)
  else if match blacklistDexes cfg with
          | Some l => includes l (Analyzer.sourceDex opp)
                      || includes l (Analyzer.targetDex opp)
          | None => false
          end
  then false
  (* Check if profit is above threshold *)
  else if Qltb profit (s_minProfitThreshold cfg) then false
  (* Prioritize specific pairs if configured *)
  else if match prioritizePairs cfg with
          | Some l => (0 <? length l)%nat
                      && negb (includes l (Analyzer.pair opp))
                      && Qltb profit (s_minProfitThreshold cfg * (3 # 2))
          | None => false
          end
  then false
  (* Prioritize specific DEXes if configured *)
  else if match prioritizeDexes cfg with
          | Some l => (0 <? length l)%nat
                      && negb (includes l (Analyzer.sourceDex opp))
                      && negb (includes l (Analyzer.targetDex opp))
                      && Qltb profit (s_minProfitThreshold cfg * (3 # 2))
          | None => false
          end
  then false
  else true.

(** [resetDailyTradeCount]: the counter goes to 0 and the next reset is the
    coming midnight UTC, computed from [new Date()]. *)
Definition resetDailyTradeCount : M unit :=
  now ← Date_now;
  modify (fun w =>
    let s := strategy w in
    setStrategy
      (mkStrategy (strategyConfig s) 0 (lastTradeTime s)
                  ((now / 86400000 + 1) * 86400000)) w).

(** [checkTradeLimits]. *)
Definition checkTradeLimits : M bool :=
  now ← Date_now;
  w ← get;
  (if dailyResetTime (strategy w) <? now then resetDailyTradeCount else ret tt);;
  w ← get;
  let s := strategy w in
  if maxDailyTrades (strategyConfig s) <=? dailyTradeCount s then ret false
  else if now - lastTradeTime s <? minTradeIntervalMs (strategyConfig s)
  then ret false
  else
    modify (setStrategy
              (mkStrategy (strategyConfig s) (dailyTradeCount s + 1) now
                          (dailyResetTime s)));;
    ret true.

(** [ArbitrageStrategy.handleOpportunity], the callback the strategy
    registers with the detector.  Whatever the filters answer, it returns
    nothing and touches nothing of the detector. *)
Definition handleOpportunity (o : ExecutableArbitrageOpportunity) : M unit :=
  match status o with
  | pending =>
      w ← get;
      if negb (filterOpportunity (strategyConfig (strategy w)) o) then ret tt
      else
        passed ← checkTradeLimits;
        if negb passed then ret tt
        else ret tt
  | _ => ret tt
  end.

(** *** detector.ts *)

Definition directionName (d : Analyzer.Direction) : string :=
  match d with
  | Analyzer.buy => "buy"
  | Analyzer.sell => "sell"
  end.

(** [generateOpportunityId]: the template string
    [sourceDex-targetDex-pair-direction-timestamp]. *)
Definition generateOpportunityId (o : Analyzer.ArbitrageOpportunity) : string :=
  Analyzer.sourceDex o +:+ "-" +:+ Analyzer.targetDex o +:+ "-"
  +:+ Analyzer.pair o +:+ "-" +:+ directionName (Analyzer.direction o)
  +:+ "-" +:+ pretty (Analyzer.timestamp o).

(** [notifyOpportunityCallbacks]: the registered callback is the strategy's;
    it receives the object as it is now. *)
Definition notifyOpportunityCallbacks (ref : nat) : M unit :=
  w ← get;
  match objects w !! ref with
  | Some o => handleOpportunity o
  | None => ret tt
  end.

(** [executeOpportunity] up to its [await]: this part runs inside the call.
    The timer of the simulated delay is left pending. *)
Definition executeOpportunity (ref : nat) : M unit :=
  executionTimestamp ← Date_now;
  modifyObject ref (fun o =>
    mkExecutable (opportunity o) (id o) executing (Some executionTimestamp)
                 (executionTxId o) (actualProfit o) (error o));;
  modify (fun w =>
    setDetector
      (setActiveExecutions (activeExecutions (detector w) + 1)
         (setLastExecutionTime executionTimestamp (detector w))) w);;
  notifyOpportunityCallbacks ref;;
  modify (fun w => setTimers (timers w ++ [ref]) w).



(** [evaluateForExecution]: the four gates, then [executeOpportunity]. *)
Definition evaluateForExecution (ref : nat) : M unit :=
  w ← get;
  let d := detector w in
  (* Check if we're running *)
  if negb (isRunning d) then ret tt
  (* Check if we're already at max concurrent trades *)
  else if maxConcurrentTrades (config d) <=? activeExecutions d then ret tt
  else
    (* Check if we're in cooldown period *)
    now ← Date_now;
    if now - lastExecutionTime d <? cooldownMs (config d) then ret tt
    else
      (* Check if the opportunity is still profitable *)
      match objects w !! ref with
      | None => ret tt
      | Some o =>
          if Qltb (Analyzer.profitPercentage (opportunity o))
                  (minProfitThreshold (config d))
          then ret tt
          else executeOpportunity ref
      end.

(** The body of the loop of [handleOpportunities] for one opportunity. *)
Definition ingestOne (opp : Analyzer.ArbitrageOpportunity) : M unit :=
  let id := generateOpportunityId opp in
  w ← get;
  (* Check if we've already seen this opportunity *)
  match detectedOpportunities (detector w) !! id with
  | Some _ => ret tt
  | None =>
      ref ← newObject (mkExecutable opp id pending None None None None);
      modify (fun w =>
        setDetector
          (setDetectedOpportunities
             (<[id := ref]> (detectedOpportunities (detector w)))
             (detector w)) w);;
      notifyOpportunityCallbacks ref;;
      evaluateForExecution ref
  end.

(** The loop of [handleOpportunities]. *)
Definition ingest (opportunities : list Analyzer.ArbitrageOpportunity) : M unit :=
  forEach opportunities ingestOne.

(** An entry is removed when [now - opportunity.timestamp > maxAge]. *)
Definition expired (now : Z) (os : list ExecutableArbitrageOpportunity)
    (ref : nat) : bool :=
  match os !! ref with
  | Some o => 5 * 60 * 1000 <? now - Analyzer.timestamp (opportunity o)
  | None => false
  end.

(** [cleanupOldOpportunities]. *)
Definition cleanupOldOpportunities : M unit :=
  now ← Date_now;
  modify (fun w =>
    setDetector
      (setDetectedOpportunities
         (filter (fun entry => expired now (objects w) (snd entry) = false)
                 (detectedOpportunities (detector w)))
         (detector w)) w).

(** [handleOpportunities], the callback the detector registers with the
    market monitor. *)
Definition handleOpportunities
    (opportunities : list Analyzer.ArbitrageOpportunity) : M unit :=
  w ← get;
  if negb (isRunning (detector w)) then ret tt
  else
    ingest opportunities;;
    cleanupOldOpportunities.

(** [start] and [stop], as far as the detector's own state goes. *)
Definition start : M unit :=
  modify (fun w => setDetector (setIsRunning true (detector w)) w).

Definition stop : M unit :=
  modify (fun w => setDetector (setIsRunning false (detector w)) w).

(** *** The events of a run *)







(** *** Predicates on worlds *)

(** The detector's side of the world: what the strategy's callback and a
    read of the clock leave alone. *)
Definition detector_side (w : World) :=
  (detector w, objects w, timers w).

(** The object behind [ref] once its execution has started at time [ts]. *)
Definition started (ts : Z) (o : ExecutableArbitrageOpportunity) :=
  mkExecutable (opportunity o) (id o) executing (Some ts)
               (executionTxId o) (actualProfit o) (error o).

(** The four gates of [evaluateForExecution] for the object [o], when the
    next read of the clock is number [reads w]. *)
Definition admissible (w : World) (o : ExecutableArbitrageOpportunity) : Prop :=
  isRunning (detector w) = true
  /\ activeExecutions (detector w) < maxConcurrentTrades (config (detector w))
  /\ cooldownMs (config (detector w))
     <= clock (reads w) - lastExecutionTime (detector w)
  /\ (minProfitThreshold (config (detector w))
      <= Analyzer.profitPercentage (opportunity o))%Q.

(** The slots are accounted for: every active execution is one suspended on
    its timer, and there are no more of them than the limit allows. *)
Definition slots_ok (w : World) : Prop :=
  activeExecutions (detector w) = Z.of_nat (length (timers w))
  /\ activeExecutions (detector w) <= maxConcurrentTrades (config (detector w)).


(** Every reference in the table is to an allocated object. *)
Definition table_ok (w : World) : Prop :=
  forall id ref, detectedOpportunities (detector w) !! id = Some ref ->
                 (ref < length (objects w))%nat.

(** [w'] comes from [w] by adding entries and objects and by starting
    executions of objects at or above the reference [bound]: the
    configuration and the running flag are the same, the objects below
    [bound] and all entries of the table are kept. *)
Definition grows (bound : nat) (w w' : World) : Prop :=
  config (detector w') = config (detector w)
  /\ isRunning (detector w') = isRunning (detector w)
  /\ (slots_ok w -> slots_ok w')
  /\ (length (objects w) <= length (objects w'))%nat
  /\ (forall ref, (ref < bound)%nat -> objects w' !! ref = objects w !! ref)
  /\ (forall id ref, detectedOpportunities (detector w) !! id = Some ref ->
                     detectedOpportunities (detector w') !! id = Some ref)
  /\ (table_ok w -> table_ok w').

End WithClock.

End Arbitrage.

(** A detector on its default configuration, running, with a strategy that
    blacklists SOL/USDC, and the opportunity of [AnalyzerExample] delivered
    to it at time 1000. *)
Module ArbitrageExample.
Import Arbitrage.
Local Open Scope string_scope.

Definition detectorConfig0 : ArbitrageDetectorConfig :=
  {| minProfitThreshold := 1 # 2;
     maxSlippage := 3 # 10;
     tradeSizeUsd := 1000;
     maxConcurrentTrades := 1;
     cooldownMs := 2000;
     gasMultiplier := 3 # 2 |}.

Definition strategyConfig0 : ArbitrageStrategyConfig :=
  {| s_minProfitThreshold := 1 # 2;
     s_maxSlippage := 3 # 10;
     s_tradeSizeUsd := 1000;
     s_maxConcurrentTrades := 1;
     s_cooldownMs := 2000;
     s_gasMultiplier := 3 # 2;
     prioritizePairs := Some [];
     blacklistPairs := Some ["SOL/USDC"];
     prioritizeDexes := Some [];
     blacklistDexes := Some [];
     minTradeIntervalMs := 5000;
     maxDailyTrades := 100 |}.

Definition world0 : World :=
  {| detector := mkDetector detectorConfig0 true ∅ 0 0;
     strategy := mkStrategy strategyConfig0 0 0 86400000;
     objects := [];
     reads := 0;
     timers := [] |}.

Definition clock0 : nat -> Z := fun _ => 10000.

Definition opportunity0 : Analyzer.ArbitrageOpportunity :=
  AnalyzerExample.opportunity0 10000.

(** The object [handleOpportunities] creates for it. *)
Definition pending0 : ExecutableArbitrageOpportunity :=
  mkExecutable opportunity0 "Raydium-Serum-SOL/USDC-buy-10000" pending
               None None None None.

(** The same object once its execution has started at time 10000. *)
Definition executing0 : ExecutableArbitrageOpportunity :=
  mkExecutable opportunity0 "Raydium-Serum-SOL/USDC-buy-10000" executing
               (Some 10000) None None None.

(** A world that holds the object but has not evaluated it yet, and the same
    world with the only slot taken. *)
Definition world1 : World := setObjects [pending0] world0.

Definition busy1 : World :=
  setTimers [7%nat]
    (setDetector (setActiveExecutions 1 (detector world1)) world1).


End ArbitrageExample.

(** ** executor.ts, swap.ts and the arbitrage executor *)

Module Execution.

(** [TransactionResult] of executor.ts. *)
Record TransactionResult := mkTransactionResult {
  success : bool;
  signature : option string;
  error : option string;
  confirmationTime : option Z;
  blockHeight : option Z;
  fee : option Q
}.

(** [SwapInstructionParams]; a [PublicKey] is its base-58 string. *)
Record SwapInstructionParams := mkSwapParams {
  sourceDex : string;
  sourcePool : string;
  inputToken : string;
  outputToken : string;
  inputAmount : Q;
  minOutputAmount : Q;
  userSourceTokenAccount : string;
  userDestinationTokenAccount : string
}.

(** [SwapResult extends TransactionResult]: the transaction result it was
    spread from and its own optional fields (those that share a name with a
    parameter carry the prefix [swap_]). *)
Record SwapResult := mkSwapResult {
  transactionResult : TransactionResult;
  swap_inputAmount : option Q;
  outputAmount : option Q;
  swap_inputToken : option string;
  swap_outputToken : option string;
  dex : option string;
  pool : option string
}.

(** The [TransactionInstruction] the placeholders build: program id and
    account keys; its data is empty. *)
Record TransactionInstruction := mkInstruction {
  programId : string;
  keys : list string
}.

(** [ArbitrageTransactionParams]. *)
Record ArbitrageTransactionParams := mkArbitrageParams {
  opportunity : Arbitrage.ExecutableArbitrageOpportunity;
  sourcePoolAddress : string;
  targetPoolAddress : string;
  tokenAMint : string;
  tokenBMint : string;
  userTokenAAccount : string;
  userTokenBAccount : string;
  slippageTolerance : Q
}.

(** [ArbitrageTransactionResult] (fields that share a name with another
    record carry the prefix [arbitrage_]). *)
Record ArbitrageTransactionResult := mkArbitrageResult {
  arbitrage_success : bool;
  arbitrage_opportunity : Arbitrage.ExecutableArbitrageOpportunity;
  sourceSwap : option SwapResult;
  targetSwap : option SwapResult;
  profit : option Q;
  profitPercentage : option Q;
  arbitrage_error : option string;
  executionTime : option Z
}.

Section WithNetwork.

(** The network and the wallet are outside the program.  [Net] is their
    state; [executeTransaction] is [TransactionExecutor.executeTransaction],
    which sends a transaction (retrying as configured) and resolves to a
    [TransactionResult] without throwing; [TOKEN_PROGRAM_ID] is the constant
    of [@solana/spl-token]; [clock] is [Date.now()]. *)
Variable Net : Type.
Variable executeTransaction :
  TransactionInstruction -> Net -> TransactionResult * Net.
Variable TOKEN_PROGRAM_ID : string.
Variable clock : nat -> Z.

(** The state the executors run in: the network, the number of clock reads,
    and the history of the calls of [executeSwap], oldest first. *)
Record World := mkWorld {
  net : Net;
  reads : nat;
  calls : list SwapInstructionParams
}.

Definition M (A : Type) : Type := World -> A * World.

#[export] Instance M_ret : MRet M := fun A a w => (a, w).
#[export] Instance M_bind : MBind M :=
  fun A B k m w => let '(a, w') := m w in k a w'.

Definition Date_now : M Z :=
  fun w => (clock (reads w), mkWorld (net w) (S (reads w)) (calls w)).

Definition recordCall (params : SwapInstructionParams) : M unit :=
  fun w => (tt, mkWorld (net w) (reads w) (calls w ++ [params])).

Definition submit (instruction : TransactionInstruction) : M TransactionResult :=
  fun w => let '(r, n) := executeTransaction instruction (net w) in
           (r, mkWorld n (reads w) (calls w)).

(** [createSwapInstruction] with the three placeholders it dispatches to;
    [inl message] is [throw new Error(message)]. *)
Definition createSwapInstruction (params : SwapInstructionParams)
    : string + TransactionInstruction :=
  let keys := [sourcePool params; userSourceTokenAccount params;
               userDestinationTokenAccount params; TOKEN_PROGRAM_ID] in
  if String.eqb (sourceDex params) "Serum" then
    inr (mkInstruction "srmqPvymJeFKQ4zGQed1GFppgkRHL9kaELCbyksJtPX" keys)
  else if String.eqb (sourceDex params) "Raydium" then
    inr (mkInstruction "675kPX9MHTjS2zt1qfr1NYHuzeLXfQM9H24wFSUt1Mp8" keys)
  else if String.eqb (sourceDex params) "Orca" then
    inr (mkInstruction "whirLbMiicVdio4qvUfM5KAg6Ct8VwpYzGff3uctyCc" keys)
  else inl ("Unsupported DEX: " +:+ sourceDex params).

(** [executeSwap].  The estimate is the product of the requested minimum
    and 1.01 in exact arithmetic, where the source multiplies doubles; the
    two agree up to rounding, and exactly at a minimum of 0. *)
Definition executeSwap (params : SwapInstructionParams) : M SwapResult :=
  recordCall params;;
  match createSwapInstruction params with
  | inl message =>
      (* catch (error) *)
      mret (mkSwapResult
              (mkTransactionResult false None
                 (Some ("Swap execution failed: " +:+ message)) None None None)
              (Some (inputAmount params)) None
              (Some (inputToken params)) (Some (outputToken params))
              (Some (sourceDex params)) (Some (sourcePool params)))
  | inr instruction =>
      result ← submit instruction;
      if negb (success result) then
        mret (mkSwapResult result
                (Some (inputAmount params)) None
                (Some (inputToken params)) (Some (outputToken params))
                (Some (sourceDex params)) (Some (sourcePool params)))
      else
        (* "Slightly better than minimum" *)
        let estimatedOutputAmount := (minOutputAmount params * (101 # 100))%Q in
        mret (mkSwapResult result
                (Some (inputAmount params)) (Some estimatedOutputAmount)
                (Some (inputToken params)) (Some (outputToken params))
                (Some (sourceDex params)) (Some (sourcePool params)))
  end.

(** [a || b] on an optional string: [undefined] and the empty string are
    falsy. *)
Definition orElse (a : option string) (b : string) : string :=
  match a with
  | Some EmptyString | None => b
  | Some s => s
  end.

(** The amount that goes into the source swap: quote tokens for [buy], the
    trade size in base tokens otherwise. *)
Definition sourceInputAmount (params : ArbitrageTransactionParams) : Q :=
  let opp := Arbitrage.opportunity (opportunity params) in
  match Analyzer.direction opp with
  | Analyzer.buy => (Analyzer.tradeSize opp * Analyzer.sourcePrice opp)%Q
  | Analyzer.sell => Analyzer.tradeSize opp
  end.

(** [sourceSwapParams]: the token flow is chosen by the direction. *)
Definition sourceSwapParams (params : ArbitrageTransactionParams)
    : SwapInstructionParams :=
  let opp := Arbitrage.opportunity (opportunity params) in
  let inputAmount := sourceInputAmount params in
  let expectedSourceOutput := (inputAmount / Analyzer.sourcePrice opp)%Q in
  let minSourceOutput :=
    (expectedSourceOutput * (1 - slippageTolerance params))%Q in
  match Analyzer.direction opp with
  | Analyzer.buy =>
      (* Buy on source, sell on target *)
      mkSwapParams (Analyzer.sourceDex opp) (sourcePoolAddress params)
        (tokenBMint params) (tokenAMint params)
        inputAmount minSourceOutput
        (userTokenBAccount params) (userTokenAAccount params)
  | Analyzer.sell =>
      (* Sell on source, buy on target *)
      mkSwapParams (Analyzer.sourceDex opp) (sourcePoolAddress params)
        (tokenAMint params) (tokenBMint params)
        inputAmount minSourceOutput
        (userTokenAAccount params) (userTokenBAccount params)
  end.

(** [targetSwapParams], given the output amount of the source swap. *)
Definition targetSwapParams (params : ArbitrageTransactionParams)
    (sourceOutputAmount : Q) : SwapInstructionParams :=
  let opp := Arbitrage.opportunity (opportunity params) in
  let expectedTargetOutput :=
    (sourceOutputAmount * Analyzer.targetPrice opp)%Q in
  let minTargetOutput :=
    (expectedTargetOutput * (1 - slippageTolerance params))%Q in
  match Analyzer.direction opp with
  | Analyzer.buy =>
      mkSwapParams (Analyzer.targetDex opp) (targetPoolAddress params)
        (tokenAMint params) (tokenBMint params)
        sourceOutputAmount minTargetOutput
        (userTokenAAccount params) (userTokenBAccount params)
  | Analyzer.sell =>
      mkSwapParams (Analyzer.targetDex opp) (targetPoolAddress params)
        (tokenBMint params) (tokenAMint params)
        sourceOutputAmount minTargetOutput
        (userTokenBAccount params) (userTokenAAccount params)
  end.

(** [ArbitrageExecutor.executeArbitrage].  Nothing in its [try] block throws
    ([executeSwap] catches its own exceptions), so the [catch] block has no
    counterpart here. *)
Definition executeArbitrage (params : ArbitrageTransactionParams)
    : M ArbitrageTransactionResult :=
  startTime ← Date_now;
  let inputAmount := sourceInputAmount params in
  (* Execute source swap *)
  sourceSwapResult ← executeSwap (sourceSwapParams params);
  if negb (success (transactionResult sourceSwapResult))
     || negb (truthy (outputAmount sourceSwapResult))
  then
    now ← Date_now;
    mret (mkArbitrageResult false (opportunity params)
            (Some sourceSwapResult) None None None
            (Some (orElse (error (transactionResult sourceSwapResult))
                          "Source swap failed without specific error"))
            (Some (now - startTime)))
  else
    let sourceOutputAmount := default 0%Q (outputAmount sourceSwapResult) in
    (* Execute target swap *)
    targetSwapResult ← executeSwap (targetSwapParams params sourceOutputAmount);
    if negb (success (transactionResult targetSwapResult))
       || negb (truthy (outputAmount targetSwapResult))
    then
      now ← Date_now;
      mret (mkArbitrageResult false (opportunity params)
              (Some sourceSwapResult) (Some targetSwapResult) None None
              (Some (orElse (error (transactionResult targetSwapResult))
                            "Target swap failed without specific error"))
              (Some (now - startTime)))
    else
      (* Calculate actual profit *)
      let targetOutputAmount := default 0%Q (outputAmount targetSwapResult) in
      let profit := (targetOutputAmount - inputAmount)%Q in
      let profitPercentage := ((profit / inputAmount) * 100)%Q in
      now ← Date_now;
      mret (mkArbitrageResult true (opportunity params)
              (Some sourceSwapResult) (Some targetSwapResult)
              (Some profit) (Some profitPercentage) None
              (Some (now - startTime))).

End WithNetwork.

Arguments mkWorld {Net}.
Arguments net {Net}.
Arguments reads {Net}.
Arguments calls {Net}.
Arguments Date_now {Net}.
Arguments executeSwap {Net}.
Arguments executeArbitrage {Net}.

End Execution.

(** A buy of 10 SOL at 100 USDC through Raydium and Serum with 1% slippage
    tolerance, and two networks over a trivial state: one that confirms
    every transaction and one that rejects every transaction. *)
Module ExecutionExample.
Import Execution.
Local Open Scope string_scope.

Definition confirmed : TransactionResult :=
  mkTransactionResult true (Some "sig") None (Some 400) (Some 1) None.

Definition rejected : TransactionResult :=
  mkTransactionResult false None
    (Some "Transaction failed after 4 attempts: blockhash not found")
    None None None.

Definition confirms : TransactionInstruction -> unit -> TransactionResult * unit :=
  fun _ n => (confirmed, n).

Definition rejects : TransactionInstruction -> unit -> TransactionResult * unit :=
  fun _ n => (rejected, n).

(** A network that confirms the first transaction it is given and rejects
    the later ones; its state tells whether a transaction was sent. *)
Definition confirmsOnce
    : TransactionInstruction -> bool -> TransactionResult * bool :=
  fun _ sent => (if sent then rejected else confirmed, true).

Definition world0 : World unit := mkWorld tt 0 [].

Definition params0 : ArbitrageTransactionParams :=
  mkArbitrageParams ArbitrageExample.executing0
    "pool-raydium" "pool-serum" "mint-SOL" "mint-USDC"
    "account-SOL" "account-USDC" (1 # 100).

(** The same trade with a slippage tolerance of 100 %: the minimum output
    of the source swap is 0. *)
Definition paramsNoMinimum : ArbitrageTransactionParams :=
  mkArbitrageParams ArbitrageExample.executing0
    "pool-raydium" "pool-serum" "mint-SOL" "mint-USDC"
    "account-SOL" "account-USDC" 1.

(** A swap that asks for no minimum output. *)
Definition swapParams0 : SwapInstructionParams :=
  mkSwapParams "Raydium" "pool-raydium" "mint-USDC" "mint-SOL"
               1000 0 "account-USDC" "account-SOL".

Definition tokenProgram : string := "TokenkegQfeZyiNwAJbNbGKPFXCWuBvf9Ss623VQ5DA".

End ExecutionExample.

(** ** Orderings used to state what the analyzer returns *)

Module AnalyzerOrder.
Import Analyzer.

(** [x] may come before [y] in a list sorted by falling profit percentage. *)
Definition profit_desc (x y : ArbitrageOpportunity) : Prop :=
  (profitPercentage y <= profitPercentage x)%Q.

(** The opportunities with profit percentage equal to [k], in list order. *)
Definition withProfit (k : Q) (l : list ArbitrageOpportunity)
    : list ArbitrageOpportunity :=
  filter (fun o => Qeq_bool (profitPercentage o) k = true) l.

(** A quote whose bid does not exceed its ask. *)
Definition uncrossed (d : PriceData) : Prop := (pd_bid d <= pd_ask d)%Q.

End AnalyzerOrder.

(** The number of comparisons the loops make for the whole map: for every
    entry with [n] quotes, [n * (n - 1) / 2]. *)
Module AnalyzerCost.

Definition pairCount (md : Analyzer.MarketData) : nat :=
  foldr (fun e acc => (length (snd e) * (length (snd e) - 1) / 2 + acc)%nat)
        0%nat md.

End AnalyzerCost.

(** ** market/index.ts: [MarketMonitor] *)

Module Monitor.

(** [array.slice(0, end)] for an integer [end]: a negative [end] counts from
    the end of the array, and the bounds are clamped to the array. *)
Definition slice0 {A} (endIndex : Z) (l : list A) : list A :=
  let len := Z.of_nat (length l) in
  let final := if endIndex <? 0 then Z.max (len + endIndex) 0
               else Z.min endIndex len in
  take (Z.to_nat final) l.

(** The monitor's own fields (its collector is [Collector]). *)
Record MarketMonitor := mkMonitor {
  analyzer : Analyzer.MarketAnalyzer;
  opportunities : list Analyzer.ArbitrageOpportunity;
  maxOpportunities : Z
}.

(** [config.maxOpportunities || 10] of the constructor. *)
Definition defaultMaxOpportunities (configured : option Z) : Z :=
  match configured with
  | Some 0 | None => 10
  | Some n => n
  end.

(** [handlePriceUpdate]: analyze, keep the first [maxOpportunities], and hand
    a copy of what was kept to the subscribers.  Returns the monitor, the
    list handed over and the number of clock reads made so far. *)
Definition handlePriceUpdate (clock : nat -> Z) (t : nat)
    (priceData : Analyzer.MarketData) (m : MarketMonitor)
    : MarketMonitor * list Analyzer.ArbitrageOpportunity * nat :=
  let '(found, t') :=
    Analyzer.findArbitrageOpportunities (analyzer m) clock t priceData in
  let kept := slice0 (maxOpportunities m) found in
  (mkMonitor (analyzer m) kept (maxOpportunities m), kept, t').

End Monitor.

(** Three venues quoting SOL/USDC at time 1000. *)
Module MonitorExample.
Import Analyzer.
Local Open Scope string_scope.

Definition orcaQuote : PriceData :=
  mkPriceData "Orca" "SOL/USDC" 98 99 (Some (197 # 2)) 1000.

Definition marketData3 : MarketData :=
  [("SOL/USDC", [AnalyzerExample.serumQuote; AnalyzerExample.raydiumQuote;
                 orcaQuote])].

(** What the analyzer pushes for buying at [src]'s ask and selling at
    [tgt]'s bid with the settings of [AnalyzerExample.analyzer0]. *)
Definition expected (src tgt : PriceData) (now : Z) : ArbitrageOpportunity :=
  let profitPerUnit := (pd_bid tgt - pd_ask src)%Q in
  let tradeSize := (1000 / pd_ask src)%Q in
  {| sourceDex := pd_dex src;
     targetDex := pd_dex tgt;
     pair := "SOL/USDC";
     profitPercentage := ((profitPerUnit / pd_ask src) * 100)%Q;
     estimatedProfit := ((profitPerUnit * tradeSize) - (1 # 1000) * 150)%Q;
     sourcePrice := pd_ask src;
     targetPrice := pd_bid tgt;
     direction := buy;
     timestamp := now;
     tradeSize := tradeSize |}.

Definition monitor0 : Monitor.MarketMonitor :=
  Monitor.mkMonitor AnalyzerExample.analyzer0 [] 2.

End MonitorExample.

(** ** More of the collector: lookups, initialization and polling *)

Module CollectorMore.
Import Collector.

(** [getPriceDataForPair]: the array stored for the pair ([None] for
    [null]).  An array, even an empty one, is truthy. *)
Definition getPriceDataForPair (pairName : string) (c : MarketDataCollector)
    : option (list Analyzer.PriceData) :=
  match get pairName (priceData c) with
  | Some ref => arrays c !! ref
  | None => None
  end.

(** The record [storePrice] builds. *)
Definition record (dexName pairName : string) (price : Price)
    : Analyzer.PriceData :=
  Analyzer.mkPriceData dexName pairName (bid price) (ask price) (last price)
                       (timestamp price).

(** What [storePrice] makes of the array [old] of the pair: the venue's
    entry is overwritten, or the record is pushed. *)
Definition stored (dexName : string) (data : Analyzer.PriceData)
    (old : list Analyzer.PriceData) : list Analyzer.PriceData :=
  match findIndex dexName old with
  | Some existingIndex => <[existingIndex := data]> old
  | None => old ++ [data]
  end.

(** The state the collector keeps in shape: every key of the map has an
    array of its own (the [i]-th key refers to the [i]-th array), no key
    occurs twice, and the array of a key holds quotes of that pair only, at
    most one for every venue. *)
Definition consistent (c : MarketDataCollector) : Prop :=
  length (priceData c) = length (arrays c)
  /\ (forall i key ref, priceData c !! i = Some (key, ref) -> ref = i)
  /\ NoDup (fst <$> priceData c)
  /\ (forall key arr, getPriceDataForPair key c = Some arr ->
        NoDup (Analyzer.pd_dex <$> arr)
        /\ forall d, d ∈ arr -> Analyzer.pd_pair d = key).

(** [initialize]: a provider is pushed for each of the three known venues
    that [dexes] includes, every provider is initialized ([initOk] tells
    which of them succeed), and the answer is whether there is any provider.
    Returns the names of the providers and the answer. *)
Definition initialize (dexes : list string) (initOk : string -> bool)
    (providerNames : list string) : list string * bool :=
  let pushed :=
    providerNames
    ++ (if bool_decide ("Serum"%string ∈ dexes) then ["Serum"%string] else [])
    ++ (if bool_decide ("Raydium"%string ∈ dexes) then ["Raydium"%string] else [])
    ++ (if bool_decide ("Orca"%string ∈ dexes) then ["Orca"%string] else []) in
  (* the loop that initializes the providers only logs a failure, so
     [initOk] has no part in the answer *)
  (pushed, (0 <? length pushed)%nat).

(** The polling state: [isInitialized], the handle in [pollingInterval]
    ([None] for [null]), the interval timers that are live, the next unused
    handle, and how many times [collectData] has been called by [start]. *)
Record Polling := mkPolling {
  isInitialized : bool;
  pollingInterval : option nat;
  liveIntervals : list nat;
  nextHandle : nat;
  initialCollections : nat
}.

(** [start]. *)
Definition start (p : Polling) : Polling * bool :=
  if negb (isInitialized p) then (p, false)
  else match pollingInterval p with
       | Some _ => (p, true)
       | None =>
           (mkPolling (isInitialized p) (Some (nextHandle p))
                      (liveIntervals p ++ [nextHandle p])
                      (S (nextHandle p)) (S (initialCollections p)),
            true)
       end.

(** [stop]: [clearInterval] and [null]. *)
Definition stop (p : Polling) : Polling :=
  match pollingInterval p with
  | Some h =>
      mkPolling (isInitialized p) None
                (filter (fun h' => h' <> h) (liveIntervals p))
                (nextHandle p) (initialCollections p)
  | None => p
  end.

Inductive Call := CallStart | CallStop.

Definition call (c : Call) (p : Polling) : Polling :=
  match c with
  | CallStart => (start p).1
  | CallStop => stop p
  end.

End CollectorMore.

(** A collector that has stored the first cycle of [CollectorExample], and
    a feed in which Serum gives no price. *)
Module CollectorMoreExample.
Import Collector.
Local Open Scope string_scope.

Definition collector1 : MarketDataCollector :=
  (collectData CollectorExample.feed1 CollectorExample.collector0).1.

Definition serumDown : Feed := fun dex _ =>
  if String.eqb dex "Serum" then None
  else Some (mkPrice 199 202 None 6000).

Definition idle : CollectorMore.Polling :=
  CollectorMore.mkPolling true None [] 0 0.

End CollectorMoreExample.


(** ** executor.ts: the retry loop of [TransactionExecutor] *)

Module Executor.
Import Execution.

Record TransactionExecutorConfig := mkConfig {
  maxRetries : Z;
  confirmationLevel : string;
  priorityFeeMultiplier : Q;
  timeoutMs : Z;
  simulateBeforeSubmit : bool
}.

(** [Partial<TransactionExecutorConfig>]. *)
Record PartialConfig := mkPartialConfig {
  p_maxRetries : option Z;
  p_confirmationLevel : option string;
  p_priorityFeeMultiplier : option Q;
  p_timeoutMs : option Z;
  p_simulateBeforeSubmit : option bool
}.

(** The constructor's configuration: [a ?? b] replaces [undefined] only. *)
Definition newConfig (config : PartialConfig) : TransactionExecutorConfig :=
  {| maxRetries := default 3 (p_maxRetries config);
     confirmationLevel := default "confirmed" (p_confirmationLevel config);
     priorityFeeMultiplier := default (3 # 2) (p_priorityFeeMultiplier config);
     timeoutMs := default 30000 (p_timeoutMs config);
     simulateBeforeSubmit := default true (p_simulateBeforeSubmit config) |}.

(** How an awaited call of the connection or the wallet ends. *)
Inductive Response (A : Type) :=
  | Fulfilled (a : A)
  | Rejected (message : string).
Arguments Fulfilled {A}.
Arguments Rejected {A}.

(** What [getTransaction] resolves to, as far as it is read: [slot] and
    [meta?.fee]. *)
Record TransactionDetails := mkDetails {
  slot : Z;
  meta_fee : option Q
}.

(** What the network answers during one attempt.  An [err] field is [None]
    when it is falsy and [Some json] otherwise, [json] being what
    [JSON.stringify] makes of it. *)
Record Attempt := mkAttempt {
  getLatestBlockhash : Response string;
  simulateTransaction : Response (option string);
  sendAndConfirmTransaction : Response string;
  confirmTransaction : Response (option string);
  getTransaction : Response (option TransactionDetails)
}.

(** The calls that leave the program, in the order they are made. *)
Inductive Call :=
  | GetLatestBlockhash
  | SimulateTransaction
  | SendAndConfirmTransaction
  | ConfirmTransaction (signature : string)
  | GetTransaction (signature : string)
  | SetTimeout (ms : Z).

#[export] Instance Call_eq_dec : EqDecision Call.
Proof. solve_decision. Defined.

Record World := mkWorld {
  reads : nat;
  trace : list Call
}.

(** The body of the [try] block runs in a state monad with exceptions. *)
Definition T (A : Type) : Type := World -> Response A * World.

#[export] Instance T_ret : MRet T := fun A a w => (Fulfilled a, w).
#[export] Instance T_bind : MBind T :=
  fun A B k m w =>
    match m w with
    | (Fulfilled a, w') => k a w'
    | (Rejected message, w') => (Rejected message, w')
    end.

Definition throw {A} (message : string) : T A :=
  fun w => (Rejected message, w).

(** [await c], answered by [r]. *)
Definition await {A} (c : Call) (r : Response A) : T A :=
  fun w => (r, mkWorld (reads w) (trace w ++ [c])).

Definition LAMPORTS_PER_SOL : Q := 1000000000.

Definition unknownReason : TransactionResult :=
  mkTransactionResult false None
    (Some "Transaction failed for unknown reason") None None None.

Definition failedAfter (retries : Z) (message : string) : TransactionResult :=
  mkTransactionResult false None
    (Some ("Transaction failed after " +:+ pretty retries +:+ " attempts: "
           +:+ message))
    None None None.

Section WithNetwork.

(** [clock n] is what the [n]-th read of [Date.now()] returns; [network i]
    is what the network answers during attempt number [i], counted from 0. *)
Variable clock : nat -> Z.
Variable network : nat -> Attempt.

Definition Date_now : T Z :=
  fun w => (Fulfilled (clock (reads w)), mkWorld (S (reads w)) (trace w)).

(** [WalletManager.signAndSendTransaction] of wallet.ts: it throws again
    what [sendAndConfirmTransaction] throws, under its own message. *)
Definition signAndSendTransaction (a : Attempt) : T string :=
  fun w =>
    match await SendAndConfirmTransaction (sendAndConfirmTransaction a) w with
    | (Fulfilled signature, w') => (Fulfilled signature, w')
    | (Rejected message, w') =>
        (Rejected ("Failed to sign and send transaction: " +:+ message), w')
    end.

(** The body of the [try] block of [executeTransaction]. *)
Definition attempt (config : TransactionExecutorConfig) (a : Attempt)
    : T TransactionResult :=
  (* Add recent blockhash *)
  _ ← await GetLatestBlockhash (getLatestBlockhash a);
  (* Simulate transaction if configured *)
  (if simulateBeforeSubmit config then
     err ← await SimulateTransaction (simulateTransaction a);
     match err with
     | Some json => throw ("Transaction simulation failed: " +:+ json)
     | None => mret tt
     end
   else mret tt);;
  (* Sign and send transaction *)
  startTime ← Date_now;
  signature ← signAndSendTransaction a;
  (* Wait for confirmation *)
  err ← await (ConfirmTransaction signature) (confirmTransaction a);
  match err with
  | Some json => throw ("Transaction confirmation failed: " +:+ json)
  | None => mret tt
  end;;
  endTime ← Date_now;
  (* Get transaction details *)
  txDetails ← await (GetTransaction signature) (getTransaction a);
  mret (mkTransactionResult true (Some signature) None
          (Some (endTime - startTime))
          (slot <$> txDetails)
          (match txDetails ≫= meta_fee with
           | Some fee => if Qeq_bool fee 0 then None
                         else Some (fee / LAMPORTS_PER_SOL)%Q
           | None => None
           end)).

(** The [while] loop from the value [retries] on; [fuel] bounds the number
    of its iterations. *)
Fixpoint retryLoop (config : TransactionExecutorConfig) (fuel : nat)
    (retries : Z) (w : World) : TransactionResult * World :=
  match fuel with
  | O => (unknownReason, w)
  | S fuel' =>
      if retries <=? maxRetries config then
        match attempt config (network (Z.to_nat retries)) w with
        | (Fulfilled result, w') => (result, w')
        | (Rejected message, w') =>
            let retries := retries + 1 in
            if maxRetries config <? retries then
              (failedAfter retries message, w')
            else
              (* Wait before retrying *)
              retryLoop config fuel' retries
                (mkWorld (reads w') (trace w' ++ [SetTimeout (1000 * retries)]))
        end
      else (unknownReason, w)
  end.

(** [executeTransaction]: [retries] goes up by one in every iteration that
    does not return, so [maxRetries + 1] iterations are all there can be. *)
Definition executeTransaction (config : TransactionExecutorConfig)
    (w : World) : TransactionResult * World :=
  retryLoop config (Z.to_nat (maxRetries config + 1)) 0 w.

(** How an attempt ends whatever the clock shows: [None] when it returns a
    result, [Some message] when it throws. *)
Definition verdict (config : TransactionExecutorConfig) (a : Attempt)
    : option string :=
  match (attempt config a (mkWorld 0 [])).1 with
  | Fulfilled _ => None
  | Rejected message => Some message
  end.

(** Whether an attempt gets as far as sending the transaction: the
    blockhash arrived and the simulation, if there is one, found no error. *)
Definition reachesSubmit (config : TransactionExecutorConfig) (a : Attempt)
    : bool :=
  match getLatestBlockhash a with
  | Fulfilled _ =>
      if simulateBeforeSubmit config then
        match simulateTransaction a with
        | Fulfilled None => true
        | _ => false
        end
      else true
  | Rejected _ => false
  end.

End WithNetwork.

(** Counters over the trace. *)
Definition attempts (w : World) : nat :=
  length (filter (fun c => c = GetLatestBlockhash) (trace w)).

Definition submissions (w : World) : nat :=
  length (filter (fun c => c = SendAndConfirmTransaction) (trace w)).

Definition delays (w : World) : list Z :=
  omap (fun c => match c with SetTimeout ms => Some ms | _ => None end)
       (trace w).

End Executor.

(** An executor that retries three times, a network that accepts the
    transaction but reports a failed confirmation the first two times, and
    one whose simulation always fails. *)
Module ExecutorExample.
Import Executor.
Local Open Scope string_scope.

Definition config0 : TransactionExecutorConfig :=
  newConfig (mkPartialConfig None None None None None).

Definition good : Attempt :=
  mkAttempt (Fulfilled "hash") (Fulfilled None) (Fulfilled "sig")
            (Fulfilled None) (Fulfilled (Some (mkDetails 7 (Some 5000%Q)))).

Definition unconfirmed : Attempt :=
  mkAttempt (Fulfilled "hash") (Fulfilled None) (Fulfilled "sig")
            (Fulfilled (Some "{}")) (Fulfilled None).

Definition unsimulated : Attempt :=
  mkAttempt (Fulfilled "hash") (Fulfilled (Some "{}")) (Fulfilled "sig")
            (Fulfilled None) (Fulfilled None).

Definition thirdTime : nat -> Attempt :=
  fun i => if (i <? 2)%nat then unconfirmed else good.

Definition world0 : World := mkWorld 0 [].

Definition clock0 : nat -> Z := fun n => 1000 + 400 * Z.of_nat n.

End ExecutorExample.


(** ** The market data providers of the two pool venues *)

Module RaydiumMarketProvider.
Import Collector.

Record Pool := mkPool {
  id : string;
  lpMint : string;
  baseReserve : string;
  quoteReserve : string
}.

(** [s.charCodeAt(0)]; [None] is the [NaN] of an empty string. *)
Definition charCodeAt0 (s : string) : option Z :=
  match s with
  | EmptyString => None
  | String a _ => Some (Z.of_N (Ascii.N_of_ascii a))
  end.

(** [simulateFetchReserve], given the value [Math.random()] returns in it
    and the address in base 58; [None] is [NaN]. *)
Definition simulateFetchReserve (random : Q) (reserveAddress : string)
    : option Q :=
  match charCodeAt0 reserveAddress with
  | Some code =>
      let baseAmount := (random * 1000000)%Q in
      let addressSeed := (inject_Z code / 255)%Q in
      Some (baseAmount * (1 + addressSeed))%Q
  | None => None
  end.

(** [getPrice], given the pools, the two values [Math.random()] returns
    during the two fetches and the value of [Date.now()]. *)
Definition getPrice (pools : gmap string Pool) (random1 random2 : Q)
    (now : Z) (pairName : string) : option Price :=
  match pools !! pairName with
  | None => None
  | Some pool =>
      match simulateFetchReserve random1 (baseReserve pool),
            simulateFetchReserve random2 (quoteReserve pool) with
      | Some baseReserveAmount, Some quoteReserveAmount =>
          if Qeq_bool baseReserveAmount 0 || Qeq_bool quoteReserveAmount 0
          then None
          else
            (* Calculate price based on the constant product formula *)
            let price := (quoteReserveAmount / baseReserveAmount)%Q in
            (* Add a small spread for bid/ask *)
            let spread := (price * (5 # 1000))%Q in
            Some (mkPrice (price - spread / 2) (price + spread / 2)
                          (Some price) now)
      | _, _ => None
      end
  end.

End RaydiumMarketProvider.

Module OrcaMarketProvider.
Import Collector.

(** [getPrice], given the names of the pairs that have a pool, what
    [simulateFetchWhirlpoolData] resolves to (it takes a square root of a
    random price) and the value of [Date.now()]. *)
Definition getPrice (pools : list string) (sqrtPrice liquidity : Q)
    (now : Z) (pairName : string) : option Price :=
  if bool_decide (pairName ∈ pools) then
    if Qeq_bool sqrtPrice 0 || Qeq_bool liquidity 0 then None
    else
      (* Calculate price from sqrt price *)
      let price := (sqrtPrice * sqrtPrice)%Q in
      (* Add a small spread for bid/ask *)
      let spread := (price * (4 # 1000))%Q in
      Some (mkPrice (price - spread / 2) (price + spread / 2)
                    (Some price) now)
  else None.

End OrcaMarketProvider.

Module ProviderExample.
Local Open Scope string_scope.

(** The Raydium pool of SOL/USDC as [initialize] sets it. *)
Definition raydiumPools : gmap string RaydiumMarketProvider.Pool :=
  {[ "SOL/USDC" :=
       RaydiumMarketProvider.mkPool "sol-usdc-pool"
         "8HoQnePLqPj4M7PUDzfw8e3Ymdwgc7NLGnaTUapubyvu"
         "HLmqeL62xR1QoZ1HKKbXRrdN1p3phKpxRMb2VVopvBBz"
         "8VwFULQRPoUPgwDgRjGNN7gXcwYvxJAcwE1yf6dQVPY7" ]}.

Definition orcaPools : list string := ["SOL/USDC"; "BTC/USDC"; "ETH/USDC"].

(** Two draws that put Raydium's pool price at 1, and Orca's pool at the
    same price. *)
Definition raydiumAnswer : option Collector.Price :=
  RaydiumMarketProvider.getPrice raydiumPools (311 # 1000) (327 # 1000)
    1000 "SOL/USDC".

Definition orcaAnswer : option Collector.Price :=
  OrcaMarketProvider.getPrice orcaPools 1 5000000 1000 "SOL/USDC".

Definition raydiumQuote : Collector.Price :=
  Eval vm_compute in default (Collector.mkPrice 0 0 None 0) raydiumAnswer.

Definition orcaQuote : Collector.Price :=
  Eval vm_compute in default (Collector.mkPrice 0 0 None 0) orcaAnswer.

Definition raydiumPrice : Q :=
  Eval vm_compute in default 0%Q (Collector.last raydiumQuote).

Definition orcaPrice : Q :=
  Eval vm_compute in default 0%Q (Collector.last orcaQuote).

End ProviderExample.


(** ** What one delivery of opportunities may start *)

Module DetectorRun.
Import Arbitrage.

(** Between [w0] and [w] at most one execution was started: either the
    pending executions, the counter and the time of the last execution are
    those of [w0], or one execution was added, at a clock read made since
    [w0]. *)
Definition atMostOneStarted (clock : nat -> Z) (w0 w : World) : Prop :=
  config (detector w) = config (detector w0)
  /\ (reads w0 <= reads w)%nat
  /\ ((timers w = timers w0
       /\ activeExecutions (detector w) = activeExecutions (detector w0)
       /\ lastExecutionTime (detector w) = lastExecutionTime (detector w0))
      \/ exists ref k,
           timers w = timers w0 ++ [ref]
           /\ activeExecutions (detector w)
              = activeExecutions (detector w0) + 1
           /\ lastExecutionTime (detector w) = clock k
           /\ (reads w0 <= k < reads w)%nat).

(** The age limit of [cleanupOldOpportunities]. *)
Definition maxAge : Z := 5 * 60 * 1000.

End DetectorRun.


(** A detector with five slots, two opportunities found a second apart, and
    an opportunity found at time 0 that is delivered 400 seconds later. *)
Module DetectorExample.
Import Arbitrage.
Local Open Scope string_scope.

Definition roomy : World :=
  setDetector
    (mkDetector (mkDetectorConfig (1 # 2) (3 # 10) 1000 5 2000 (3 # 2))
                true ∅ 0 0)
    ArbitrageExample.world0.

Definition twoOpportunities : list Analyzer.ArbitrageOpportunity :=
  [AnalyzerExample.opportunity0 10000; AnalyzerExample.opportunity0 9000].

Definition lateClock : nat -> Z := fun _ => 400000.

Definition old0 : Analyzer.ArbitrageOpportunity :=
  AnalyzerExample.opportunity0 0.

Definition oldExecuting0 : ExecutableArbitrageOpportunity :=
  mkExecutable old0 "Raydium-Serum-SOL/USDC-buy-0" executing
               (Some 400000) None None None.

End DetectorExample.


(** ** manager.ts: how [ArbitrageManager] wires the detector and the strategy *)

Module Manager.
Import Arbitrage.

(** [x || d] on an optional number: [undefined] and [0] are falsy. *)
Definition orQ (x : option Q) (d : Q) : Q :=
  match x with
  | Some v => if Qeq_bool v 0 then d else v
  | None => d
  end.

Definition orZ (x : option Z) (d : Z) : Z :=
  match x with
  | Some 0 | None => d
  | Some v => v
  end.

Definition noDetectorConfig : PartialDetectorConfig :=
  mkPartialDetectorConfig None None None None None None.

Definition noStrategyConfig : PartialStrategyConfig :=
  mkPartialStrategyConfig None None None None None None
                          None None None None None None.

(** The setters of the market monitor, which pass the value on to the
    analyzer. *)
Definition setMinProfitThreshold (v : Q) (a : Analyzer.MarketAnalyzer) :=
  Analyzer.mkAnalyzer v (Analyzer.maxSlippage a) (Analyzer.tradeSizeUsd a)
                      (Analyzer.gasCostSol a) (Analyzer.solPriceUsd a).

Definition setMaxSlippage (v : Q) (a : Analyzer.MarketAnalyzer) :=
  Analyzer.mkAnalyzer (Analyzer.minProfitThreshold a) v
                      (Analyzer.tradeSizeUsd a)
                      (Analyzer.gasCostSol a) (Analyzer.solPriceUsd a).

Definition setTradeSize (v : Q) (a : Analyzer.MarketAnalyzer) :=
  Analyzer.mkAnalyzer (Analyzer.minProfitThreshold a) (Analyzer.maxSlippage a)
                      v (Analyzer.gasCostSol a) (Analyzer.solPriceUsd a).

(** The constructor of [ArbitrageDetector]: the detector and the analyzer
    it has updated. *)
Definition newDetector (partial : PartialDetectorConfig)
    (a : Analyzer.MarketAnalyzer)
    : ArbitrageDetector * Analyzer.MarketAnalyzer :=
  let cfg :=
    {| minProfitThreshold := orQ (p_minProfitThreshold partial) (1 # 2);
       maxSlippage := orQ (p_maxSlippage partial) (3 # 10);
       tradeSizeUsd := orQ (p_tradeSizeUsd partial) 1000;
       maxConcurrentTrades := orZ (p_maxConcurrentTrades partial) 1;
       cooldownMs := orZ (p_cooldownMs partial) 2000;
       gasMultiplier := orQ (p_gasMultiplier partial) (3 # 2) |} in
  (mkDetector cfg false ∅ 0 0,
   setTradeSize (tradeSizeUsd cfg)
     (setMaxSlippage (maxSlippage cfg)
        (setMinProfitThreshold (minProfitThreshold cfg) a))).

(** [ArbitrageDetector.updateConfig]: the keys present replace the
    detector's, and three of them are passed on to the analyzer. *)
Definition updateConfig (partial : PartialDetectorConfig)
    (d : ArbitrageDetector) (a : Analyzer.MarketAnalyzer)
    : ArbitrageDetector * Analyzer.MarketAnalyzer :=
  let cfg := mergeDetectorConfig partial (config d) in
  let a1 := match p_minProfitThreshold partial with
            | Some v => setMinProfitThreshold v a
            | None => a
            end in
  let a2 := match p_maxSlippage partial with
            | Some v => setMaxSlippage v a1
            | None => a1
            end in
  let a3 := match p_tradeSizeUsd partial with
            | Some v => setTradeSize v a2
            | None => a2
            end in
  (mkDetector cfg (isRunning d) (detectedOpportunities d)
              (lastExecutionTime d) (activeExecutions d), a3).

(** The configuration the constructor of [ArbitrageStrategy] settles on; an
    array, also an empty one, is truthy. *)
Definition strategyDefaults (partial : PartialStrategyConfig)
    : ArbitrageStrategyConfig :=
  {| s_minProfitThreshold := orQ (ps_minProfitThreshold partial) (1 # 2);
     s_maxSlippage := orQ (ps_maxSlippage partial) (3 # 10);
     s_tradeSizeUsd := orQ (ps_tradeSizeUsd partial) 1000;
     s_maxConcurrentTrades := orZ (ps_maxConcurrentTrades partial) 1;
     s_cooldownMs := orZ (ps_cooldownMs partial) 2000;
     s_gasMultiplier := orQ (ps_gasMultiplier partial) (3 # 2);
     prioritizePairs := Some (default [] (ps_prioritizePairs partial));
     blacklistPairs := Some (default [] (ps_blacklistPairs partial));
     prioritizeDexes := Some (default [] (ps_prioritizeDexes partial));
     blacklistDexes := Some (default [] (ps_blacklistDexes partial));
     minTradeIntervalMs := orZ (ps_minTradeIntervalMs partial) 5000;
     maxDailyTrades := orZ (ps_maxDailyTrades partial) 100 |}.

(** The constructor of [ArbitrageManager]: the detector is constructed from
    [config.detector], then the strategy from [config.strategy]; the
    strategy's constructor updates the detector with its own settings and
    sets the daily reset time.  [t] is the number of clock reads made
    before.  Returns the world of the two and the analyzer. *)
Definition newManager (clock : nat -> Z) (t : nat)
    (detectorConfig : option PartialDetectorConfig)
    (strategyConfig : option PartialStrategyConfig)
    (a : Analyzer.MarketAnalyzer) : World * Analyzer.MarketAnalyzer :=
  let '(d, a1) := newDetector (default noDetectorConfig detectorConfig) a in
  let cfg := strategyDefaults (default noStrategyConfig strategyConfig) in
  let '(d', a2) :=
    updateConfig
      (mkPartialDetectorConfig
         (Some (s_minProfitThreshold cfg)) (Some (s_maxSlippage cfg))
         (Some (s_tradeSizeUsd cfg)) (Some (s_maxConcurrentTrades cfg))
         (Some (s_cooldownMs cfg)) (Some (s_gasMultiplier cfg)))
      d a1 in
  ((resetDailyTradeCount clock (mkWorld d' (mkStrategy cfg 0 0 0) [] t [])).2,
   a2).

End Manager.

(** * Properties *)

(** ** Numbers *)

Lemma Qltb_lt (x y : Q) : Qltb x y = true <-> (x < y)%Q.
Proof.
  unfold Qltb. rewrite negb_true_iff. split.
  - intros H. apply Qnot_le_lt. intros Hle.
    apply Qle_bool_iff in Hle. congruence.
  - intros H. destruct (Qle_bool y x) eqn:E; [|reflexivity].
    apply Qle_bool_iff in E. exfalso. exact (Qlt_not_le _ _ H E).
Qed.

(** ** The market analyzer *)

Section AnalyzerProperties.
Import Analyzer.

Variable self : MarketAnalyzer.
Variable clock : nat -> Z.

Lemma contributions_app cmps1 cmps2 t :
  contributions self clock (cmps1 ++ cmps2) t
  = contributions self clock cmps1 t
    ++ contributions self clock cmps2 (t + length cmps1).
Proof.
  revert t. induction cmps1 as [|[[p a] b] cmps1 IH]; intros t; simpl.
  - by rewrite Nat.add_0_r.
  - rewrite IH, <- app_assoc. do 3 f_equal. lia.
Qed.

Lemma innerLoop_spec pairName dexA rest t :
  innerLoop self clock pairName dexA rest t
  = (contributions self clock (map (fun dexB => (pairName, dexA, dexB)) rest) t,
     (t + length rest)%nat).
Proof.
  revert t. induction rest as [|dexB rest IH]; intros t; simpl.
  - by rewrite Nat.add_0_r.
  - rewrite IH. f_equal. lia.
Qed.

Lemma outerLoop_spec pairName arr t :
  outerLoop self clock pairName arr t
  = (contributions self clock (pairsOf pairName arr) t,
     (t + length (pairsOf pairName arr))%nat).
Proof.
  revert t. induction arr as [|dexA rest IH]; intros t; simpl.
  - by rewrite Nat.add_0_r.
  - rewrite innerLoop_spec, IH, contributions_app.
    rewrite length_app, !length_map. f_equal. lia.
Qed.

Lemma pairsOf_short pairName (arr : list PriceData) :
  (length arr < 2)%nat -> pairsOf pairName arr = [].
Proof. destruct arr as [|a [|b arr]]; simpl; intros H; [done | done | lia]. Qed.

Lemma scan_spec md t :
  scan self clock md t
  = (contributions self clock (comparisons md) t,
     (t + length (comparisons md))%nat).
Proof.
  revert t. induction md as [|[p arr] md IH]; intros t.
  - simpl. by rewrite Nat.add_0_r.
  - unfold comparisons in *. simpl.
    rewrite contributions_app, length_app.
    destruct (length arr <? 2)%nat eqn:E.
    + apply Nat.ltb_lt in E. rewrite (pairsOf_short _ _ E). simpl.
      rewrite IH, !Nat.add_0_r. reflexivity.
    + rewrite outerLoop_spec, IH. f_equal. lia.
Qed.

Lemma elem_of_contributions o cmps t :
  o ∈ contributions self clock cmps t <->
  exists n p a b, cmps !! n = Some (p, a, b)
                  /\ o ∈ comparePair self p (clock (t + n)%nat) a b.
Proof.
  revert t. induction cmps as [|[[p a] b] cmps IH]; intros t; simpl.
  - split; [by intros ?%elem_of_nil | by intros (n & ? & ? & ? & ? & _)].
  - rewrite elem_of_app, IH. split.
    + intros [H | (n & p' & a' & b' & Hn & H)].
      * exists 0%nat, p, a, b. by rewrite Nat.add_0_r.
      * exists (S n), p', a', b'. split; [done|].
        by replace (t + S n)%nat with (S t + n)%nat by lia.
    + intros ([|n] & p' & a' & b' & Hn & H); simpl in Hn.
      * left. inversion Hn; subst. by rewrite Nat.add_0_r in H.
      * right. exists n, p', a', b'. split; [done|].
        by replace (S t + n)%nat with (t + S n)%nat by lia.
Qed.

(** [pairsOf] lists exactly the index pairs [i < j] of the array. *)
Lemma elem_of_pairsOf p' a b pairName (arr : list PriceData) :
  (p', a, b) ∈ pairsOf pairName arr <->
  p' = pairName /\ exists i j, (i < j)%nat /\ arr !! i = Some a /\ arr !! j = Some b.
Proof.
  induction arr as [|x rest IH]; simpl.
  - split; [by intros ?%elem_of_nil | by intros (_ & i & j & _ & ? & _)].
  - rewrite elem_of_app, list_elem_of_fmap, IH. split.
    + intros [(y & Heq & Hy) | (-> & i & j & Hlt & Hi & Hj)].
      * inversion Heq; subst. split; [done|].
        apply list_elem_of_lookup in Hy as [k Hk].
        exists 0%nat, (S k). split; [lia | by split].
      * split; [done|]. exists (S i), (S j). split; [lia | by split].
    + intros (-> & [|i] & j & Hlt & Hi & Hj).
      * left. destruct j as [|j]; [lia|]. simpl in *. inversion Hi; subst.
        exists b. split; [done|]. apply list_elem_of_lookup. eauto.
      * right. split; [done|]. destruct j as [|j]; [lia|].
        exists i, j. split; [lia | by split].
Qed.

(** [comparisons] lists, for every entry of the map, the index pairs
    [i < j] of its array. *)
Lemma elem_of_comparisons p a b (md : MarketData) :
  (p, a, b) ∈ comparisons md <->
  exists arr i j, (p, arr) ∈ md /\ (i < j)%nat
                  /\ arr !! i = Some a /\ arr !! j = Some b.
Proof.
  unfold comparisons. induction md as [|[p' arr'] md IH]; simpl.
  - split; [by intros ?%elem_of_nil | by intros (? & ? & ? & ?%elem_of_nil & _)].
  - rewrite elem_of_app, IH, elem_of_pairsOf. split.
    + intros [(-> & i & j & ? & ? & ?) | (arr & i & j & ? & ?)].
      * exists arr', i, j. split; [by left | done].
      * exists arr, i, j. split; [by right | done].
    + intros (arr & i & j & [Heq | ?]%elem_of_cons & ?).
      * inversion Heq; subst. left. split; [done|]. by exists i, j.
      * right. by exists arr, i, j.
Qed.

Lemma insertDesc_perm o l : insertDesc o l ≡ₚ o :: l.
Proof.
  induction l as [|x l IH]; simpl; [done|].
  destruct (Qle_bool _ _); [done|]. by rewrite IH, Permutation_swap.
Qed.

Lemma sortDesc_perm l : sortDesc l ≡ₚ l.
Proof.
  induction l as [|x l IH]; simpl; [done|].
  by rewrite insertDesc_perm, IH.
Qed.

Lemma elem_of_findArbitrageOpportunities o t md :
  o ∈ (findArbitrageOpportunities self clock t md).1 <->
  exists n p a b, comparisons md !! n = Some (p, a, b)
                  /\ o ∈ comparePair self p (clock (t + n)%nat) a b.
Proof.
  unfold findArbitrageOpportunities. rewrite scan_spec. simpl.
  rewrite sortDesc_perm. apply elem_of_contributions.
Qed.

(** What one comparison can push. *)
Lemma elem_of_comparePair o p now a b :
  o ∈ comparePair self p now a b ->
  stale now a = false /\ stale now b = false
  /\ direction o = buy /\ timestamp o = now /\ pair o = p
  /\ ((sourceDex o = pd_dex a /\ targetDex o = pd_dex b)
      \/ (sourceDex o = pd_dex b /\ targetDex o = pd_dex a)).
Proof.
  unfold comparePair, buyBlock, sellBlock.
  destruct (stale now a); [by intros ?%elem_of_nil|].
  destruct (stale now b); [by intros ?%elem_of_nil|]. simpl.
  intros [H | H]%elem_of_app.
  - destruct (Qltb _ _); [|by apply elem_of_nil in H].
    destruct (_ && _); [|by apply elem_of_nil in H].
    apply list_elem_of_singleton in H as ->. simpl. tauto.
  - destruct (Qltb _ _); [|by apply elem_of_nil in H].
    destruct (_ && _); [|by apply elem_of_nil in H].
    apply list_elem_of_singleton in H as ->. simpl. tauto.
Qed.

(** C8.  A pair of venues one of whose quotes is older than 30 seconds at the
    clock read of its comparison pushes nothing, whatever the prices are; and
    every opportunity that [findArbitrageOpportunities] returns comes from two
    quotes [a], [b] of one array (at indices [i < j]) that are both at most
    30 seconds old at the opportunity's detection time, which is a clock read
    made during the call. *)
Theorem stale_quotes_yield_no_opportunity t (md : MarketData) :
  (forall p now a b,
      30000 < now - pd_timestamp a \/ 30000 < now - pd_timestamp b ->
      comparePair self p now a b = [])
  /\ (forall o,
        o ∈ (findArbitrageOpportunities self clock t md).1 ->
        exists arr i j a b,
          (pair o, arr) ∈ md /\ (i < j)%nat
          /\ arr !! i = Some a /\ arr !! j = Some b
          /\ ((sourceDex o = pd_dex a /\ targetDex o = pd_dex b)
              \/ (sourceDex o = pd_dex b /\ targetDex o = pd_dex a))
          /\ (exists n, (n < length (comparisons md))%nat
                        /\ timestamp o = clock (t + n)%nat)
          /\ timestamp o - pd_timestamp a <= 30000
          /\ timestamp o - pd_timestamp b <= 30000).
Proof.
  split.
  - intros p now a b H. unfold comparePair, stale.
    destruct H as [H | H]; apply Z.ltb_lt in H; rewrite H;
      [done | by rewrite orb_true_r].
  - intros o (n & p & a & b & Hn & Ho)%elem_of_findArbitrageOpportunities.
    apply elem_of_comparePair in Ho as (Ha & Hb & _ & Hts & Hp & Hdex).
    assert (Hin : (p, a, b) ∈ comparisons md)
      by (apply list_elem_of_lookup; eauto).
    apply elem_of_comparisons in Hin as (arr & i & j & Harr & Hlt & Hi & Hj).
    exists arr, i, j, a, b. subst p.
    unfold stale in Ha, Hb. apply Z.ltb_ge in Ha, Hb. rewrite Hts.
    repeat (split; [done|]). split; [|done].
    exists n. split; [|done]. by apply lookup_lt_Some in Hn.
Qed.

(** Nothing the analyzer returns has direction [sell]. *)
Lemma direction_always_buy o t (md : MarketData) :
  o ∈ (findArbitrageOpportunities self clock t md).1 -> direction o = buy.
Proof.
  intros (n & p & a & b & _ & Ho)%elem_of_findArbitrageOpportunities.
  by apply elem_of_comparePair in Ho as (_ & _ & ? & _).
Qed.

(** C2, amended.  When the [n]-th comparison is of venues [a] (index [i]) and
    [b] (index [j]), both quotes are fresh at its clock read, [a.bid > b.ask]
    and the profit-percentage and estimated-profit gates pass, the returned
    list has an opportunity for the pair with the venues exchanged (source
    [b], target [a], bought at [b.ask] and sold at [a.bid]) whose direction is
    [buy]; and no returned opportunity has direction [sell]. *)
Theorem reverse_spread_is_reported_as_buy t (md : MarketData) n p a b :
  comparisons md !! n = Some (p, a, b) ->
  clock (t + n)%nat - pd_timestamp a <= 30000 ->
  clock (t + n)%nat - pd_timestamp b <= 30000 ->
  (pd_ask b < pd_bid a)%Q ->
  (minProfitThreshold self <= (pd_bid a - pd_ask b) / pd_ask b * 100)%Q ->
  (0 < (pd_bid a - pd_ask b) * (tradeSizeUsd self / pd_ask b) - gasCostUsd self)%Q ->
  (exists o,
      o ∈ (findArbitrageOpportunities self clock t md).1
      /\ sourceDex o = pd_dex b /\ targetDex o = pd_dex a /\ pair o = p
      /\ sourcePrice o = pd_ask b /\ targetPrice o = pd_bid a
      /\ timestamp o = clock (t + n)%nat
      /\ direction o = buy)
  /\ (forall o, o ∈ (findArbitrageOpportunities self clock t md).1 ->
                direction o <> sell).
Proof.
  intros Hn Ha Hb Hspread Hpct Hest. split.
  - eexists. split.
    + apply elem_of_findArbitrageOpportunities. exists n, p, a, b.
      split; [done|]. unfold comparePair, stale.
      apply Z.ltb_ge in Ha, Hb. rewrite Ha, Hb. simpl.
      apply elem_of_app. right. unfold sellBlock.
      apply Qltb_lt in Hspread, Hest. apply Qle_bool_iff in Hpct.
      rewrite Hspread, Hpct, Hest. simpl. apply list_elem_of_here.
    + simpl. done.
  - intros o Ho. by rewrite (direction_always_buy _ _ _ Ho).
Qed.

End AnalyzerProperties.

Lemma stale_quotes_yield_no_opportunity_witness :
  let self := AnalyzerExample.analyzer0 in
  let md := AnalyzerExample.marketData0 in
  let a := AnalyzerExample.serumQuote in
  let b := AnalyzerExample.raydiumQuote in
  let o := AnalyzerExample.opportunity0 1000 in
  Analyzer.comparePair self "SOL/USDC" 40000 a b = []
  /\ exists arr i j a b,
      (Analyzer.pair o, arr) ∈ md /\ (i < j)%nat
      /\ arr !! i = Some a /\ arr !! j = Some b
      /\ ((Analyzer.sourceDex o = Analyzer.pd_dex a
           /\ Analyzer.targetDex o = Analyzer.pd_dex b)
          \/ (Analyzer.sourceDex o = Analyzer.pd_dex b
              /\ Analyzer.targetDex o = Analyzer.pd_dex a))
      /\ (exists n, (n < length (Analyzer.comparisons md))%nat
                    /\ Analyzer.timestamp o = 1000)
      /\ Analyzer.timestamp o - Analyzer.pd_timestamp a <= 30000
      /\ Analyzer.timestamp o - Analyzer.pd_timestamp b <= 30000.
Proof.
  intros self md a b o.
  destruct (stale_quotes_yield_no_opportunity self (fun _ => 1000) 0%nat md)
    as [Hstale Hfresh].
  split.
  - apply Hstale. left. reflexivity.
  - apply (Hfresh o). vm_compute. apply list_elem_of_here.
Defined.

Lemma reverse_spread_is_reported_as_buy_witness :
  let self := AnalyzerExample.analyzer0 in
  let md := AnalyzerExample.marketData0 in
  let clock := fun _ : nat => 1000 in
  (exists o,
      o ∈ (Analyzer.findArbitrageOpportunities self clock 0 md).1
      /\ Analyzer.sourceDex o = "Raydium"%string
      /\ Analyzer.targetDex o = "Serum"%string
      /\ Analyzer.pair o = "SOL/USDC"%string
      /\ Analyzer.sourcePrice o = 100%Q /\ Analyzer.targetPrice o = 101%Q
      /\ Analyzer.timestamp o = 1000
      /\ Analyzer.direction o = Analyzer.buy)
  /\ (forall o, o ∈ (Analyzer.findArbitrageOpportunities self clock 0 md).1 ->
                Analyzer.direction o <> Analyzer.sell).
Proof.
  intros self md clock.
  apply (reverse_spread_is_reported_as_buy self clock 0%nat md 0%nat
           "SOL/USDC"%string
           AnalyzerExample.serumQuote AnalyzerExample.raydiumQuote).
  - reflexivity.
  - vm_compute. discriminate.
  - vm_compute. discriminate.
  - reflexivity.
  - vm_compute. discriminate.
  - reflexivity.
Defined.

(** C2, as stated, fails: Serum's bid 101 exceeds Raydium's ask 100, both
    quotes are fresh and both gates pass (1% against 0.5%, 9.85 USD after
    gas), yet nothing returned has direction [sell]. *)
Lemma direction_sell_counterexample :
  let self := AnalyzerExample.analyzer0 in
  let a := AnalyzerExample.serumQuote in
  let b := AnalyzerExample.raydiumQuote in
  let result :=
    (Analyzer.findArbitrageOpportunities self (fun _ => 1000) 0
       AnalyzerExample.marketData0).1 in
  Analyzer.comparisons AnalyzerExample.marketData0 !! 0%nat
    = Some ("SOL/USDC"%string, a, b)
  /\ 1000 - Analyzer.pd_timestamp a <= 30000
  /\ 1000 - Analyzer.pd_timestamp b <= 30000
  /\ (Analyzer.pd_ask b < Analyzer.pd_bid a)%Q
  /\ (Analyzer.minProfitThreshold self
      <= (Analyzer.pd_bid a - Analyzer.pd_ask b) / Analyzer.pd_ask b * 100)%Q
  /\ (0 < (Analyzer.pd_bid a - Analyzer.pd_ask b)
          * (Analyzer.tradeSizeUsd self / Analyzer.pd_ask b)
          - Analyzer.gasCostUsd self)%Q
  /\ result = [AnalyzerExample.opportunity0 1000]
  /\ ~ (exists o, o ∈ result /\ Analyzer.direction o = Analyzer.sell).
Proof.
  intros self a b result.
  repeat (split; [first [reflexivity | by vm_compute]|]).
  intros (o & Ho & Hsell).
  apply direction_always_buy in Ho. congruence.
Qed.

(** ** Detection and the clock *)

Lemma contributions_ext self clock1 clock2 cmps t1 t2 :
  (forall n, (n < length cmps)%nat -> clock1 (t1 + n)%nat = clock2 (t2 + n)%nat) ->
  Analyzer.contributions self clock1 cmps t1
  = Analyzer.contributions self clock2 cmps t2.
Proof.
  revert t1 t2. induction cmps as [|[[p a] b] cmps IH]; intros t1 t2 H; simpl.
  - reflexivity.
  - f_equal.
    + specialize (H 0%nat). rewrite !Nat.add_0_r in H.
      rewrite H; [reflexivity | simpl; lia].
    + apply IH. intros n Hn. specialize (H (S n)).
      replace (S t1 + n)%nat with (t1 + S n)%nat by lia.
      replace (S t2 + n)%nat with (t2 + S n)%nat by lia.
      apply H. simpl. lia.
Qed.

(** C5, amended.  [findArbitrageOpportunities] reads the clock once for every
    comparison it makes and nothing else of its environment: two calls on the
    same market data by analyzers with the same settings return the same list
    whenever the clock reads they make return the same values. *)
Theorem detection_is_a_function_of_data_settings_and_clock
    self clock1 clock2 t1 t2 (md : Analyzer.MarketData) :
  (forall n, (n < length (Analyzer.comparisons md))%nat ->
             clock1 (t1 + n)%nat = clock2 (t2 + n)%nat) ->
  (Analyzer.findArbitrageOpportunities self clock1 t1 md).1
  = (Analyzer.findArbitrageOpportunities self clock2 t2 md).1
  /\ (Analyzer.findArbitrageOpportunities self clock1 t1 md).2
     = (t1 + length (Analyzer.comparisons md))%nat.
Proof.
  intros H. unfold Analyzer.findArbitrageOpportunities.
  rewrite !scan_spec. simpl. split; [|reflexivity].
  f_equal. by apply contributions_ext.
Qed.

Lemma detection_is_a_function_of_data_settings_and_clock_witness :
  let self := AnalyzerExample.analyzer0 in
  let md := AnalyzerExample.marketData0 in
  let clock1 := fun _ : nat => 1000 in
  let clock2 := fun n : nat => if (n <? 5)%nat then 0 else 1000 in
  (Analyzer.findArbitrageOpportunities self clock1 0 md).1
  = (Analyzer.findArbitrageOpportunities self clock2 5 md).1
  /\ (Analyzer.findArbitrageOpportunities self clock1 0 md).2 = 1%nat.
Proof.
  intros self md clock1 clock2.
  apply (detection_is_a_function_of_data_settings_and_clock
           self clock1 clock2 0%nat 5%nat md).
  intros n Hn. simpl in Hn.
  assert (n = 0%nat) as -> by lia. reflexivity.
Defined.

(** C5, as stated, fails: on the same market data and settings a call made
    at time 1000 returns an opportunity stamped 1000, a call made at time
    2000 returns it stamped 2000, and a call made at time 40000 finds the
    quotes stale and returns nothing. *)
Lemma detection_depends_on_clock_counterexample :
  let self := AnalyzerExample.analyzer0 in
  let md := AnalyzerExample.marketData0 in
  (Analyzer.findArbitrageOpportunities self (fun _ => 1000) 0 md).1
    = [AnalyzerExample.opportunity0 1000]
  /\ (Analyzer.findArbitrageOpportunities self (fun _ => 2000) 0 md).1
    = [AnalyzerExample.opportunity0 2000]
  /\ (Analyzer.findArbitrageOpportunities self (fun _ => 40000) 0 md).1 = []
  /\ (Analyzer.findArbitrageOpportunities self (fun _ => 1000) 0 md).1
     <> (Analyzer.findArbitrageOpportunities self (fun _ => 2000) 0 md).1
  /\ (Analyzer.findArbitrageOpportunities self (fun _ => 1000) 0 md).1
     <> (Analyzer.findArbitrageOpportunities self (fun _ => 40000) 0 md).1.
Proof.
  intros self md.
  assert (H1 : (Analyzer.findArbitrageOpportunities self (fun _ => 1000) 0 md).1
               = [AnalyzerExample.opportunity0 1000]) by reflexivity.
  assert (H2 : (Analyzer.findArbitrageOpportunities self (fun _ => 2000) 0 md).1
               = [AnalyzerExample.opportunity0 2000]) by reflexivity.
  assert (H3 : (Analyzer.findArbitrageOpportunities self (fun _ => 40000) 0 md).1
               = []) by reflexivity.
  rewrite H1, H2, H3. repeat split; discriminate.
Qed.

(** ** The market data collector *)

(** C3 fails on the code.  The map published at the end of the first cycle
    reads as the first cycle's quotes when it is published.  After the first
    [getPrice] of the second cycle has been stored, the same map reads as
    Serum's new quote next to Raydium's old one, and after the second cycle
    it reads as the second cycle's quotes: the copy made by [getPriceData]
    shares its arrays with the collector. *)
Theorem published_snapshot_changes_with_later_cycles :
  let '(c1, snapshot1) :=
    Collector.collectData CollectorExample.feed1 CollectorExample.collector0 in
  let mid :=
    Collector.collectSome CollectorExample.feed2
      (take 1 (Collector.requests c1)) c1 in
  let '(c2, snapshot2) := Collector.collectData CollectorExample.feed2 c1 in
  Collector.contents (Collector.arrays c1) snapshot1
  = [("SOL/USDC"%string,
      [CollectorExample.quote "Serum" 100 101 1000;
       CollectorExample.quote "Raydium" 99 102 1000])]
  /\ Collector.contents (Collector.arrays mid) snapshot1
    = [("SOL/USDC"%string,
        [CollectorExample.quote "Serum" 200 201 6000;
         CollectorExample.quote "Raydium" 99 102 1000])]
  /\ Collector.contents (Collector.arrays c2) snapshot1
    = [("SOL/USDC"%string,
        [CollectorExample.quote "Serum" 200 201 6000;
         CollectorExample.quote "Raydium" 199 202 6000])].
Proof. vm_compute. repeat split. Qed.

(** ** The detector and the strategy *)

Section ArbitrageProperties.
Import Arbitrage.

Variable clock : nat -> Z.

Ltac unfold_monad :=
  cbv [mbind M_bind bind mret M_ret ret get modify Date_now modifyObject
       newObject] in *.

Lemma checkTradeLimits_frame w :
  detector_side (checkTradeLimits clock w).2 = detector_side w.
Proof.
  unfold checkTradeLimits, resetDailyTradeCount. unfold_monad. simpl.
  repeat (case_match; simpl; simplify_eq; try reflexivity).
Qed.

Lemma handleOpportunity_frame o w :
  detector_side (handleOpportunity clock o w).2 = detector_side w.
Proof.
  unfold handleOpportunity.
  destruct (status o); try reflexivity.
  unfold_monad. destruct (negb _); [reflexivity|].
  pose proof (checkTradeLimits_frame w) as H.
  destruct (checkTradeLimits clock w) as [passed w'].
  simpl in H. by destruct (negb passed).
Qed.

Lemma notifyOpportunityCallbacks_frame ref w :
  detector_side (notifyOpportunityCallbacks clock ref w).2 = detector_side w.
Proof.
  unfold notifyOpportunityCallbacks. unfold_monad.
  destruct (objects w !! ref); [apply handleOpportunity_frame | reflexivity].
Qed.

Lemma executeOpportunity_side ref w :
  detector_side (executeOpportunity clock ref w).2
  = (setActiveExecutions (activeExecutions (detector w) + 1)
       (setLastExecutionTime (clock (reads w)) (detector w)),
     match objects w !! ref with
     | Some o => <[ref := started (clock (reads w)) o]> (objects w)
     | None => objects w
     end,
     timers w ++ [ref]).
Proof.
  unfold executeOpportunity. unfold_monad. simpl.
  match goal with
  | |- context [notifyOpportunityCallbacks clock ref ?w1] =>
      pose proof (notifyOpportunityCallbacks_frame ref w1) as H;
      destruct (notifyOpportunityCallbacks clock ref w1) as [u w2]
  end.
  unfold detector_side in *. simpl in *.
  injection H as Hd Ho Ht. rewrite Hd, Ho, Ht.
  by destruct (objects w !! ref).
Qed.


(** C6.  [evaluateForExecution] starts the execution of the opportunity
    behind [ref] exactly when the detector is running, fewer than
    [maxConcurrentTrades] executions are active, the cooldown has passed and
    the profit percentage reaches the threshold: then the object becomes
    [executing] and the counter goes up by one.  If any gate fails (so in
    particular when [activeExecutions = maxConcurrentTrades]) the detector,
    the objects, the pending executions and the strategy are unchanged. *)
Theorem admission_requires_every_gate w ref o :
  objects w !! ref = Some o ->
  let w' := (evaluateForExecution clock ref w).2 in
  (admissible clock w o ->
     w' = (executeOpportunity clock ref (setReads (S (reads w)) w)).2
     /\ (exists o', objects w' !! ref = Some o' /\ status o' = executing)
     /\ activeExecutions (detector w') = activeExecutions (detector w) + 1
     /\ timers w' = timers w ++ [ref])
  /\ (~ admissible clock w o ->
       detector w' = detector w /\ objects w' = objects w
       /\ timers w' = timers w /\ strategy w' = strategy w)
  /\ (activeExecutions (detector w) = maxConcurrentTrades (config (detector w)) ->
       ~ admissible clock w o).
Proof.
  intros Ho w'. subst w'. unfold admissible, evaluateForExecution.
  unfold_monad. rewrite Ho.
  destruct (isRunning (detector w)); simpl;
    [|split; [intros (? & _); done | split; [done | intros ? (? & _); done]]].
  destruct (Z.leb_spec (maxConcurrentTrades (config (detector w)))
                       (activeExecutions (detector w))) as [Hmax | Hmax];
    [split; [intros (_ & ? & _); lia
            | split; [done | intros ? (_ & ? & _); lia]]|].
  destruct (Z.ltb_spec (clock (reads w) - lastExecutionTime (detector w))
                       (cooldownMs (config (detector w)))) as [Hcool | Hcool];
    [split; [intros (_ & _ & ? & _); lia
            | split; [done | intros ? (_ & ? & _); lia]]|].
  destruct (Qltb _ _) eqn:Hprofit.
  - apply Qltb_lt in Hprofit.
    split; [intros (_ & _ & _ & Hle); by apply Qle_not_lt in Hle|].
    split; [done | intros ? (_ & ? & _); lia].
  - split; [|split; [|intros ? (_ & ? & _); lia]].
    + intros _. split; [reflexivity|].
      pose proof (executeOpportunity_side ref (setReads (S (reads w)) w)) as H.
      destruct (executeOpportunity clock ref _) as [u w1].
      unfold detector_side in H. simpl in *. rewrite Ho in H.
      injection H as Hd Hobj Ht. rewrite Hd, Hobj, Ht. simpl.
      split; [|done]. eexists. split.
      * apply list_lookup_insert_eq. by eapply lookup_lt_Some.
      * done.
    + intros Hn. exfalso. apply Hn. repeat split; [lia | lia |].
      apply Qnot_lt_le. intros Hlt. apply Qltb_lt in Hlt. congruence.
Qed.

Lemma grows_refl bound w : grows bound w w.
Proof. unfold grows. naive_solver. Qed.

Lemma grows_trans bound w1 w2 w3 :
  grows bound w1 w2 -> grows bound w2 w3 -> grows bound w1 w3.
Proof.
  unfold grows.
  intros (Hc1 & Hr1 & Hs1 & Hl1 & Ho1 & Ht1 & Hk1)
         (Hc2 & Hr2 & Hs2 & Hl2 & Ho2 & Ht2 & Hk2).
  split_and!; [congruence | congruence | tauto | lia | | auto | tauto].
  intros ref Hr. rewrite Ho2, Ho1; done.
Qed.

Lemma evaluateForExecution_cases ref w :
  let w' := (evaluateForExecution clock ref w).2 in
  detector_side w' = detector_side w
  \/ (activeExecutions (detector w) < maxConcurrentTrades (config (detector w))
      /\ detector_side w'
         = (setActiveExecutions (activeExecutions (detector w) + 1)
              (setLastExecutionTime (clock (S (reads w))) (detector w)),
            match objects w !! ref with
            | Some o => <[ref := started (clock (S (reads w))) o]> (objects w)
            | None => objects w
            end,
            timers w ++ [ref])).
Proof.
  unfold evaluateForExecution. unfold_monad.
  destruct (negb _); [by left|].
  destruct (Z.leb_spec (maxConcurrentTrades (config (detector w)))
                       (activeExecutions (detector w))); [by left|].
  destruct (_ <? _); [by left|].
  destruct (objects w !! ref) as [o|] eqn:Ho; [|by left].
  destruct (Qltb _ _); [by left|]. right. split; [done|].
  rewrite executeOpportunity_side. simpl. by rewrite Ho.
Qed.

Lemma evaluateForExecution_grows ref w :
  grows ref w (evaluateForExecution clock ref w).2.
Proof.
  destruct (evaluateForExecution_cases ref w) as [H | [Hlt H]];
    destruct (evaluateForExecution clock ref w) as [u w'];
    unfold detector_side in H; simpl in *; injection H as Hd Ho Ht;
    unfold grows, slots_ok, table_ok; rewrite Hd, Ho, Ht; simpl.
  - naive_solver.
  - split_and!; try done.
    + intros [Ha Hm]. split; [|lia]. rewrite length_app. simpl. lia.
    + destruct (objects w !! ref); [by rewrite length_insert | done].
    + intros r Hr. destruct (objects w !! ref); [|done].
      apply list_lookup_insert_ne. lia.
    + intros Hok id' r Hid. specialize (Hok id' r Hid).
      destruct (objects w !! ref); [by rewrite length_insert | done].
Qed.

Lemma ingestOne_seen opp w ref :
  detectedOpportunities (detector w) !! generateOpportunityId opp = Some ref ->
  ingestOne clock opp w = (tt, w).
Proof. intros H. unfold ingestOne. unfold_monad. by rewrite H. Qed.

Lemma ingestOne_grows opp w :
  grows (length (objects w)) w (ingestOne clock opp w).2
  /\ is_Some (detectedOpportunities (detector (ingestOne clock opp w).2)
              !! generateOpportunityId opp).
Proof.
  unfold ingestOne. unfold_monad.
  destruct (detectedOpportunities (detector w) !! generateOpportunityId opp)
    as [ref|] eqn:Hid; simpl.
  { split; [apply grows_refl | by rewrite Hid]. }
  match goal with
  | |- context [notifyOpportunityCallbacks clock ?r ?w1] =>
      pose proof (notifyOpportunityCallbacks_frame r w1) as H;
      destruct (notifyOpportunityCallbacks clock r w1) as [u w2]
  end.
  unfold detector_side in H. simpl in H. injection H as Hd Ho Ht.
  pose proof (evaluateForExecution_grows (length (objects w)) w2)
    as (Hc & Hr & Hs & Hl & Hobj & Htab & Hok).
  destruct (evaluateForExecution clock (length (objects w)) w2) as [u' w3].
  simpl in *. rewrite Hd, Ho in *. simpl in *.
  split.
  - unfold grows. split_and!; try done.
    + intros Hw. apply Hs. unfold slots_ok in *. by rewrite Hd, Ht.
    + rewrite length_app in Hl. lia.
    + intros r Hlt. rewrite Hobj by done. by apply lookup_app_l.
    + intros id' r Hid'. apply Htab.
      rewrite lookup_insert_ne; [done | congruence].
    + intros Hw. apply Hok. unfold table_ok in *. rewrite Hd, Ho. simpl.
      intros id' r. rewrite length_app. simpl.
      destruct (decide (generateOpportunityId opp = id')) as [<- | Hne].
      * rewrite lookup_insert_eq. intros [= <-]. lia.
      * rewrite lookup_insert_ne by done. intros Hid'%Hw. lia.
  - rewrite (Htab _ (length (objects w))); [done|]. apply lookup_insert_eq.
Qed.

Lemma grows_weaken bound bound' w w' :
  (bound <= bound')%nat -> grows bound' w w' -> grows bound w w'.
Proof.
  unfold grows. intros Hle (? & ? & ? & ? & Ho & ? & ?).
  split_and!; try done. intros ref Hr. apply Ho. lia.
Qed.

Lemma ingest_cons opp opps w :
  ingest clock (opp :: opps) w = ingest clock opps (ingestOne clock opp w).2.
Proof.
  unfold ingest. simpl. unfold_monad. by destruct (ingestOne clock opp w).
Qed.

Lemma ingest_grows opps w :
  grows (length (objects w)) w (ingest clock opps w).2.
Proof.
  revert w. induction opps as [|opp opps IH]; intros w.
  - apply grows_refl.
  - rewrite ingest_cons. pose proof (ingestOne_grows opp w) as [H1 _].
    destruct (ingestOne clock opp w) as [u w1]. simpl in *.
    eapply grows_trans; [exact H1|].
    eapply grows_weaken; [|apply IH]. by destruct H1 as (_ & _ & _ & ? & _).
Qed.

Lemma ingest_covers opps w opp :
  opp ∈ opps ->
  is_Some (detectedOpportunities (detector (ingest clock opps w).2)
           !! generateOpportunityId opp).
Proof.
  revert w. induction opps as [|opp' opps IH]; intros w Hin.
  - by apply elem_of_nil in Hin.
  - rewrite ingest_cons.
    pose proof (ingestOne_grows opp' w) as [_ Hsome].
    destruct (ingestOne clock opp' w) as [u w1]. simpl in *.
    apply elem_of_cons in Hin as [-> | Hin]; [|by apply IH].
    destruct Hsome as [ref Href].
    pose proof (ingest_grows opps w1) as (_ & _ & _ & _ & _ & Htab & _).
    rewrite (Htab _ _ Href). done.
Qed.

Lemma ingest_all_seen opps w :
  (forall opp, opp ∈ opps ->
     is_Some (detectedOpportunities (detector w) !! generateOpportunityId opp)) ->
  ingest clock opps w = (tt, w).
Proof.
  induction opps as [|opp opps IH]; intros H; [done|].
  rewrite ingest_cons.
  destruct (H opp) as [ref Href]; [by left|].
  rewrite (ingestOne_seen _ _ _ Href). apply IH.
  intros opp' Hin. apply H. by right.
Qed.










(** C7.  An opportunity whose id is in the table is skipped and the world is
    left as it was; so a second pass of the loop over the same list changes
    nothing; and after [handleOpportunities] has been called twice on the
    same list, every entry the first call left in the table either is still
    there or has been removed as too old, and the object it refers to,
    status included, is as the first call left it. *)
Theorem ingestion_is_first_seen_wins opps w opp w0 ref0 :
  table_ok w ->
  detectedOpportunities (detector w0) !! generateOpportunityId opp = Some ref0 ->
  ingestOne clock opp w0 = (tt, w0)
  /\ ingest clock opps (ingest clock opps w).2 = (tt, (ingest clock opps w).2)
  /\ (let w1 := (handleOpportunities clock opps w).2 in
      let w2 := (handleOpportunities clock opps w1).2 in
      forall id ref,
        detectedOpportunities (detector w1) !! id = Some ref ->
        objects w2 !! ref = objects w1 !! ref
        /\ (detectedOpportunities (detector w2) !! id = Some ref
            \/ detectedOpportunities (detector w2) !! id = None)).
Proof.
  intros Hok Hseen. split_and!.
  - by eapply ingestOne_seen.
  - apply ingest_all_seen. intros opp' Hin. by apply ingest_covers.
  - intros w1 w2 id ref Hid.
    assert (Hok1 : table_ok w1).
    { subst w1 w2. unfold handleOpportunities in *. unfold_monad.
      destruct (negb _); [done|].
      pose proof (ingest_grows opps w) as (_ & _ & _ & _ & _ & _ & Hk).
      destruct (ingest clock opps w) as [u w']. simpl in *.
      intros id' ref' H. apply map_lookup_filter_Some in H as [H _].
      by apply (Hk Hok id' ref'). }
    specialize (Hok1 id ref Hid). subst w2.
    unfold handleOpportunities. unfold_monad.
    destruct (negb _); [by split; [|left]|].
    pose proof (ingest_grows opps w1) as (_ & _ & _ & _ & Hobj & Htab & _).
    destruct (ingest clock opps w1) as [u w']. simpl in *.
    split; [by apply Hobj|].
    destruct (filter _ _ !! id) as [ref'|] eqn:E; [|by right].
    left. apply map_lookup_filter_Some in E as [E _].
    rewrite (Htab _ _ Hid) in E. congruence.
Qed.

End ArbitrageProperties.

Lemma admission_requires_every_gate_witness :
  let w := ArbitrageExample.world1 in
  let w' := (Arbitrage.evaluateForExecution ArbitrageExample.clock0 0 w).2 in
  let busy := ArbitrageExample.busy1 in
  let busy' := (Arbitrage.evaluateForExecution ArbitrageExample.clock0 0 busy).2 in
  ((exists o', Arbitrage.objects w' !! 0%nat = Some o'
               /\ Arbitrage.status o' = Arbitrage.executing)
   /\ Arbitrage.activeExecutions (Arbitrage.detector w') = 1
   /\ Arbitrage.timers w' = [0%nat])
  /\ (Arbitrage.detector busy' = Arbitrage.detector busy
      /\ Arbitrage.objects busy' = Arbitrage.objects busy
      /\ Arbitrage.timers busy' = Arbitrage.timers busy
      /\ Arbitrage.strategy busy' = Arbitrage.strategy busy).
Proof.
  intros w w' busy busy'.
  destruct (admission_requires_every_gate ArbitrageExample.clock0
              w 0%nat ArbitrageExample.pending0 eq_refl) as (Hyes & _ & _).
  destruct (admission_requires_every_gate ArbitrageExample.clock0
              busy 0%nat ArbitrageExample.pending0 eq_refl) as (_ & Hno & Hfull).
  split.
  - assert (Ha : Arbitrage.admissible ArbitrageExample.clock0 w
                  ArbitrageExample.pending0).
    { unfold Arbitrage.admissible. split_and!; [reflexivity | reflexivity | |];
        vm_compute; discriminate. }
    destruct (Hyes Ha) as (_ & Hex & Hact & Htim). exact (conj Hex (conj Hact Htim)).
  - apply Hno. apply Hfull. reflexivity.
Defined.



Lemma ingestion_is_first_seen_wins_witness :
  let clock := ArbitrageExample.clock0 in
  let opps := [ArbitrageExample.opportunity0] in
  let w := ArbitrageExample.world0 in
  let w0 := (Arbitrage.ingest clock opps w).2 in
  Arbitrage.ingestOne clock ArbitrageExample.opportunity0 w0 = (tt, w0)
  /\ Arbitrage.ingest clock opps w0 = (tt, w0)
  /\ (let w1 := (Arbitrage.handleOpportunities clock opps w).2 in
      let w2 := (Arbitrage.handleOpportunities clock opps w1).2 in
      forall id ref,
        Arbitrage.detectedOpportunities (Arbitrage.detector w1) !! id = Some ref ->
        Arbitrage.objects w2 !! ref = Arbitrage.objects w1 !! ref
        /\ (Arbitrage.detectedOpportunities (Arbitrage.detector w2) !! id = Some ref
            \/ Arbitrage.detectedOpportunities (Arbitrage.detector w2) !! id = None)).
Proof.
  intros clock opps w w0.
  apply (ingestion_is_first_seen_wins clock opps w
           ArbitrageExample.opportunity0 w0 0%nat).
  - intros id ref H. vm_compute in H. discriminate.
  - vm_compute. reflexivity.
Defined.

(** C4 fails on the code.  SOL/USDC is blacklisted and [filterOpportunity]
    rejects the opportunity, yet [handleOpportunities] leaves its object
    [executing], with the slot taken and the execution suspended on its
    timer: the detector never consults the strategy's answer. *)
Theorem blacklisted_opportunity_is_executed :
  let w := (Arbitrage.handleOpportunities ArbitrageExample.clock0
              [ArbitrageExample.opportunity0] ArbitrageExample.world0).2 in
  Arbitrage.blacklistPairs ArbitrageExample.strategyConfig0
    = Some [Analyzer.pair ArbitrageExample.opportunity0]
  /\ Arbitrage.filterOpportunity ArbitrageExample.strategyConfig0
       ArbitrageExample.pending0 = false
  /\ Arbitrage.objects w = [ArbitrageExample.executing0]
  /\ Arbitrage.activeExecutions (Arbitrage.detector w) = 1
  /\ Arbitrage.timers w = [0%nat].
Proof. vm_compute. split_and!; reflexivity. Qed.

(** ** Swaps and the two legs of an arbitrage *)

Section ExecutionProperties.
Import Execution.

Variable Net : Type.
Variable executeTransaction :
  TransactionInstruction -> Net -> TransactionResult * Net.
Variable TOKEN_PROGRAM_ID : string.
Variable clock : nat -> Z.

Abbreviation executeSwap :=
  (Execution.executeSwap executeTransaction TOKEN_PROGRAM_ID).
Abbreviation executeArbitrage :=
  (Execution.executeArbitrage executeTransaction TOKEN_PROGRAM_ID clock).

Ltac unfold_monad :=
  cbv [mbind M_bind mret M_ret Date_now recordCall submit] in *.

(** A call of [executeSwap] adds itself to the history and reads no clock;
    its result carries an output amount exactly when it reports success, and
    then it is the requested minimum times 1.01. *)
Lemma executeSwap_effect params (w : World Net) :
  let r := (executeSwap params w).1 in
  let w' := (executeSwap params w).2 in
  calls w' = calls w ++ [params]
  /\ reads w' = reads w
  /\ outputAmount r
     = if success (transactionResult r)
       then Some (minOutputAmount params * (101 # 100))%Q
       else None.
Proof.
  unfold Execution.executeSwap. unfold_monad. simpl.
  destruct (createSwapInstruction _ _) as [message | instruction]; simpl.
  - done.
  - destruct (executeTransaction instruction (net w)) as [result n]. simpl.
    destruct (success result) eqn:E; simpl; by rewrite ?E.
Qed.

(** C1, amended.  Let [r1] be what the source swap returns.  If it reports
    failure or its output amount is falsy (absent, or 0), [executeArbitrage]
    has called [executeSwap] once, for the source swap only, and returns
    failure with the source swap's result, no target swap, no profit, and as
    its error the source swap's own message (or, when it has none, the
    message that the source swap failed).  Otherwise, that is when [r1]
    reports success with an output amount that is not 0, exactly two swaps
    were called, the second being the target swap, whose input amount is
    that output amount. *)
Theorem target_swap_needs_source_output params (w : World Net) :
  let leg1 := sourceSwapParams params in
  let r1 := (executeSwap leg1 (Date_now clock w).2).1 in
  let res := (executeArbitrage params w).1 in
  let w' := (executeArbitrage params w).2 in
  (success (transactionResult r1) = false \/ truthy (outputAmount r1) = false ->
     calls w' = calls w ++ [leg1]
     /\ arbitrage_success res = false
     /\ sourceSwap res = Some r1 /\ targetSwap res = None
     /\ profit res = None
     /\ arbitrage_error res
        = Some (orElse (error (transactionResult r1))
                       "Source swap failed without specific error"))
  /\ (success (transactionResult r1) = true ->
      truthy (outputAmount r1) = true ->
      exists out1,
        outputAmount r1 = Some out1
        /\ ~ (out1 == 0)%Q
        /\ calls w' = calls w ++ [leg1; targetSwapParams params out1]
        /\ inputAmount (targetSwapParams params out1) = out1
        /\ sourceSwap res = Some r1
        /\ is_Some (targetSwap res)).
Proof.
  intros leg1 r1 res w'. subst leg1 r1 res w'.
  unfold Execution.executeArbitrage.
  pose proof (executeSwap_effect (sourceSwapParams params) (Date_now clock w).2)
    as (Hc1 & _ & _).
  cbv [mbind M_bind mret M_ret] in *.
  destruct (Date_now clock w) as [startTime w0] eqn:Hnow.
  assert (Hw0 : calls w0 = calls w) by (unfold Date_now in Hnow; by simplify_eq).
  simpl in *. destruct (executeSwap (sourceSwapParams params) w0) as [r1 w1].
  simpl in *. rewrite Hw0 in Hc1.
  destruct (negb (success (transactionResult r1)) || negb (truthy (outputAmount r1)))
    eqn:Hgate; simpl.
  - split; [done|]. intros Hs Ht. by rewrite Hs, Ht in Hgate.
  - apply orb_false_iff in Hgate as [Hs Ht].
    apply negb_false_iff in Hs, Ht.
    destruct (outputAmount r1) as [out1|] eqn:Hout; [|done]. simpl.
    pose proof (executeSwap_effect (targetSwapParams params out1) w1)
      as (Hc2 & _ & _).
    destruct (executeSwap (targetSwapParams params out1) w1) as [r2 w2].
    simpl in *. rewrite Hc1, <- app_assoc in Hc2. simpl in Hc2.
    split.
    + intros [Hf | Hn]; congruence.
    + intros _ _. exists out1. split_and!; try done.
      * apply negb_true_iff in Ht. by apply Qeq_bool_neq.
      * destruct (negb _ || negb _); simpl; exact Hc2.
      * unfold targetSwapParams. by destruct (Analyzer.direction _).
      * by destruct (negb _ || negb _).
      * by destruct (negb _ || negb _).
Qed.

End ExecutionProperties.

Lemma target_swap_needs_source_output_witness :
  let failed :=
    Execution.executeArbitrage ExecutionExample.rejects
      ExecutionExample.tokenProgram (fun _ => 10000)
      ExecutionExample.params0 ExecutionExample.world0 in
  let empty :=
    Execution.executeArbitrage ExecutionExample.confirms
      ExecutionExample.tokenProgram (fun _ => 10000)
      ExecutionExample.paramsNoMinimum ExecutionExample.world0 in
  let hedged :=
    Execution.executeArbitrage ExecutionExample.confirms
      ExecutionExample.tokenProgram (fun _ => 10000)
      ExecutionExample.params0 ExecutionExample.world0 in
  (Execution.calls failed.2
     = [Execution.sourceSwapParams ExecutionExample.params0]
   /\ Execution.arbitrage_success failed.1 = false
   /\ Execution.targetSwap failed.1 = None
   /\ Execution.arbitrage_error failed.1
      = Some "Transaction failed after 4 attempts: blockhash not found"%string)
  /\ (Execution.calls empty.2
        = [Execution.sourceSwapParams ExecutionExample.paramsNoMinimum]
      /\ Execution.arbitrage_success empty.1 = false
      /\ Execution.targetSwap empty.1 = None
      /\ Execution.arbitrage_error empty.1
         = Some "Source swap failed without specific error"%string)
  /\ length (Execution.calls hedged.2) = 2%nat.
Proof.
  intros failed empty hedged.
  destruct (target_swap_needs_source_output unit ExecutionExample.rejects
              ExecutionExample.tokenProgram (fun _ => 10000)
              ExecutionExample.params0 ExecutionExample.world0) as [H1 _].
  destruct (target_swap_needs_source_output unit ExecutionExample.confirms
              ExecutionExample.tokenProgram (fun _ => 10000)
              ExecutionExample.paramsNoMinimum ExecutionExample.world0)
    as [H2 _].
  destruct (target_swap_needs_source_output unit ExecutionExample.confirms
              ExecutionExample.tokenProgram (fun _ => 10000)
              ExecutionExample.params0 ExecutionExample.world0) as [_ H3].
  destruct H1 as (Hcalls1 & Hfail1 & _ & Htarget1 & _ & Herror1);
    [left; reflexivity|].
  destruct H2 as (Hcalls2 & Hfail2 & _ & Htarget2 & _ & Herror2);
    [right; reflexivity|].
  destruct H3 as (out1 & _ & _ & Hcalls3 & _); [reflexivity | reflexivity |].
  split; [exact (conj Hcalls1 (conj Hfail1 (conj Htarget1 Herror1)))|].
  split; [exact (conj Hcalls2 (conj Hfail2 (conj Htarget2 Herror2)))|].
  exact (f_equal length Hcalls3).
Defined.

(** The error of a failed arbitrage does not name the swap that failed: it
    is the message of the transaction executor, the same whether the
    source swap or the target swap was the one rejected. *)
Lemma error_names_no_swap_counterexample :
  let sourceFails :=
    Execution.executeArbitrage ExecutionExample.rejects
      ExecutionExample.tokenProgram (fun _ => 10000)
      ExecutionExample.params0 ExecutionExample.world0 in
  let targetFails :=
    Execution.executeArbitrage ExecutionExample.confirmsOnce
      ExecutionExample.tokenProgram (fun _ => 10000)
      ExecutionExample.params0 (Execution.mkWorld false 0%nat []) in
  Execution.targetSwap sourceFails.1 = None
  /\ is_Some (Execution.targetSwap targetFails.1)
  /\ Execution.arbitrage_error sourceFails.1
     = Some "Transaction failed after 4 attempts: blockhash not found"%string
  /\ Execution.arbitrage_error targetFails.1
     = Execution.arbitrage_error sourceFails.1.
Proof. vm_compute. split_and!; [reflexivity | by eexists | reflexivity ..]. Qed.

(** C10.  A swap that asks for a minimum output of 0 and is confirmed
    reports success with the output amount 0 times 1.01, which is the
    requested minimum itself and not above it: the estimate that the source
    comments as slightly better than the minimum is not better here.  (The
    product of 0 and 1.01 is 0 in the source's floating-point arithmetic as
    it is in exact arithmetic.) *)
Theorem confirmed_swap_at_zero_minimum_reports_no_gain :
  let r :=
    (Execution.executeSwap ExecutionExample.confirms
       ExecutionExample.tokenProgram ExecutionExample.swapParams0
       ExecutionExample.world0).1 in
  Execution.minOutputAmount ExecutionExample.swapParams0 = 0%Q
  /\ Execution.success (Execution.transactionResult r) = true
  /\ Execution.outputAmount r = Some (0 * (101 # 100))%Q
  /\ (0 * (101 # 100) == 0)%Q
  /\ ~ (exists out, Execution.outputAmount r = Some out
                    /\ (Execution.minOutputAmount ExecutionExample.swapParams0
                        < out)%Q).
Proof.
  intros r. split_and!; [reflexivity | reflexivity | reflexivity | reflexivity |].
  intros (out & Hout & Hlt). vm_compute in Hout. injection Hout as <-.
  vm_compute in Hlt. discriminate.
Qed.

(** * Further properties of the market analyzer *)

Section AnalyzerOrderProperties.
Import Analyzer AnalyzerOrder.

Lemma insertDesc_elem o x l : x ∈ insertDesc o l <-> x = o \/ x ∈ l.
Proof. by rewrite insertDesc_perm, elem_of_cons. Qed.

Lemma insertDesc_sorted o l :
  StronglySorted profit_desc l -> StronglySorted profit_desc (insertDesc o l).
Proof.
  induction 1 as [|x l Hl IH Hx]; simpl.
  - repeat constructor.
  - destruct (Qle_bool (profitPercentage x) (profitPercentage o)) eqn:E.
    + apply Qle_bool_iff in E. constructor; [by constructor|].
      constructor; [exact E|].
      eapply Forall_impl; [exact Hx|]. intros y Hy. unfold profit_desc in *.
      eapply Qle_trans; [exact Hy | exact E].
    + constructor; [exact IH|].
      apply List.Forall_forall. intros y Hy.
      apply list_elem_of_In, insertDesc_elem in Hy as [-> | Hy].
      * unfold profit_desc. apply Qlt_le_weak. apply Qnot_le_lt.
        intros Hle. apply Qle_bool_iff in Hle. congruence.
      * rewrite List.Forall_forall in Hx. apply Hx. by apply list_elem_of_In.
Qed.

Lemma sortDesc_sorted l : StronglySorted profit_desc (sortDesc l).
Proof.
  induction l as [|x l IH]; simpl; [constructor | by apply insertDesc_sorted].
Qed.

Lemma StronglySorted_lookup {A} (R : A -> A -> Prop) (l : list A) i j x y :
  StronglySorted R l -> (i < j)%nat ->
  l !! i = Some x -> l !! j = Some y -> R x y.
Proof.
  intros Hs. revert i j. induction Hs as [|z l Hl IH Hz]; intros i j Hlt Hi Hj.
  - by rewrite lookup_nil in Hi.
  - destruct j as [|j]; [lia|]. destruct i as [|i]; simpl in *.
    + inversion Hi; subst. rewrite List.Forall_forall in Hz. apply Hz.
      apply list_elem_of_In, list_elem_of_lookup. eauto.
    + apply (IH i j); [lia | done | done].
Qed.

Lemma withProfit_insertDesc k o l :
  withProfit k (insertDesc o l) = withProfit k (o :: l).
Proof.
  unfold withProfit. induction l as [|x l IH]; simpl; [done|].
  destruct (Qle_bool (profitPercentage x) (profitPercentage o)) eqn:E; [done|].
  rewrite filter_cons, IH, !filter_cons.
  destruct (decide (Qeq_bool (profitPercentage o) k = true)) as [Ho|Ho];
    [|done].
  destruct (decide (Qeq_bool (profitPercentage x) k = true)) as [Hx|Hx];
    [|done].
  exfalso. apply Qeq_bool_iff in Ho, Hx.
  assert (Hle : Qle_bool (profitPercentage x) (profitPercentage o) = true).
  { apply Qle_bool_iff. rewrite Ho, Hx. apply Qle_refl. }
  congruence.
Qed.

Lemma withProfit_sortDesc k l : withProfit k (sortDesc l) = withProfit k l.
Proof.
  induction l as [|x l IH]; simpl; [done|].
  rewrite withProfit_insertDesc. unfold withProfit in *.
  by rewrite !filter_cons, IH.
Qed.

End AnalyzerOrderProperties.

Section AnalyzerResultProperties.
Import Analyzer AnalyzerOrder.

Variable self : MarketAnalyzer.
Variable clock : nat -> Z.

Lemma comparePair_figures o p now a b :
  o ∈ comparePair self p now a b ->
  (minProfitThreshold self <= profitPercentage o)%Q
  /\ (0 < estimatedProfit o)%Q
  /\ (sourcePrice o < targetPrice o)%Q
  /\ profitPercentage o
     = ((targetPrice o - sourcePrice o) / sourcePrice o * 100)%Q
  /\ tradeSize o = (tradeSizeUsd self / sourcePrice o)%Q
  /\ estimatedProfit o
     = ((targetPrice o - sourcePrice o) * tradeSize o - gasCostUsd self)%Q.
Proof.
  unfold comparePair, buyBlock, sellBlock.
  destruct (_ || _); [by intros ?%elem_of_nil|].
  intros [H | H]%elem_of_app;
    (destruct (Qltb _ _) eqn:Hs; [|by apply elem_of_nil in H]);
    (destruct (_ && _) eqn:Hg; [|by apply elem_of_nil in H]);
    apply list_elem_of_singleton in H as ->; simpl;
    apply andb_true_iff in Hg as [Hp He];
    apply Qle_bool_iff in Hp; apply Qltb_lt in He, Hs; done.
Qed.

(** X1.  The returned list is in falling order of profit percentage. *)
Theorem returned_opportunities_fall_in_profit t (md : MarketData) i j oi oj :
  (i < j)%nat ->
  (findArbitrageOpportunities self clock t md).1 !! i = Some oi ->
  (findArbitrageOpportunities self clock t md).1 !! j = Some oj ->
  (profitPercentage oj <= profitPercentage oi)%Q.
Proof.
  unfold findArbitrageOpportunities. destruct (scan self clock md t) as [l t'].
  simpl. intros Hlt Hi Hj.
  exact (StronglySorted_lookup profit_desc _ i j oi oj
           (sortDesc_sorted l) Hlt Hi Hj).
Qed.

(** X2.  Sorting loses and adds nothing, and opportunities with equal profit
    percentage stay in the order in which the loops found them. *)
Theorem sort_keeps_discovery_order_of_ties t (md : MarketData) k :
  (findArbitrageOpportunities self clock t md).1
    ≡ₚ contributions self clock (comparisons md) t
  /\ withProfit k (findArbitrageOpportunities self clock t md).1
     = withProfit k (contributions self clock (comparisons md) t).
Proof.
  unfold findArbitrageOpportunities. rewrite scan_spec. simpl.
  split; [apply sortDesc_perm | apply withProfit_sortDesc].
Qed.

(** X3.  Every returned opportunity reaches the profit threshold, has a
    positive estimated profit after gas and a target price above its source
    price, and its figures are those of its two prices: the percentage is the
    price gap over the source price, the trade size is the configured USD
    size over the source price. *)
Theorem returned_opportunities_pass_the_gates t (md : MarketData) o :
  o ∈ (findArbitrageOpportunities self clock t md).1 ->
  (minProfitThreshold self <= profitPercentage o)%Q
  /\ (0 < estimatedProfit o)%Q
  /\ (sourcePrice o < targetPrice o)%Q
  /\ profitPercentage o
     = ((targetPrice o - sourcePrice o) / sourcePrice o * 100)%Q
  /\ tradeSize o = (tradeSizeUsd self / sourcePrice o)%Q
  /\ estimatedProfit o
     = ((targetPrice o - sourcePrice o) * tradeSize o - gasCostUsd self)%Q.
Proof.
  intros (n & p & a & b & _ & Ho)%elem_of_findArbitrageOpportunities.
  by eapply comparePair_figures.
Qed.

Lemma comparePair_uncrossed p now a b :
  uncrossed a -> uncrossed b ->
  (length (comparePair self p now a b) <= 1)%nat.
Proof.
  unfold uncrossed, comparePair, buyBlock, sellBlock. intros Ha Hb.
  destruct (_ || _); [simpl; lia|].
  destruct (Qltb (pd_ask a) (pd_bid b)) eqn:H1;
    destruct (Qltb (pd_ask b) (pd_bid a)) eqn:H2;
    repeat (destruct (_ && _)); simpl; try lia.
  all: exfalso; apply Qltb_lt in H1, H2;
    apply (Qlt_irrefl (pd_ask a));
    eapply Qlt_le_trans; [exact H1|];
    eapply Qle_trans; [exact Hb|];
    eapply Qle_trans; [apply Qlt_le_weak; exact H2 | exact Ha].
Qed.

Lemma contributions_uncrossed cmps t :
  (forall p a b, (p, a, b) ∈ cmps -> uncrossed a /\ uncrossed b) ->
  (length (contributions self clock cmps t) <= length cmps)%nat.
Proof.
  revert t. induction cmps as [|[[p a] b] cmps IH]; intros t H; simpl; [lia|].
  rewrite length_app.
  destruct (H p a b) as [Ha Hb]; [by left|].
  pose proof (comparePair_uncrossed p (clock t) a b Ha Hb).
  assert (Hrest : (length (contributions self clock cmps (S t))
                   <= length cmps)%nat).
  { apply IH. intros p' a' b' Hin. apply (H p'). by right. }
  lia.
Qed.

(** X4.  When no quote has its bid above its ask, a pair of venues is
    profitable in at most one direction: the analyzer returns at most one
    opportunity for every comparison it makes. *)
Theorem uncrossed_books_yield_one_direction t (md : MarketData) :
  (forall p arr d, (p, arr) ∈ md -> d ∈ arr -> uncrossed d) ->
  (length (findArbitrageOpportunities self clock t md).1
   <= length (comparisons md))%nat.
Proof.
  intros H. unfold findArbitrageOpportunities. rewrite scan_spec. simpl.
  rewrite sortDesc_perm. apply contributions_uncrossed.
  intros p a b (arr & i & j & Hin & _ & Hi & Hj)%elem_of_comparisons.
  split; eapply H; try exact Hin; apply list_elem_of_lookup; eauto.
Qed.

Lemma triangle_step (n : nat) :
  (n + n * (n - 1) / 2 = S n * (S n - 1) / 2)%nat.
Proof.
  replace (S n * (S n - 1))%nat with (n * (n - 1) + n * 2)%nat
    by (destruct n; simpl; nia).
  rewrite Nat.div_add by lia. lia.
Qed.

Lemma pairsOf_length p (arr : list PriceData) :
  length (pairsOf p arr) = (length arr * (length arr - 1) / 2)%nat.
Proof.
  induction arr as [|a arr IH]; [done|].
  change (pairsOf p (a :: arr))
    with (map (fun dexB => (p, a, dexB)) arr ++ pairsOf p arr).
  rewrite length_app, length_map, IH.
  change (length (a :: arr)) with (S (length arr)). apply triangle_step.
Qed.

(** X5.  A call reads the clock once for every two quotes of the same
    instrument: an entry with [n] quotes costs [n * (n - 1) / 2] reads, so an
    instrument quoted by a single venue costs none. *)
Theorem clock_reads_are_quadratic t (md : MarketData) :
  length (comparisons md) = AnalyzerCost.pairCount md
  /\ (findArbitrageOpportunities self clock t md).2
     = (t + AnalyzerCost.pairCount md)%nat.
Proof.
  assert (H : length (comparisons md) = AnalyzerCost.pairCount md).
  { unfold comparisons. induction md as [|[p arr] md IH]; simpl; [done|].
    by rewrite length_app, pairsOf_length, IH. }
  split; [done|].
  unfold findArbitrageOpportunities. rewrite scan_spec. simpl. by rewrite H.
Qed.

End AnalyzerResultProperties.

Lemma returned_opportunities_fall_in_profit_witness :
  let found :=
    (Analyzer.findArbitrageOpportunities AnalyzerExample.analyzer0
       (fun _ => 1000) 0 MonitorExample.marketData3).1 in
  found = [MonitorExample.expected MonitorExample.orcaQuote
             AnalyzerExample.serumQuote 1000;
           MonitorExample.expected AnalyzerExample.raydiumQuote
             AnalyzerExample.serumQuote 1000;
           MonitorExample.expected MonitorExample.orcaQuote
             AnalyzerExample.raydiumQuote 1000]
  /\ (Analyzer.profitPercentage
        (MonitorExample.expected AnalyzerExample.raydiumQuote
           AnalyzerExample.serumQuote 1000)
      <= Analyzer.profitPercentage
           (MonitorExample.expected MonitorExample.orcaQuote
              AnalyzerExample.serumQuote 1000))%Q.
Proof.
  intros found. split; [reflexivity|].
  apply (returned_opportunities_fall_in_profit AnalyzerExample.analyzer0
           (fun _ => 1000) 0%nat MonitorExample.marketData3 0%nat 1%nat).
  - lia.
  - reflexivity.
  - reflexivity.
Defined.

Lemma returned_opportunities_pass_the_gates_witness :
  let o := AnalyzerExample.opportunity0 1000 in
  ((1 # 2) <= Analyzer.profitPercentage o)%Q
  /\ (0 < Analyzer.estimatedProfit o)%Q
  /\ (Analyzer.sourcePrice o < Analyzer.targetPrice o)%Q
  /\ Analyzer.profitPercentage o
     = ((Analyzer.targetPrice o - Analyzer.sourcePrice o)
        / Analyzer.sourcePrice o * 100)%Q
  /\ Analyzer.tradeSize o = (1000 / Analyzer.sourcePrice o)%Q
  /\ Analyzer.estimatedProfit o
     = ((Analyzer.targetPrice o - Analyzer.sourcePrice o)
        * Analyzer.tradeSize o
        - Analyzer.gasCostUsd AnalyzerExample.analyzer0)%Q.
Proof.
  intros o.
  apply (returned_opportunities_pass_the_gates AnalyzerExample.analyzer0
           (fun _ => 1000) 0%nat AnalyzerExample.marketData0 o).
  vm_compute. apply list_elem_of_here.
Defined.

Lemma uncrossed_books_yield_one_direction_witness :
  (length (Analyzer.findArbitrageOpportunities AnalyzerExample.analyzer0
             (fun _ => 1000%Z) 0 MonitorExample.marketData3).1
   <= length (Analyzer.comparisons MonitorExample.marketData3))%nat.
Proof.
  apply (uncrossed_books_yield_one_direction AnalyzerExample.analyzer0
           (fun _ => 1000) 0%nat MonitorExample.marketData3).
  intros p arr d Hin Hd.
  apply list_elem_of_singleton in Hin. injection Hin as _ ->.
  repeat (apply elem_of_cons in Hd as [-> | Hd];
          [unfold AnalyzerOrder.uncrossed; vm_compute; discriminate|]).
  by apply elem_of_nil in Hd.
Defined.

(** ** The market monitor *)

Lemma slice0_take {A} (endIndex : Z) (l : list A) :
  Monitor.slice0 endIndex l = take (length (Monitor.slice0 endIndex l)) l.
Proof.
  unfold Monitor.slice0. rewrite length_take.
  destruct (Nat.min_spec (Z.to_nat
    (if endIndex <? 0 then Z.max (Z.of_nat (length l) + endIndex) 0
     else Z.min endIndex (Z.of_nat (length l)))) (length l)) as [[_ ->] | [? ->]];
    [done | by rewrite firstn_all, take_ge].
Qed.

Lemma findArbitrageOpportunities_sorted self clock t md :
  StronglySorted AnalyzerOrder.profit_desc
    (Analyzer.findArbitrageOpportunities self clock t md).1.
Proof.
  unfold Analyzer.findArbitrageOpportunities.
  destruct (Analyzer.scan self clock md t). apply sortDesc_sorted.
Qed.

(** X6.  [handlePriceUpdate] stores and hands over a prefix of the sorted
    list the analyzer returns: with a limit of at least 0 it keeps
    [min limit found] opportunities, with a negative limit [-k] it drops the
    last [k]; whatever it drops is no more profitable than anything it
    keeps. *)
Theorem monitor_keeps_the_most_profitable clock t
    (md : Analyzer.MarketData) (m : Monitor.MarketMonitor) :
  let found :=
    (Analyzer.findArbitrageOpportunities (Monitor.analyzer m) clock t md).1 in
  let m' := (Monitor.handlePriceUpdate clock t md m).1.1 in
  let handed := (Monitor.handlePriceUpdate clock t md m).1.2 in
  Monitor.opportunities m' = handed
  /\ handed = take (length handed) found
  /\ (0 <= Monitor.maxOpportunities m ->
      Z.of_nat (length handed)
      = Z.min (Monitor.maxOpportunities m) (Z.of_nat (length found)))
  /\ (Monitor.maxOpportunities m < 0 ->
      Z.of_nat (length handed)
      = Z.max (Z.of_nat (length found) + Monitor.maxOpportunities m) 0)
  /\ (forall i j o o',
        handed !! i = Some o -> found !! j = Some o' ->
        (length handed <= j)%nat ->
        (Analyzer.profitPercentage o' <= Analyzer.profitPercentage o)%Q).
Proof.
  intros found m' handed. subst m' handed. unfold Monitor.handlePriceUpdate.
  pose proof (findArbitrageOpportunities_sorted (Monitor.analyzer m) clock t md)
    as Hsorted.
  fold found in Hsorted.
  destruct (Analyzer.findArbitrageOpportunities (Monitor.analyzer m) clock t md)
    as [l t'] eqn:E.
  simpl in *. subst found.
  split_and!.
  - done.
  - apply slice0_take.
  - intros Hpos. unfold Monitor.slice0. rewrite length_take.
    destruct (Z.ltb_spec (Monitor.maxOpportunities m) 0); lia.
  - intros Hneg. unfold Monitor.slice0. rewrite length_take.
    destruct (Z.ltb_spec (Monitor.maxOpportunities m) 0); lia.
  - intros i j o o' Hi Hj Hle.
    rewrite slice0_take in Hi. apply lookup_take_Some in Hi as [Hi Hlt].
    apply (StronglySorted_lookup AnalyzerOrder.profit_desc l i j o o');
      [done | lia | done | done].
Qed.

Lemma monitor_keeps_the_most_profitable_witness :
  let run :=
    Monitor.handlePriceUpdate (fun _ => 1000) 0 MonitorExample.marketData3
      MonitorExample.monitor0 in
  let kept := MonitorExample.expected AnalyzerExample.raydiumQuote
                AnalyzerExample.serumQuote 1000 in
  let dropped := MonitorExample.expected MonitorExample.orcaQuote
                   AnalyzerExample.raydiumQuote 1000 in
  Z.of_nat (length run.1.2) = 2
  /\ (Analyzer.profitPercentage dropped <= Analyzer.profitPercentage kept)%Q.
Proof.
  intros run kept dropped.
  destruct (monitor_keeps_the_most_profitable (fun _ => 1000) 0%nat
              MonitorExample.marketData3 MonitorExample.monitor0)
    as (_ & _ & Hlen & _ & Hord).
  split.
  - etrans; [apply Hlen; simpl; lia | reflexivity].
  - apply (Hord 1%nat 2%nat kept dropped); [reflexivity | reflexivity |].
    vm_compute. lia.
Defined.

(** ** More of the collector *)

Section CollectorProperties.
Import Collector CollectorMore.

Lemma get_Some_lookup {V} key (m : list (string * V)) v :
  get key m = Some v ->
  exists i, m !! i = Some (key, v)
            /\ forall j y, m !! j = Some y -> (j < i)%nat -> y.1 <> key.
Proof.
  unfold get. intros ([i [k v']] & Hfind & ->)%fmap_Some.
  apply list_find_Some in Hfind as (Hi & Hk & Hleast). simpl in *. subst k.
  by exists i.
Qed.

Lemma get_None_notin {V} key (m : list (string * V)) :
  get key m = None <-> key ∉ m.*1.
Proof.
  unfold get. rewrite fmap_None, list_find_None, Forall_forall. split.
  - intros H ([k v] & -> & Hin)%list_elem_of_fmap. by apply (H _ Hin).
  - intros H [k v] Hin Hk. apply H. apply list_elem_of_fmap.
    exists (k, v). by split.
Qed.

Lemma get_lookup {V} key (m : list (string * V)) i v :
  NoDup m.*1 -> m !! i = Some (key, v) -> get key m = Some v.
Proof.
  intros Hnd Hi. unfold get.
  assert (Hfind : list_find (fun e : string * V => e.1 = key) m
                  = Some (i, (key, v))).
  { apply list_find_Some. split_and!; [done | done |].
    intros j [k' v'] Hj Hlt Hk. simpl in Hk. subst k'.
    assert (i = j); [|lia].
    eapply NoDup_lookup; [exact Hnd | |];
      rewrite list_lookup_fmap; [by rewrite Hi | by rewrite Hj]. }
  by rewrite Hfind.
Qed.

Lemma get_app {V} key (m : list (string * V)) key' v' :
  get key (m ++ [(key', v')])
  = match get key m with
    | Some v => Some v
    | None => if decide (key' = key) then Some v' else None
    end.
Proof.
  unfold get. destruct (list_find _ m) as [[i [k v]]|] eqn:E; simpl.
  - by rewrite (list_find_app_l _ _ _ _ _ E).
  - rewrite (list_find_app_r _ _ _ E). simpl.
    destruct (decide (key' = key)); by simplify_option_eq.
Qed.

Lemma stored_shape dexName pairName price old :
  let data := record dexName pairName price in
  NoDup (Analyzer.pd_dex <$> old) ->
  (forall d, d ∈ old -> Analyzer.pd_pair d = pairName) ->
  NoDup (Analyzer.pd_dex <$> stored dexName data old)
  /\ (forall d, d ∈ stored dexName data old -> Analyzer.pd_pair d = pairName)
  /\ data ∈ stored dexName data old
  /\ (forall d, Analyzer.pd_dex d <> dexName ->
        d ∈ stored dexName data old <-> d ∈ old)
  /\ (forall d, d ∈ stored dexName data old ->
        Analyzer.pd_dex d = dexName -> d = data).
Proof.
  intros data Hnd Hpair. unfold stored, findIndex.
  destruct (list_find _ old) as [[i x]|] eqn:E; simpl.
  - apply list_find_Some in E as (Hi & Hx & _).
    assert (Hlt : (i < length old)%nat) by by eapply lookup_lt_Some.
    assert (Hdex : Analyzer.pd_dex <$> <[i:=data]> old = Analyzer.pd_dex <$> old).
    { rewrite list_fmap_insert. apply list_insert_id.
      rewrite list_lookup_fmap, Hi. simpl. by rewrite Hx. }
    assert (Hel : forall d, d ∈ <[i:=data]> old ->
                    d = data \/ (d ∈ old /\ d <> x)).
    { intros d [j Hj]%list_elem_of_lookup.
      apply list_lookup_insert_Some in Hj as [(_ & -> & _) | [Hne Hj]];
        [by left|].
      right. split; [apply list_elem_of_lookup; eauto|].
      intros ->. apply Hne. eapply NoDup_lookup; [exact Hnd | |];
        rewrite list_lookup_fmap; [by rewrite Hi | by rewrite Hj]. }
    split_and!.
    + by rewrite Hdex.
    + intros d [-> | [Hd _]]%Hel; [done | by apply Hpair].
    + by apply list_elem_of_insert.
    + intros d Hd. split.
      * intros [-> | [? _]]%Hel; [done | done].
      * intros [j Hj]%list_elem_of_lookup. apply list_elem_of_lookup.
        exists j. apply list_lookup_insert_Some. right. split; [|done].
        intros ->. rewrite Hi in Hj. injection Hj as ->. by apply Hd.
    + intros d [-> | [Hd Hne]]%Hel Hdd; [done|]. exfalso.
      apply list_elem_of_lookup in Hd as [j Hj]. apply Hne.
      assert (i = j) as ->.
      { apply (NoDup_lookup _ i j dexName Hnd); rewrite list_lookup_fmap.
        - rewrite Hi. simpl. by rewrite Hx.
        - rewrite Hj. simpl. by rewrite Hdd. }
      rewrite Hi in Hj. by injection Hj.
  - apply list_find_None in E. rewrite Forall_forall in E.
    split_and!.
    + rewrite fmap_app. apply NoDup_app. split_and!; [done | | apply NoDup_singleton].
      intros dx ([d] & -> & Hd)%list_elem_of_fmap Hin.
      apply list_elem_of_singleton in Hin. by apply (E _ Hd).
    + intros d [Hd | ->%list_elem_of_singleton]%elem_of_app;
        [by apply Hpair | done].
    + apply elem_of_app. right. by apply list_elem_of_singleton.
    + intros d Hd. rewrite elem_of_app, list_elem_of_singleton. split.
      * intros [? | ->]; [done | done].
      * by left.
    + intros d [Hd | ->%list_elem_of_singleton]%elem_of_app Hdd; [|done].
      by destruct (E _ Hd).
Qed.

Lemma consistent_get key ref c :
  consistent c -> get key (priceData c) = Some ref ->
  priceData c !! ref = Some (key, ref) /\ (ref < length (arrays c))%nat.
Proof.
  intros (Hlen & Hidx & _) (i & Hi & _)%get_Some_lookup.
  pose proof (Hidx _ _ _ Hi) as ->. split; [done|].
  rewrite <- Hlen. by eapply lookup_lt_Some.
Qed.

Lemma storePrice_spec dexName pairName price c :
  consistent c ->
  let c' := storePrice dexName pairName price c in
  let old := default [] (getPriceDataForPair pairName c) in
  consistent c'
  /\ getPriceDataForPair pairName c'
     = Some (stored dexName (record dexName pairName price) old)
  /\ (forall key, key <> pairName ->
        getPriceDataForPair key c' = getPriceDataForPair key c)
  /\ providers c' = providers c.
Proof.
  intros Hc c' old.
  assert (Hold : NoDup (Analyzer.pd_dex <$> old)
                 /\ forall d, d ∈ old -> Analyzer.pd_pair d = pairName).
  { subst old. destruct (getPriceDataForPair pairName c) as [arr|] eqn:E; simpl.
    - by apply Hc.
    - split; [constructor | by intros ? ?%elem_of_nil]. }
  destruct (stored_shape dexName pairName price old (proj1 Hold) (proj2 Hold))
    as (Hnd' & Hpair' & _).
  (* the two facts about lookups give the rest *)
  cut (length (priceData c') = length (arrays c')
       /\ (forall i key ref, priceData c' !! i = Some (key, ref) -> ref = i)
       /\ NoDup (fst <$> priceData c')
       /\ getPriceDataForPair pairName c'
          = Some (stored dexName (record dexName pairName price) old)
       /\ (forall key, key <> pairName ->
             getPriceDataForPair key c' = getPriceDataForPair key c)
       /\ providers c' = providers c).
  { intros (H1 & H2 & H3 & H4 & H5 & H6). split_and!; try done.
    split_and!; try done. intros key arr Harr.
    destruct (decide (key = pairName)) as [-> | Hne].
    - rewrite H4 in Harr. injection Harr as <-. done.
    - rewrite H5 in Harr by done. by apply Hc. }
  subst c' old. unfold storePrice, getPriceDataForPair, has.
  destruct (get pairName (priceData c)) as [ref|] eqn:Hget.
  - rewrite bool_decide_eq_true_2 by eauto. rewrite Hget.
    destruct (consistent_get _ _ _ Hc Hget) as [Href Hlt].
    destruct (lookup_lt_is_Some_2 _ _ Hlt) as [arr Harr].
    rewrite Harr. simpl. destruct Hc as (Hlen & Hidx & Hnodup & _).
    split_and!; try done.
    + by rewrite length_insert.
    + rewrite Hget. apply list_lookup_insert_eq. done.
    + intros key Hne. destruct (get key (priceData c)) as [r'|] eqn:Hk; [|done].
      apply list_lookup_insert_ne. intros <-.
      apply get_Some_lookup in Hk as (i & Hi & _).
      pose proof (Hidx _ _ _ Hi) as ->. rewrite Href in Hi. by injection Hi.
  - rewrite bool_decide_eq_false_2 by (intros [? ?]; congruence). simpl.
    rewrite get_app, Hget. rewrite decide_True by done.
    destruct Hc as (Hlen & Hidx & Hnodup & _).
    rewrite lookup_app_r by lia. rewrite Nat.sub_diag. simpl.
    rewrite get_app, Hget. rewrite decide_True by done.
    change (stored dexName (record dexName pairName price) [])
      with [record dexName pairName price].
    split_and!; try done.
    + by rewrite length_insert, !length_app, Hlen.
    + intros i key ref [Hi | [Hge Hi]]%lookup_app_Some; [by eapply Hidx|].
      destruct (i - length (priceData c))%nat eqn:E; [|done].
      simpl in Hi. injection Hi as _ <-. lia.
    + rewrite fmap_app. apply NoDup_app.
      split_and!; [done | | apply NoDup_singleton].
      intros k Hk ->%list_elem_of_singleton.
      by apply get_None_notin in Hget.
    + apply list_lookup_insert_eq. rewrite length_app. simpl. lia.
    + intros key Hne. rewrite get_app.
      destruct (get key (priceData c)) as [r'|] eqn:Hk.
      * assert (Hr : (r' < length (arrays c))%nat).
        { apply get_Some_lookup in Hk as (i & Hi & _).
          pose proof (Hidx _ _ _ Hi) as ->. rewrite <- Hlen.
          by eapply lookup_lt_Some. }
        rewrite list_lookup_insert_ne by lia. by apply lookup_app_l.
      * by rewrite decide_False by done.
Qed.

Lemma collectOne_consistent feed c request :
  consistent c -> consistent (collectOne feed c request).
Proof.
  intros Hc. unfold collectOne. destruct (feed _ _); [|done].
  by apply storePrice_spec.
Qed.

Lemma collectSome_consistent feed reqs c :
  consistent c -> consistent (collectSome feed reqs c).
Proof.
  unfold collectSome. revert c.
  induction reqs as [|r reqs IH]; intros c Hc; simpl; [done|].
  apply IH. by apply collectOne_consistent.
Qed.

Lemma empty_consistent ps : consistent (mkCollector ps [] []).
Proof.
  unfold consistent, getPriceDataForPair. simpl.
  split_and!; [done | | constructor | done].
  intros i key ref H. by rewrite lookup_nil in H.
Qed.

Lemma cycles_consistent feeds c :
  consistent c ->
  consistent (foldl (fun c feed => (collectData feed c).1) c feeds).
Proof.
  revert c. induction feeds as [|feed feeds IH]; intros c Hc; simpl; [done|].
  apply IH. by apply collectSome_consistent.
Qed.

(** X7.  In the collector after any number of poll cycles, and so in every
    map it publishes, the array of a pair holds quotes of that pair only and
    at most one quote for every venue; and what a subscriber reads from the
    published map is what [getPriceDataForPair] returns. *)
Theorem snapshot_has_one_quote_per_venue ps feeds key arr :
  let c := foldl (fun c feed => (collectData feed c).1)
                 (mkCollector ps [] []) feeds in
  (key, arr) ∈ contents (arrays c) (getPriceData c) ->
  getPriceDataForPair key c = Some arr
  /\ NoDup (Analyzer.pd_dex <$> arr)
  /\ (forall d, d ∈ arr -> Analyzer.pd_pair d = key).
Proof.
  intros c Hin.
  assert (Hc : consistent c) by apply cycles_consistent, empty_consistent.
  assert (Hget : getPriceDataForPair key c = Some arr).
  { unfold contents, getPriceData in Hin.
    apply list_elem_of_fmap in Hin as ([k ref] & Heq & Hin).
    simpl in Heq. injection Heq as -> ->.
    apply list_elem_of_lookup in Hin as [i Hi].
    destruct Hc as (Hlen & Hidx & Hnodup & _).
    pose proof (Hidx _ _ _ Hi) as ->.
    unfold getPriceDataForPair. rewrite (get_lookup _ _ _ _ Hnodup Hi).
    destruct (lookup_lt_is_Some_2 (arrays c) i) as [a Ha];
      [rewrite <- Hlen; by eapply lookup_lt_Some|].
    by rewrite Ha. }
  split; [done|]. by apply Hc.
Qed.

(** X8.  After a price has been stored for a venue and a pair, the array of
    the pair holds the new record as its only entry for that venue, its
    entries for the other venues are those it had, and the arrays of the
    other pairs are as they were. *)
Theorem stored_price_is_read_back dexName pairName price c :
  consistent c ->
  let c' := storePrice dexName pairName price c in
  let data := record dexName pairName price in
  (exists arr',
      getPriceDataForPair pairName c' = Some arr'
      /\ data ∈ arr'
      /\ (forall d, d ∈ arr' -> Analyzer.pd_dex d = dexName -> d = data)
      /\ (forall d, Analyzer.pd_dex d <> dexName ->
            d ∈ arr' <-> d ∈ default [] (getPriceDataForPair pairName c)))
  /\ (forall key, key <> pairName ->
        getPriceDataForPair key c' = getPriceDataForPair key c).
Proof.
  intros Hc c' data.
  destruct (storePrice_spec dexName pairName price c Hc) as (_ & Hnew & Hother & _).
  split; [|done]. eexists. split; [exact Hnew|].
  assert (Hold : NoDup (Analyzer.pd_dex
                          <$> default [] (getPriceDataForPair pairName c))
                 /\ forall d, d ∈ default [] (getPriceDataForPair pairName c) ->
                              Analyzer.pd_pair d = pairName).
  { destruct (getPriceDataForPair pairName c) as [arr|] eqn:E; simpl.
    - by apply Hc.
    - split; [constructor | by intros ? ?%elem_of_nil]. }
  destruct (stored_shape dexName pairName price _ (proj1 Hold) (proj2 Hold))
    as (_ & _ & Hin & Hrest & Honly).
  done.
Qed.

Lemma collectOne_keeps feed c request key arr d :
  consistent c ->
  feed (Analyzer.pd_dex d) key = None ->
  getPriceDataForPair key c = Some arr -> d ∈ arr ->
  exists arr', getPriceDataForPair key (collectOne feed c request) = Some arr'
               /\ d ∈ arr'.
Proof.
  intros Hc Hfeed Harr Hd. unfold collectOne.
  destruct request as [dex' pair']. simpl.
  destruct (feed dex' pair') as [price|] eqn:E; [|eauto].
  destruct (storePrice_spec dex' pair' price c Hc) as (_ & Hnew & Hother & _).
  destruct (decide (key = pair')) as [-> | Hne].
  - eexists. split; [exact Hnew|]. rewrite Harr. simpl.
    assert (Hdex : Analyzer.pd_dex d <> dex') by (intros <-; congruence).
    destruct Hc as (_ & _ & _ & Hshape).
    destruct (Hshape pair' arr Harr) as [Hnd Hpair].
    destruct (stored_shape dex' pair' price arr Hnd Hpair)
      as (_ & _ & _ & Hrest & _).
    by apply Hrest.
  - exists arr. by rewrite Hother.
Qed.

(** X9.  A quote is never dropped: when a venue gives no price for a pair
    during a cycle, the quote it gave before is still in the array of the
    pair after the cycle, whatever the other venues answer. *)
Theorem failed_venue_keeps_its_last_quote feed c key arr d :
  consistent c ->
  feed (Analyzer.pd_dex d) key = None ->
  getPriceDataForPair key c = Some arr -> d ∈ arr ->
  exists arr', getPriceDataForPair key (collectData feed c).1 = Some arr'
               /\ d ∈ arr'.
Proof.
  unfold collectData. simpl. unfold collectSome.
  generalize (requests c). intros reqs. revert c arr.
  induction reqs as [|r reqs IH]; intros c arr Hc Hfeed Harr Hd; simpl; [eauto|].
  destruct (collectOne_keeps feed c r key arr d Hc Hfeed Harr Hd)
    as (arr1 & Harr1 & Hd1).
  eapply IH; [by apply collectOne_consistent | done | exact Harr1 | done].
Qed.

End CollectorProperties.

Lemma snapshot_has_one_quote_per_venue_witness :
  let c := CollectorMoreExample.collector1 in
  let arr := [CollectorExample.quote "Serum" 100 101 1000;
              CollectorExample.quote "Raydium" 99 102 1000] in
  CollectorMore.getPriceDataForPair "SOL/USDC" c = Some arr
  /\ NoDup (Analyzer.pd_dex <$> arr)
  /\ (forall d, d ∈ arr -> Analyzer.pd_pair d = "SOL/USDC"%string).
Proof.
  intros c arr.
  apply (snapshot_has_one_quote_per_venue
           (Collector.providers CollectorExample.collector0)
           [CollectorExample.feed1] "SOL/USDC"%string arr).
  vm_compute. apply list_elem_of_here.
Defined.

Lemma collector1_consistent :
  CollectorMore.consistent CollectorMoreExample.collector1.
Proof.
  apply (cycles_consistent [CollectorExample.feed1]), empty_consistent.
Qed.

Lemma stored_price_is_read_back_witness :
  let c := CollectorMoreExample.collector1 in
  let price := Collector.mkPrice 200 201 None 6000 in
  let c' := Collector.storePrice "Serum" "SOL/USDC" price c in
  CollectorMore.getPriceDataForPair "SOL/USDC" c'
  = Some [CollectorExample.quote "Serum" 200 201 6000;
          CollectorExample.quote "Raydium" 99 102 1000]
  /\ (forall key, key <> "SOL/USDC"%string ->
        CollectorMore.getPriceDataForPair key c'
        = CollectorMore.getPriceDataForPair key c).
Proof.
  intros c price c'.
  destruct (stored_price_is_read_back "Serum" "SOL/USDC" price c
              collector1_consistent) as [_ Hother].
  split; [reflexivity | exact Hother].
Defined.

Lemma failed_venue_keeps_its_last_quote_witness :
  let c := CollectorMoreExample.collector1 in
  let d := CollectorExample.quote "Serum" 100 101 1000 in
  exists arr',
    CollectorMore.getPriceDataForPair "SOL/USDC"
      (Collector.collectData CollectorMoreExample.serumDown c).1 = Some arr'
    /\ d ∈ arr'.
Proof.
  intros c d.
  apply (failed_venue_keeps_its_last_quote CollectorMoreExample.serumDown c
           "SOL/USDC"%string
           [d; CollectorExample.quote "Raydium" 99 102 1000] d
           collector1_consistent).
  - reflexivity.
  - reflexivity.
  - apply list_elem_of_here.
Defined.

(** X10.  [initialize] on a new collector answers [true] exactly when
    [dexes] names Serum, Raydium or Orca, whether or not any provider could
    be initialized; the providers are pushed in that order whatever the
    order of [dexes]; and a second call pushes them a second time. *)
Theorem initialize_counts_requested_venues dexes initOk :
  let first := CollectorMore.initialize dexes initOk [] in
  (first.2 = true <->
     "Serum"%string ∈ dexes \/ "Raydium"%string ∈ dexes
     \/ "Orca"%string ∈ dexes)
  /\ first.1
     = filter (fun name => name ∈ dexes)
              ["Serum"%string; "Raydium"%string; "Orca"%string]
  /\ (CollectorMore.initialize dexes initOk first.1).1 = first.1 ++ first.1.
Proof.
  unfold CollectorMore.initialize. simpl.
  rewrite !filter_cons, filter_nil.
  destruct (bool_decide_reflect ("Serum"%string ∈ dexes));
    destruct (bool_decide_reflect ("Raydium"%string ∈ dexes));
    destruct (bool_decide_reflect ("Orca"%string ∈ dexes));
    repeat (destruct (decide (_ ∈ dexes)); [|try done]); try done;
    simpl; (split_and!; [split; intros; first [done | tauto] | done | done]).
Qed.

Lemma polling_invariant calls p :
  CollectorMore.liveIntervals p
    = from_option (fun h => [h]) [] (CollectorMore.pollingInterval p) ->
  let p' := foldl (fun p c => CollectorMore.call c p) p calls in
  CollectorMore.liveIntervals p'
    = from_option (fun h => [h]) [] (CollectorMore.pollingInterval p')
  /\ CollectorMore.isInitialized p' = CollectorMore.isInitialized p.
Proof.
  revert p. induction calls as [|c calls IH]; intros p Hp; simpl; [done|].
  assert (Hstep :
    CollectorMore.liveIntervals (CollectorMore.call c p)
      = from_option (fun h => [h]) []
          (CollectorMore.pollingInterval (CollectorMore.call c p))
    /\ CollectorMore.isInitialized (CollectorMore.call c p)
       = CollectorMore.isInitialized p).
  { destruct c; simpl; unfold CollectorMore.start, CollectorMore.stop.
    - destruct (negb _); [done|].
      destruct (CollectorMore.pollingInterval p) eqn:E; simpl;
        rewrite ?E, Hp; done.
    - destruct (CollectorMore.pollingInterval p) eqn:E; simpl;
        rewrite ?E, ?Hp; [|done].
      simpl. rewrite filter_cons, filter_nil.
      case_decide; [congruence | done]. }
  destruct Hstep as [H1 H2]. destruct (IH _ H1) as [H3 H4].
  split; [done | congruence].
Qed.

(** X11.  Whatever sequence of [start] and [stop] calls is made on a
    collector that is not polling, there is never more than one interval
    timer alive; a collector that was not initialized never polls; and
    after a [stop] no timer is alive. *)
Theorem at_most_one_polling_timer calls p :
  CollectorMore.pollingInterval p = None ->
  CollectorMore.liveIntervals p = [] ->
  let p' := foldl (fun p c => CollectorMore.call c p) p calls in
  (length (CollectorMore.liveIntervals p') <= 1)%nat
  /\ (CollectorMore.isInitialized p = false ->
      CollectorMore.liveIntervals p' = []
      /\ (CollectorMore.start p').2 = false)
  /\ CollectorMore.liveIntervals (CollectorMore.stop p') = []
  /\ CollectorMore.stop (CollectorMore.stop p') = CollectorMore.stop p'.
Proof.
  intros Hnone Hlive p'.
  destruct (polling_invariant calls p) as [Hinv Hinit];
    [by rewrite Hnone, Hlive|].
  fold p' in Hinv, Hinit.
  destruct (polling_invariant (calls ++ [CollectorMore.CallStop]) p) as [Hinv' _];
    [by rewrite Hnone, Hlive|].
  rewrite foldl_app in Hinv'. simpl in Hinv'. fold p' in Hinv'.
  assert (Hstop : CollectorMore.pollingInterval (CollectorMore.stop p') = None).
  { unfold CollectorMore.stop. by destruct (CollectorMore.pollingInterval p') eqn:E. }
  split_and!.
  - rewrite Hinv. destruct (CollectorMore.pollingInterval p'); simpl; lia.
  - intros Hno. rewrite Hno in Hinit.
    assert (Hnever : forall cs q,
              CollectorMore.isInitialized q = false ->
              CollectorMore.pollingInterval q = None ->
              CollectorMore.pollingInterval
                (foldl (fun p c => CollectorMore.call c p) q cs) = None).
    { induction cs as [|c cs IH]; intros q Hq Hq'; simpl; [done|].
      assert (CollectorMore.call c q = q) as ->; [|by apply IH].
      destruct c; simpl; unfold CollectorMore.start, CollectorMore.stop;
        rewrite ?Hq, ?Hq'; done. }
    split.
    + rewrite Hinv. fold p'. unfold p'. by rewrite (Hnever calls p Hno Hnone).
    + unfold CollectorMore.start. by rewrite Hinit.
  - by rewrite Hinv', Hstop.
  - unfold CollectorMore.stop at 1. by rewrite Hstop.
Qed.

Lemma at_most_one_polling_timer_witness :
  let p' := foldl (fun p c => CollectorMore.call c p)
                  CollectorMoreExample.idle
                  [CollectorMore.CallStart; CollectorMore.CallStart;
                   CollectorMore.CallStop; CollectorMore.CallStart] in
  (length (CollectorMore.liveIntervals p') <= 1)%nat
  /\ CollectorMore.liveIntervals (CollectorMore.stop p') = []
  /\ CollectorMore.stop (CollectorMore.stop p') = CollectorMore.stop p'.
Proof.
  intros p'.
  destruct (at_most_one_polling_timer
              [CollectorMore.CallStart; CollectorMore.CallStart;
               CollectorMore.CallStop; CollectorMore.CallStart]
              CollectorMoreExample.idle eq_refl eq_refl) as (H1 & _ & H3 & H4).
  exact (conj H1 (conj H3 H4)).
Defined.

(** * Further properties of the strategy and the detector *)

Section StrategyProperties.
Import Arbitrage.

Variable clock : nat -> Z.

Ltac unfold_monad :=
  cbv [mbind M_bind bind mret M_ret ret get modify Date_now modifyObject
       newObject] in *.

Lemma includes_true l x : includes l x = true <-> x ∈ l.
Proof. unfold includes. apply bool_decide_eq_true. Qed.

Lemma Qltb_false (x y : Q) : Qltb x y = false <-> (y <= x)%Q.
Proof.
  unfold Qltb. rewrite negb_false_iff. apply Qle_bool_iff.
Qed.

Lemma if_false_true (c r : bool) :
  (if c then false else r) = true <-> c = false /\ r = true.
Proof. destruct c; split; [by intros ? | by intros [? ?] | done | by intros [_ ?]]. Qed.

Lemma includes_false l x : includes l x = false <-> x ∉ l.
Proof. unfold includes. apply bool_decide_eq_false. Qed.

Lemma blacklisted_false (b : option (list string)) x :
  match b with Some l => includes l x | None => false end = false
  <-> x ∉ (default [] b).
Proof.
  destruct b as [l|]; simpl; [apply includes_false|].
  split; [intros _; apply not_elem_of_nil | done].
Qed.

Lemma blacklisted2_false (b : option (list string)) x y :
  match b with Some l => includes l x || includes l y | None => false end
  = false
  <-> (x ∉ (default [] b)) /\ (y ∉ (default [] b)).
Proof.
  destruct b as [l|]; simpl.
  - by rewrite orb_false_iff, !includes_false.
  - split; [intros _; split; apply not_elem_of_nil | done].
Qed.

Lemma priority_false (pl : option (list string)) x (p t : Q) :
  match pl with
  | Some l => (0 <? length l)%nat && negb (includes l x) && Qltb p t
  | None => false
  end = false
  <-> ((default [] pl) <> [] -> (x ∉ (default [] pl)) -> (t <= p)%Q).
Proof.
  destruct pl as [[|a l]|]; simpl; [split; done | | split; done].
  destruct (includes (a :: l) x) eqn:E; simpl.
  - apply includes_true in E. split; [by intros _ _ ? | done].
  - apply includes_false in E. rewrite Qltb_false. split; [auto|].
    intros H. by apply H.
Qed.

Lemma priority2_false (pl : option (list string)) x y (p t : Q) :
  match pl with
  | Some l => (0 <? length l)%nat && negb (includes l x)
              && negb (includes l y) && Qltb p t
  | None => false
  end = false
  <-> ((default [] pl) <> [] -> (x ∉ (default [] pl)) ->
       (y ∉ (default [] pl)) -> (t <= p)%Q).
Proof.
  destruct pl as [[|a l]|]; simpl; [split; done | | split; done].
  destruct (includes (a :: l) x) eqn:E; simpl.
  { apply includes_true in E. split; [by intros _ _ ? | done]. }
  destruct (includes (a :: l) y) eqn:E'; simpl.
  { apply includes_true in E'. split; [by intros _ _ _ ? | done]. }
  apply includes_false in E, E'. rewrite Qltb_false. split; [auto|].
  intros H. by apply H.
Qed.

(** X12.  [filterOpportunity] accepts an opportunity exactly when its pair
    and its two venues are on no blacklist, its profit percentage reaches
    the threshold, and, where a priority list is configured and the
    opportunity is not on it (for venues: neither venue is), the profit
    percentage reaches one and a half times the threshold. *)
Theorem filter_accepts_exactly cfg o :
  let opp := opportunity o in
  let profit := Analyzer.profitPercentage opp in
  filterOpportunity cfg o = true <->
    (Analyzer.pair opp ∉ (default [] (blacklistPairs cfg)))
    /\ ((Analyzer.sourceDex opp ∉ (default [] (blacklistDexes cfg)))
        /\ (Analyzer.targetDex opp ∉ (default [] (blacklistDexes cfg))))
    /\ (s_minProfitThreshold cfg <= profit)%Q
    /\ ((default [] (prioritizePairs cfg)) <> [] ->
        (Analyzer.pair opp ∉ (default [] (prioritizePairs cfg))) ->
        (s_minProfitThreshold cfg * (3 # 2) <= profit)%Q)
    /\ ((default [] (prioritizeDexes cfg)) <> [] ->
        (Analyzer.sourceDex opp ∉ (default [] (prioritizeDexes cfg))) ->
        (Analyzer.targetDex opp ∉ (default [] (prioritizeDexes cfg))) ->
        (s_minProfitThreshold cfg * (3 # 2) <= profit)%Q).
Proof.
  intros opp profit. unfold filterOpportunity. fold opp. fold profit.
  rewrite !if_false_true, blacklisted_false, blacklisted2_false, Qltb_false,
          priority_false, priority2_false.
  tauto.
Qed.

Lemma checkTradeLimits_spec w :
  let now := clock (reads w) in
  let s := strategy w in
  let cfg := strategyConfig s in
  let due := dailyResetTime s <? now in
  let count := if due then 0 else dailyTradeCount s in
  let passed := negb (maxDailyTrades cfg <=? count)
                && negb (now - lastTradeTime s <? minTradeIntervalMs cfg) in
  (checkTradeLimits clock w).1 = passed
  /\ strategy (checkTradeLimits clock w).2
     = mkStrategy cfg
         (if passed then count + 1 else count)
         (if passed then now else lastTradeTime s)
         (if due then (clock (S (reads w)) / 86400000 + 1) * 86400000
          else dailyResetTime s)
  /\ reads (checkTradeLimits clock w).2
     = (if due then S (S (reads w)) else S (reads w)).
Proof.
  unfold checkTradeLimits, resetDailyTradeCount. unfold_monad. simpl.
  destruct (dailyResetTime (strategy w) <? clock (reads w)); simpl.
  - destruct (maxDailyTrades (strategyConfig (strategy w)) <=? 0); simpl;
      [done|].
    by destruct (clock (reads w) - lastTradeTime (strategy w)
                 <? minTradeIntervalMs (strategyConfig (strategy w))).
  - destruct (maxDailyTrades (strategyConfig (strategy w))
              <=? dailyTradeCount (strategy w)); simpl;
      [by destruct (strategy w)|].
    destruct (clock (reads w) - lastTradeTime (strategy w)
              <? minTradeIntervalMs (strategyConfig (strategy w))); simpl;
      [by destruct (strategy w) | done].
Qed.

(** X13.  [checkTradeLimits] approves exactly when the daily count (taken as
    0 when the reset time has passed) is below [maxDailyTrades] and at least
    [minTradeIntervalMs] have passed since the last approval.  An approval
    adds one to the count and records its time; a refusal changes neither.
    So the count never exceeds a cap that is not negative. *)
Theorem trade_limits_gate w :
  let now := clock (reads w) in
  let s := strategy w in
  let cfg := strategyConfig s in
  let count := if dailyResetTime s <? now then 0 else dailyTradeCount s in
  let passed := (checkTradeLimits clock w).1 in
  let s' := strategy (checkTradeLimits clock w).2 in
  (passed = true <->
     count < maxDailyTrades cfg /\ minTradeIntervalMs cfg <= now - lastTradeTime s)
  /\ (passed = true -> dailyTradeCount s' = count + 1 /\ lastTradeTime s' = now)
  /\ (passed = false ->
      dailyTradeCount s' = count /\ lastTradeTime s' = lastTradeTime s)
  /\ strategyConfig s' = cfg
  /\ (0 <= maxDailyTrades cfg -> dailyTradeCount s <= maxDailyTrades cfg ->
      dailyTradeCount s' <= maxDailyTrades cfg).
Proof.
  intros now s cfg count passed s'. subst passed s'.
  destruct (checkTradeLimits_spec w) as (-> & -> & _). fold now s cfg count.
  destruct (negb (maxDailyTrades cfg <=? count)
            && negb (now - lastTradeTime s <? minTradeIntervalMs cfg)) eqn:E;
    simpl.
  - apply andb_true_iff in E as [E1 E2].
    apply negb_true_iff, Z.leb_gt in E1. apply negb_true_iff, Z.ltb_ge in E2.
    split_and!; try done. intros _ _. lia.
  - assert (~ (count < maxDailyTrades cfg
               /\ minTradeIntervalMs cfg <= now - lastTradeTime s)) as Hno.
    { intros [H1 H2]. apply andb_false_iff in E as [E|E];
        apply negb_false_iff in E; [apply Z.leb_le in E | apply Z.ltb_lt in E];
        lia. }
    split_and!; try done.
    intros Hmax Hc. subst count.
    destruct (dailyResetTime s <? now); lia.
Qed.

(** X14.  Two approvals are at least [minTradeIntervalMs] apart: after an
    approval, a call whose clock read is less than [minTradeIntervalMs] later
    is refused. *)
Theorem approvals_are_spaced w :
  (checkTradeLimits clock w).1 = true ->
  let w1 := (checkTradeLimits clock w).2 in
  clock (reads w1) - clock (reads w)
    < minTradeIntervalMs (strategyConfig (strategy w)) ->
  (checkTradeLimits clock w1).1 = false.
Proof.
  intros Hpass w1 Hsoon.
  destruct (checkTradeLimits_spec w) as (Hp & Hs & _).
  rewrite Hpass in Hp. symmetry in Hp. rewrite Hp in Hs. fold w1 in Hs.
  destruct (checkTradeLimits_spec w1) as (-> & _). rewrite Hs. simpl.
  apply andb_false_iff. right. apply negb_false_iff, Z.ltb_lt. exact Hsoon.
Qed.

(** X15.  [resetDailyTradeCount] sets the count to 0 and the reset time to
    the coming midnight UTC: a multiple of a day, later than the time of the
    call and at most a day later. *)
Theorem reset_is_due_at_the_coming_midnight w :
  let now := clock (reads w) in
  let s' := strategy (resetDailyTradeCount clock w).2 in
  dailyTradeCount s' = 0
  /\ now < dailyResetTime s' <= now + 86400000
  /\ dailyResetTime s' mod 86400000 = 0
  /\ lastTradeTime s' = lastTradeTime (strategy w)
  /\ strategyConfig s' = strategyConfig (strategy w).
Proof.
  unfold resetDailyTradeCount. unfold_monad. simpl.
  pose proof (Z.div_mod (clock (reads w)) 86400000 ltac:(lia)) as Hdm.
  pose proof (Z.mod_pos_bound (clock (reads w)) 86400000 ltac:(lia)) as Hb.
  split_and!; try done; try lia.
  by rewrite Z.mod_mul.
Qed.

(** X16.  The strategy's callback decides nothing: whatever its filters and
    limits answer, the detector, the opportunity objects and the pending
    executions are as before; for an opportunity that is not [pending], or
    that the filter rejects, it changes nothing at all. *)
Theorem strategy_callback_is_a_bystander o w :
  detector_side (handleOpportunity clock o w).2 = detector_side w
  /\ (status o <> pending -> handleOpportunity clock o w = (tt, w))
  /\ (filterOpportunity (strategyConfig (strategy w)) o = false ->
      handleOpportunity clock o w = (tt, w)).
Proof.
  split_and!.
  - apply handleOpportunity_frame.
  - unfold handleOpportunity. by destruct (status o).
  - intros Hf. unfold handleOpportunity.
    destruct (status o); try done. unfold_monad. by rewrite Hf.
Qed.

End StrategyProperties.


Lemma approvals_are_spaced_witness :
  (Arbitrage.checkTradeLimits ArbitrageExample.clock0
     (Arbitrage.checkTradeLimits ArbitrageExample.clock0
        ArbitrageExample.world0).2).1 = false.
Proof.
  apply (approvals_are_spaced ArbitrageExample.clock0 ArbitrageExample.world0);
    [reflexivity | vm_compute; reflexivity].
Defined.


(** * Properties of the retry loop of the transaction executor *)

Section ExecutorProperties.
Import Executor.

Variable clock : nat -> Z.
Variable network : nat -> Attempt.
Variable config : TransactionExecutorConfig.

Ltac unfold_attempt :=
  cbv [attempt mbind T_bind mret T_ret await throw Date_now
       signAndSendTransaction].

Lemma attempt_verdict a w :
  match (attempt clock config a w).1 with
  | Fulfilled result =>
      verdict clock config a = None
      /\ Execution.success result = true
      /\ Execution.error result = None
      /\ (exists n, Execution.confirmationTime result
                    = Some (clock (S n) - clock n))
      /\ exists signature,
           sendAndConfirmTransaction a = Fulfilled signature
           /\ Execution.signature result = Some signature
  | Rejected message => verdict clock config a = Some message
  end.
Proof.
  unfold verdict. unfold_attempt.
  destruct a as [[?|?] [[?|]|?] [?|?] [[?|]|?] [?|?]];
    destruct (simulateBeforeSubmit config); simpl; try done;
    (split_and!; [done .. | by eexists | by eexists]).
Qed.

Lemma attempts_snoc w c :
  attempts (mkWorld (reads w) (trace w ++ [c]))
  = (attempts w + if decide (c = GetLatestBlockhash) then 1 else 0)%nat.
Proof.
  unfold attempts. simpl. rewrite filter_app, length_app.
  f_equal. rewrite filter_cons, filter_nil. by destruct (decide _).
Qed.

Lemma submissions_snoc w c :
  submissions (mkWorld (reads w) (trace w ++ [c]))
  = (submissions w
     + if decide (c = SendAndConfirmTransaction) then 1 else 0)%nat.
Proof.
  unfold submissions. simpl. rewrite filter_app, length_app.
  f_equal. rewrite filter_cons, filter_nil. by destruct (decide _).
Qed.

Lemma delays_snoc w c :
  delays (mkWorld (reads w) (trace w ++ [c]))
  = delays w ++ match c with SetTimeout ms => [ms] | _ => [] end.
Proof.
  unfold delays. simpl. rewrite omap_app. f_equal. by destruct c.
Qed.

(** What one attempt adds to the trace. *)
Lemma attempt_trace a w :
  let w' := (attempt clock config a w).2 in
  attempts w' = S (attempts w)
  /\ delays w' = delays w
  /\ submissions w'
     = (submissions w + if reachesSubmit config a then 1 else 0)%nat.
Proof.
  unfold reachesSubmit. unfold_attempt.
  destruct a as [[?|?] [[?|]|?] [?|?] [[?|]|?] [?|?]];
    destruct (simulateBeforeSubmit config); simpl;
    unfold attempts, submissions, delays; simpl;
    rewrite ?filter_app, ?omap_app, ?length_app; simpl;
    rewrite ?app_nil_r; (split_and!; [lia | done | lia]).
Qed.

(** More fuel than the loop needs changes nothing. *)
Lemma retryLoop_fuel fuel fuel' r w :
  (Z.to_nat (maxRetries config + 1 - r) <= fuel)%nat ->
  (Z.to_nat (maxRetries config + 1 - r) <= fuel')%nat ->
  retryLoop clock network config fuel r w
  = retryLoop clock network config fuel' r w.
Proof.
  revert fuel' r w. induction fuel as [|fuel IH]; intros fuel' r w H H'.
  - destruct fuel' as [|fuel']; [done|]. simpl.
    destruct (Z.leb_spec r (maxRetries config)); [lia | done].
  - destruct fuel' as [|fuel']; simpl.
    + destruct (Z.leb_spec r (maxRetries config)); [lia | done].
    + destruct (Z.leb_spec r (maxRetries config)); [|done].
      destruct (attempt clock config (network (Z.to_nat r)) w)
        as [[result|message] w1]; [done|].
      destruct (Z.ltb_spec (maxRetries config) (r + 1)); [done|].
      apply IH; lia.
Qed.

Lemma retryLoop_attempts fuel r w :
  (attempts (retryLoop clock network config fuel r w).2
   <= attempts w + fuel)%nat.
Proof.
  revert r w. induction fuel as [|fuel IH]; intros r w; simpl; [lia|].
  destruct (r <=? maxRetries config); simpl; [|lia].
  pose proof (attempt_trace (network (Z.to_nat r)) w) as (Ha & _).
  destruct (attempt clock config (network (Z.to_nat r)) w)
    as [[result|message] w1]; simpl in *; [lia|].
  destruct (maxRetries config <? r + 1); simpl; [lia|].
  etrans; [apply IH|]. rewrite attempts_snoc. simpl. lia.
Qed.

Lemma retryLoop_submissions fuel r w :
  (forall i, reachesSubmit config (network i) = false) ->
  submissions (retryLoop clock network config fuel r w).2 = submissions w.
Proof.
  intros Hno. revert r w. induction fuel as [|fuel IH]; intros r w; simpl;
    [done|].
  destruct (r <=? maxRetries config); simpl; [|done].
  pose proof (attempt_trace (network (Z.to_nat r)) w) as (_ & _ & Hs).
  rewrite Hno in Hs.
  destruct (attempt clock config (network (Z.to_nat r)) w)
    as [[result|message] w1]; simpl in *; [lia|].
  destruct (maxRetries config <? r + 1); simpl; [lia|].
  rewrite IH, submissions_snoc. simpl. lia.
Qed.

(** [j] failed attempts in a row, with retries to spare: the loop goes
    round [j] times and sleeps after each. *)
Lemma retryLoop_failures (j : nat) fuel r w :
  0 <= r -> r + Z.of_nat j <= maxRetries config ->
  (forall i, (i < j)%nat ->
             verdict clock config (network (Z.to_nat r + i)%nat) <> None) ->
  exists w',
    retryLoop clock network config (j + fuel) r w
    = retryLoop clock network config fuel (r + Z.of_nat j) w'
    /\ attempts w' = (attempts w + j)%nat
    /\ delays w'
       = delays w ++ map (fun i => 1000 * (r + Z.of_nat i)) (seq 1 j)
    /\ ((forall i, (i < j)%nat ->
           reachesSubmit config (network (Z.to_nat r + i)%nat) = true) ->
        submissions w' = (submissions w + j)%nat).
Proof.
  revert r w. induction j as [|j IH]; intros r w Hr Hj Hfail.
  - exists w. simpl. rewrite Z.add_0_r, app_nil_r, !Nat.add_0_r. done.
  - change (S j + fuel)%nat with (S (j + fuel)). simpl retryLoop.
    destruct (Z.leb_spec r (maxRetries config)); [|lia].
    pose proof (attempt_verdict (network (Z.to_nat r)) w) as Hv.
    pose proof (attempt_trace (network (Z.to_nat r)) w) as (Ha & Hd & Hs).
    destruct (attempt clock config (network (Z.to_nat r)) w)
      as [[result|message] w1]; simpl in Hv, Ha, Hd, Hs.
    { destruct Hv as (Hv & _). specialize (Hfail 0%nat).
      rewrite Nat.add_0_r in Hfail. destruct Hfail; [lia | done]. }
    destruct (Z.ltb_spec (maxRetries config) (r + 1)); [lia|].
    destruct (IH (r + 1)
                (mkWorld (reads w1)
                   (trace w1 ++ [SetTimeout (1000 * (r + 1))])))
      as (w' & Heq & Ha' & Hd' & Hs'); [lia | lia | |].
    { intros i Hi. replace (Z.to_nat (r + 1) + i)%nat
        with (Z.to_nat r + S i)%nat by lia. apply Hfail. lia. }
    exists w'. split_and!.
    + rewrite Heq. f_equal. lia.
    + rewrite Ha', attempts_snoc. simpl. lia.
    + rewrite Hd', delays_snoc, Hd, <- app_assoc. f_equal. simpl. f_equal.
      rewrite <- (seq_shift j 1), map_map. apply map_ext. intros i. lia.
    + intros Hall. rewrite Hs', submissions_snoc, Hs.
      * specialize (Hall 0%nat). rewrite Nat.add_0_r in Hall.
        rewrite Hall by lia. simpl. lia.
      * intros i Hi. replace (Z.to_nat (r + 1) + i)%nat
          with (Z.to_nat r + S i)%nat by lia. apply Hall. lia.
Qed.

(** Every attempt the retries allow has failed. *)
Lemma executeTransaction_exhausted w message :
  0 <= maxRetries config ->
  (forall i, (i < Z.to_nat (maxRetries config))%nat ->
             verdict clock config (network i) <> None) ->
  verdict clock config (network (Z.to_nat (maxRetries config)))
  = Some message ->
  exists w',
    executeTransaction clock network config w
    = (failedAfter (maxRetries config + 1) message, w')
    /\ attempts w' = (attempts w + Z.to_nat (maxRetries config) + 1)%nat
    /\ delays w'
       = delays w ++ map (fun i => 1000 * Z.of_nat i)
                         (seq 1 (Z.to_nat (maxRetries config)))
    /\ ((forall i, reachesSubmit config (network i) = true) ->
        submissions w'
        = (submissions w + Z.to_nat (maxRetries config) + 1)%nat).
Proof.
  intros Hmax Hfail Hlast. unfold executeTransaction.
  replace (Z.to_nat (maxRetries config + 1))
    with (Z.to_nat (maxRetries config) + 1)%nat by lia.
  destruct (retryLoop_failures (Z.to_nat (maxRetries config)) 1 0 w)
    as (w1 & -> & Ha & Hd & Hs); [lia | lia | done |].
  simpl retryLoop.
  destruct (Z.leb_spec (0 + Z.of_nat (Z.to_nat (maxRetries config)))
              (maxRetries config)); [|lia].
  replace (Z.to_nat (0 + Z.of_nat (Z.to_nat (maxRetries config))))
    with (Z.to_nat (maxRetries config)) by lia.
  pose proof (attempt_verdict (network (Z.to_nat (maxRetries config))) w1)
    as Hv.
  pose proof (attempt_trace (network (Z.to_nat (maxRetries config))) w1)
    as (Ha' & Hd' & Hs').
  destruct (attempt clock config (network (Z.to_nat (maxRetries config))) w1)
    as [[result|message'] w2]; simpl in Hv, Ha', Hd', Hs'.
  { destruct Hv as (Hv & _). congruence. }
  assert (message' = message) as -> by congruence.
  destruct (Z.ltb_spec (maxRetries config)
              (0 + Z.of_nat (Z.to_nat (maxRetries config)) + 1)); [|lia].
  exists w2. split_and!.
  - do 2 f_equal. lia.
  - lia.
  - rewrite Hd', Hd. done.
  - intros Hall. rewrite Hs', Hall, Hs by (intros; apply Hall). lia.
Qed.

Lemma retryLoop_result fuel r w :
  r <= maxRetries config ->
  (Z.to_nat (maxRetries config + 1 - r) <= fuel)%nat ->
  let result := (retryLoop clock network config fuel r w).1 in
  Execution.success result = true
  \/ exists n message, result = failedAfter n message.
Proof.
  revert r w. induction fuel as [|fuel IH]; intros r w Hr Hfuel; [lia|].
  simpl. destruct (Z.leb_spec r (maxRetries config)); [|lia].
  pose proof (attempt_verdict (network (Z.to_nat r)) w) as Hv.
  destruct (attempt clock config (network (Z.to_nat r)) w)
    as [[result|message] w1]; simpl in *; [left; tauto|].
  destruct (Z.ltb_spec (maxRetries config) (r + 1)); simpl.
  - right. by do 2 eexists.
  - apply IH; lia.
Qed.

Lemma retryLoop_never_confirmed fuel r w :
  (forall i, verdict clock config (network i) <> None) ->
  Execution.success (retryLoop clock network config fuel r w).1 = false.
Proof.
  intros Hfail. revert r w. induction fuel as [|fuel IH]; intros r w; simpl;
    [done|].
  destruct (r <=? maxRetries config); [|done].
  pose proof (attempt_verdict (network (Z.to_nat r)) w) as Hv.
  destruct (attempt clock config (network (Z.to_nat r)) w)
    as [[result|message] w1]; simpl in *.
  { destruct Hv as (Hv & _). by apply Hfail in Hv. }
  destruct (maxRetries config <? r + 1); [done | apply IH].
Qed.

(** X17.  When attempt number [k] (counted from 0, within the retries
    allowed) is the first one that does not throw, [executeTransaction]
    returns its result: success, the signature of that attempt, the
    confirmation time read off the clock around it.  It has made [k + 1]
    attempts and slept 1000, 2000, ..., 1000 k milliseconds between them. *)
Theorem first_confirmed_attempt_ends_the_loop w (k : nat) :
  Z.of_nat k <= maxRetries config ->
  (forall i, (i < k)%nat -> verdict clock config (network i) <> None) ->
  verdict clock config (network k) = None ->
  let result := (executeTransaction clock network config w).1 in
  let w' := (executeTransaction clock network config w).2 in
  Execution.success result = true
  /\ Execution.error result = None
  /\ (exists signature,
        sendAndConfirmTransaction (network k) = Fulfilled signature
        /\ Execution.signature result = Some signature)
  /\ (exists n, Execution.confirmationTime result
                = Some (clock (S n) - clock n))
  /\ attempts w' = (attempts w + k + 1)%nat
  /\ delays w' = delays w ++ map (fun i => 1000 * Z.of_nat i) (seq 1 k).
Proof.
  intros Hk Hfail Hok. unfold executeTransaction.
  replace (Z.to_nat (maxRetries config + 1))
    with (k + S (Z.to_nat (maxRetries config) - k))%nat by lia.
  destruct (retryLoop_failures k (S (Z.to_nat (maxRetries config) - k)) 0 w)
    as (w1 & -> & Ha & Hd & _); [lia | lia | done |].
  simpl retryLoop.
  destruct (Z.leb_spec (0 + Z.of_nat k) (maxRetries config)); [|lia].
  replace (Z.to_nat (0 + Z.of_nat k)) with k by lia.
  pose proof (attempt_verdict (network k) w1) as Hv.
  pose proof (attempt_trace (network k) w1) as (Ha' & Hd' & _).
  destruct (attempt clock config (network k) w1)
    as [[result|message] w2]; simpl in *; [|congruence].
  destruct Hv as (_ & Hs & He & Hn & Hsig).
  split_and!; try done; [lia | by rewrite Hd', Hd].
Qed.

(** X18.  When every attempt the retries allow throws, [executeTransaction]
    returns a failure that reports [maxRetries + 1] attempts and the message
    of the last one.  It has made that many attempts and slept 1000, 2000,
    ..., 1000 [maxRetries] milliseconds between them; it does not sleep
    after the last. *)
Theorem gives_up_after_the_budget w message :
  0 <= maxRetries config ->
  (forall i, (i < Z.to_nat (maxRetries config))%nat ->
             verdict clock config (network i) <> None) ->
  verdict clock config (network (Z.to_nat (maxRetries config)))
  = Some message ->
  let result := (executeTransaction clock network config w).1 in
  let w' := (executeTransaction clock network config w).2 in
  result = failedAfter (maxRetries config + 1) message
  /\ attempts w' = (attempts w + Z.to_nat (maxRetries config) + 1)%nat
  /\ delays w'
     = delays w ++ map (fun i => 1000 * Z.of_nat i)
                       (seq 1 (Z.to_nat (maxRetries config))).
Proof.
  intros Hmax Hfail Hlast.
  destruct (executeTransaction_exhausted w message Hmax Hfail Hlast)
    as (w' & -> & Ha & Hd & _).
  done.
Qed.

(** X19.  [executeTransaction] makes at most [maxRetries + 1] attempts, and
    its loop needs no more iterations than that.  The result
    'Transaction failed for unknown reason' after the loop is returned
    exactly when [maxRetries] is negative, and then nothing was attempted. *)
Theorem attempts_stay_within_budget w :
  let result := (executeTransaction clock network config w).1 in
  let w' := (executeTransaction clock network config w).2 in
  (attempts w' <= attempts w + Z.to_nat (maxRetries config + 1))%nat
  /\ (forall fuel, (Z.to_nat (maxRetries config + 1) <= fuel)%nat ->
        retryLoop clock network config fuel 0 w
        = executeTransaction clock network config w)
  /\ (result = unknownReason <-> maxRetries config < 0)
  /\ (maxRetries config < 0 -> w' = w).
Proof.
  split_and!.
  - apply retryLoop_attempts.
  - intros fuel Hfuel. apply retryLoop_fuel; lia.
  - split.
    + intros Hres. destruct (Z.lt_ge_cases (maxRetries config) 0); [done|].
      destruct (retryLoop_result (Z.to_nat (maxRetries config + 1)) 0 w)
        as [Hs | (n & message & Hf)]; [lia | lia | |].
      * unfold executeTransaction in Hres. by rewrite Hres in Hs.
      * unfold executeTransaction in Hres. rewrite Hres in Hf.
        unfold unknownReason, failedAfter in Hf. simpl in Hf. done.
    + intros Hneg. unfold executeTransaction.
      replace (Z.to_nat (maxRetries config + 1)) with 0%nat by lia. done.
  - intros Hneg. unfold executeTransaction.
    replace (Z.to_nat (maxRetries config + 1)) with 0%nat by lia. done.
Qed.

(** X20.  With [simulateBeforeSubmit] on, a transaction whose simulation
    never comes back clean is never sent, and the result is a failure. *)
Theorem failed_simulation_blocks_submission w :
  simulateBeforeSubmit config = true ->
  (forall i, simulateTransaction (network i) <> Fulfilled None) ->
  let result := (executeTransaction clock network config w).1 in
  let w' := (executeTransaction clock network config w).2 in
  submissions w' = submissions w /\ Execution.success result = false.
Proof.
  intros Hsim Hbad. split.
  - apply retryLoop_submissions. intros i. unfold reachesSubmit.
    rewrite Hsim. specialize (Hbad i).
    destruct (getLatestBlockhash (network i)); [|done].
    by destruct (simulateTransaction (network i)) as [[?|]|?].
  - apply retryLoop_never_confirmed. intros i. unfold verdict.
    unfold_attempt. rewrite Hsim. specialize (Hbad i).
    destruct (getLatestBlockhash (network i)); simpl; [|done].
    by destruct (simulateTransaction (network i)) as [[?|]|?].
Qed.

(** X21.  A transaction that is sent but whose confirmation reports an error
    is sent again in the next attempt: when this happens every time, it has
    been sent [maxRetries + 1] times by the time the failure is returned. *)
Theorem unconfirmed_transaction_is_sent_again w :
  0 <= maxRetries config ->
  (forall i, exists blockhash signature json,
     getLatestBlockhash (network i) = Fulfilled blockhash
     /\ simulateTransaction (network i) = Fulfilled None
     /\ sendAndConfirmTransaction (network i) = Fulfilled signature
     /\ confirmTransaction (network i) = Fulfilled (Some json)) ->
  let result := (executeTransaction clock network config w).1 in
  let w' := (executeTransaction clock network config w).2 in
  submissions w' = (submissions w + Z.to_nat (maxRetries config) + 1)%nat
  /\ exists json,
       confirmTransaction (network (Z.to_nat (maxRetries config)))
       = Fulfilled (Some json)
       /\ result = failedAfter (maxRetries config + 1)
                     ("Transaction confirmation failed: " +:+ json).
Proof.
  intros Hmax Hnet.
  assert (forall i, reachesSubmit config (network i) = true) as Hreach.
  { intros i. destruct (Hnet i) as (? & ? & ? & Hb & Hs & _).
    unfold reachesSubmit. rewrite Hb, Hs. by destruct (simulateBeforeSubmit _). }
  assert (forall i, exists json,
            confirmTransaction (network i) = Fulfilled (Some json)
            /\ verdict clock config (network i)
               = Some ("Transaction confirmation failed: " +:+ json))
    as Hverdict.
  { intros i. destruct (Hnet i) as (? & ? & json & Hb & Hs & Hse & Hc).
    exists json. split; [done|]. unfold verdict. unfold_attempt.
    rewrite Hb, Hs, Hse, Hc. by destruct (simulateBeforeSubmit _). }
  destruct (Hverdict (Z.to_nat (maxRetries config))) as (json & Hc & Hv).
  assert (forall i, (i < Z.to_nat (maxRetries config))%nat ->
            verdict clock config (network i) <> None) as Hfail.
  { intros i _. destruct (Hverdict i) as (? & _ & ->). done. }
  destruct (executeTransaction_exhausted w _ Hmax Hfail Hv)
    as (w' & -> & _ & _ & Hs).
  split; [by apply Hs | by exists json].
Qed.
End ExecutorProperties.


Lemma first_confirmed_attempt_ends_the_loop_witness :
  let run := Executor.executeTransaction ExecutorExample.clock0
               ExecutorExample.thirdTime ExecutorExample.config0
               ExecutorExample.world0 in
  Execution.success run.1 = true
  /\ Executor.attempts run.2 = 3%nat
  /\ Executor.delays run.2 = [1000; 2000].
Proof.
  intros run.
  destruct (first_confirmed_attempt_ends_the_loop ExecutorExample.clock0
              ExecutorExample.thirdTime ExecutorExample.config0
              ExecutorExample.world0 2)
    as (H1 & _ & _ & _ & H5 & H6).
  - vm_compute. discriminate.
  - intros [|[|i]] Hi; [vm_compute; discriminate .. | lia].
  - vm_compute. reflexivity.
  - exact (conj H1 (conj H5 H6)).
Defined.

Lemma gives_up_after_the_budget_witness :
  let run := Executor.executeTransaction ExecutorExample.clock0
               (fun _ => ExecutorExample.unconfirmed) ExecutorExample.config0
               ExecutorExample.world0 in
  run.1 = Executor.failedAfter 4 "Transaction confirmation failed: {}"
  /\ Executor.attempts run.2 = 4%nat
  /\ Executor.delays run.2 = [1000; 2000; 3000].
Proof.
  intros run.
  apply (gives_up_after_the_budget ExecutorExample.clock0
           (fun _ => ExecutorExample.unconfirmed) ExecutorExample.config0
           ExecutorExample.world0 "Transaction confirmation failed: {}").
  - vm_compute. discriminate.
  - intros i _. vm_compute. discriminate.
  - vm_compute. reflexivity.
Defined.

Lemma failed_simulation_blocks_submission_witness :
  let run := Executor.executeTransaction ExecutorExample.clock0
               (fun _ => ExecutorExample.unsimulated) ExecutorExample.config0
               ExecutorExample.world0 in
  Executor.submissions run.2 = 0%nat /\ Execution.success run.1 = false.
Proof.
  intros run.
  apply (failed_simulation_blocks_submission ExecutorExample.clock0
           (fun _ => ExecutorExample.unsimulated) ExecutorExample.config0
           ExecutorExample.world0).
  - reflexivity.
  - intros _. discriminate.
Defined.

Lemma unconfirmed_transaction_is_sent_again_witness :
  let run := Executor.executeTransaction ExecutorExample.clock0
               (fun _ => ExecutorExample.unconfirmed) ExecutorExample.config0
               ExecutorExample.world0 in
  Executor.submissions run.2 = 4%nat.
Proof.
  intros run.
  apply (unconfirmed_transaction_is_sent_again ExecutorExample.clock0
           (fun _ => ExecutorExample.unconfirmed) ExecutorExample.config0
           ExecutorExample.world0).
  - vm_compute. discriminate.
  - intros _. by exists "hash", "sig", "{}".
Defined.


(** * Further properties of the swap and arbitrage executors *)

Section ExecutionVenueProperties.
Import Execution.

Variable Net : Type.
Variable executeTransaction :
  TransactionInstruction -> Net -> TransactionResult * Net.
Variable TOKEN_PROGRAM_ID : string.
Variable clock : nat -> Z.

Ltac unfold_monad :=
  cbv [mbind M_bind mret M_ret Date_now recordCall submit] in *.

Lemma createSwapInstruction_known params :
  match createSwapInstruction TOKEN_PROGRAM_ID params with
  | inl message =>
      (sourceDex params ∉ ["Serum"; "Raydium"; "Orca"])
      /\ message = "Unsupported DEX: " +:+ sourceDex params
  | inr instruction =>
      (sourceDex params ∈ ["Serum"; "Raydium"; "Orca"])
      /\ keys instruction
         = [sourcePool params; userSourceTokenAccount params;
            userDestinationTokenAccount params; TOKEN_PROGRAM_ID]
  end.
Proof.
  unfold createSwapInstruction.
  destruct (String.eqb_spec (sourceDex params) "Serum") as [->|H1];
    [split; [apply list_elem_of_here | done]|].
  destruct (String.eqb_spec (sourceDex params) "Raydium") as [->|H2];
    [split; [apply list_elem_of_further, list_elem_of_here | done]|].
  destruct (String.eqb_spec (sourceDex params) "Orca") as [->|H3];
    [split; [do 2 apply list_elem_of_further; apply list_elem_of_here
            | done]|].
  split; [|done]. rewrite !not_elem_of_cons.
  split_and!; try done. apply not_elem_of_nil.
Qed.

(** X22.  [executeSwap] sends a transaction exactly when the venue is one of
    Serum, Raydium and Orca (spelled so): then it sends one, whose accounts
    are the pool, the two user accounts and the token program, and reports
    what the transaction executor returned.  For any other venue it sends
    nothing and returns a failure whose error names the venue. *)
Theorem swap_is_sent_only_for_known_venues params (w : World Net) :
  let r := (executeSwap executeTransaction TOKEN_PROGRAM_ID params w).1 in
  let w' := (executeSwap executeTransaction TOKEN_PROGRAM_ID params w).2 in
  (sourceDex params ∉ ["Serum"; "Raydium"; "Orca"] ->
     net w' = net w
     /\ success (transactionResult r) = false
     /\ outputAmount r = None
     /\ error (transactionResult r)
        = Some ("Swap execution failed: Unsupported DEX: "
                +:+ sourceDex params))
  /\ (sourceDex params ∈ ["Serum"; "Raydium"; "Orca"] ->
      exists instruction,
        keys instruction
        = [sourcePool params; userSourceTokenAccount params;
           userDestinationTokenAccount params; TOKEN_PROGRAM_ID]
        /\ (transactionResult r, net w')
           = executeTransaction instruction (net w)).
Proof.
  unfold executeSwap. unfold_monad. simpl.
  pose proof (createSwapInstruction_known params) as Hk.
  destruct (createSwapInstruction TOKEN_PROGRAM_ID params)
    as [message | instruction]; simpl.
  - destruct Hk as (Hk & ->). split; [done | by intros ?].
  - destruct Hk as (Hk & Hkeys). split; [by intros ? |]. intros _.
    exists instruction. split; [done|].
    destruct (executeTransaction instruction (net w)) as [result n]. simpl.
    by destruct (success result).
Qed.

(** X23.  When [executeArbitrage] reports success, the profit it reports is
    computed from the opportunity and the slippage tolerance alone: each
    swap's output is taken as its requested minimum times 1.01, so the
    profit is the target swap's minimum times 1.01 less the input amount,
    whatever the network did.  Both swaps were called, in order, and the
    clock was read twice, the execution time being the difference. *)
Theorem reported_profit_is_the_estimate params (w : World Net) :
  let res :=
    (executeArbitrage executeTransaction TOKEN_PROGRAM_ID clock params w).1 in
  let w' :=
    (executeArbitrage executeTransaction TOKEN_PROGRAM_ID clock params w).2 in
  let leg1 := sourceSwapParams params in
  let leg2 :=
    targetSwapParams params (minOutputAmount leg1 * (101 # 100))%Q in
  arbitrage_success res = true ->
  profit res
  = Some (minOutputAmount leg2 * (101 # 100) - sourceInputAmount params)%Q
  /\ calls w' = calls w ++ [leg1; leg2]
  /\ reads w' = S (S (reads w))
  /\ executionTime res = Some (clock (S (reads w)) - clock (reads w))
  /\ arbitrage_error res = None.
Proof.
  intros res w' leg1 leg2. subst res w'.
  unfold executeArbitrage.
  pose proof (executeSwap_effect Net executeTransaction TOKEN_PROGRAM_ID
                leg1 (mkWorld (net w) (S (reads w)) (calls w)))
    as (Hc1 & Hr1 & Ho1).
  cbv [mbind M_bind mret M_ret] in *. unfold Date_now.
  simpl in *. fold leg1.
  destruct (executeSwap executeTransaction TOKEN_PROGRAM_ID leg1 _)
    as [r1 w1]. simpl in *.
  destruct (success (transactionResult r1)) eqn:Hs1; simpl; [|done].
  rewrite Ho1. simpl.
  destruct (Qeq_bool (minOutputAmount leg1 * (101 # 100)) 0) eqn:Hz1; simpl;
    [done|]. fold leg2.
  pose proof (executeSwap_effect Net executeTransaction TOKEN_PROGRAM_ID
                leg2 w1) as (Hc2 & Hr2 & Ho2).
  destruct (executeSwap executeTransaction TOKEN_PROGRAM_ID leg2 w1)
    as [r2 w2]. simpl in *.
  destruct (success (transactionResult r2)) eqn:Hs2; simpl; [|done].
  rewrite Ho2. simpl.
  destruct (Qeq_bool (minOutputAmount leg2 * (101 # 100)) 0) eqn:Hz2; simpl;
    [done|].
  intros _. split_and!; try done.
  - by rewrite Hc2, Hc1, <- app_assoc.
  - by rewrite Hr2, Hr1.
  - by rewrite Hr2, Hr1.
Qed.

End ExecutionVenueProperties.


(** * Properties of the quotes of the pool venues *)

Section ProviderProperties.
Import Collector.

Ltac halves := unfold Qdiv; change (/ 2)%Q with (1 # 2)%Q.

Lemma simulateFetchReserve_sign random address amount :
  (0 <= random)%Q ->
  RaydiumMarketProvider.simulateFetchReserve random address = Some amount ->
  (0 <= amount)%Q /\ (amount == 0 <-> random == 0)%Q.
Proof.
  unfold RaydiumMarketProvider.simulateFetchReserve,
         RaydiumMarketProvider.charCodeAt0.
  intros Hr H. destruct address as [|a s]; [done|]. simplify_eq.
  assert (0 <= inject_Z (Z.of_N (Ascii.N_of_ascii a)) / 255)%Q as Hseed.
  { apply Qle_shift_div_l; [reflexivity|]. rewrite Qmult_0_l.
    change 0%Q with (inject_Z 0). rewrite <- Zle_Qle. lia. }
  set (seed := (inject_Z (Z.of_N (Ascii.N_of_ascii a)) / 255)%Q) in *.
  split; [nra|]. split; intros H; [nra | rewrite H; lra].
Qed.

Lemma Qeq_bool_false (x y : Q) : Qeq_bool x y = false <-> ~ (x == y)%Q.
Proof.
  split; [apply Qeq_bool_neq|]. intros H.
  destruct (Qeq_bool x y) eqn:E; [|done]. by apply Qeq_bool_iff in E.
Qed.

Lemma Raydium_getPrice_Some pools random1 random2 now pair q :
  (0 <= random1)%Q -> (0 <= random2)%Q ->
  RaydiumMarketProvider.getPrice pools random1 random2 now pair = Some q ->
  exists price,
    q = mkPrice (price - price * (5 # 1000) / 2)
                (price + price * (5 # 1000) / 2) (Some price) now
    /\ (0 < price)%Q
    /\ is_Some (pools !! pair)
    /\ ~ (random1 == 0)%Q /\ ~ (random2 == 0)%Q.
Proof.
  unfold RaydiumMarketProvider.getPrice. intros H1 H2 H.
  destruct (pools !! pair) as [pool|]; [|done].
  destruct (RaydiumMarketProvider.simulateFetchReserve random1 _)
    as [b|] eqn:Eb; [|done].
  destruct (RaydiumMarketProvider.simulateFetchReserve random2 _)
    as [c|] eqn:Ec; [|done].
  destruct (simulateFetchReserve_sign _ _ _ H1 Eb) as (Hb & Hb0).
  destruct (simulateFetchReserve_sign _ _ _ H2 Ec) as (Hc & Hc0).
  destruct (Qeq_bool b 0) eqn:Zb; [done|].
  destruct (Qeq_bool c 0) eqn:Zc; [done|]. simpl in H.
  apply Qeq_bool_false in Zb, Zc. injection H as <-.
  exists (c / b)%Q. split_and!; try done; try tauto.
  assert (0 < b)%Q as Hb'.
  { destruct (Qlt_le_dec 0 b) as [|Hle]; [done|].
    destruct Zb. by apply Qle_antisym. }
  assert (0 < c)%Q as Hc'.
  { destruct (Qlt_le_dec 0 c) as [|Hle]; [done|].
    destruct Zc. by apply Qle_antisym. }
  apply Qlt_shift_div_l; [done | by rewrite Qmult_0_l].
Qed.

Lemma Orca_getPrice_Some pools sqrtPrice liquidity now pair q :
  OrcaMarketProvider.getPrice pools sqrtPrice liquidity now pair = Some q ->
  exists price,
    q = mkPrice (price - price * (4 # 1000) / 2)
                (price + price * (4 # 1000) / 2) (Some price) now
    /\ price = (sqrtPrice * sqrtPrice)%Q
    /\ (0 < price)%Q
    /\ pair ∈ pools
    /\ ~ (sqrtPrice == 0)%Q /\ ~ (liquidity == 0)%Q.
Proof.
  unfold OrcaMarketProvider.getPrice. intros H.
  destruct (bool_decide_reflect (pair ∈ pools)); [|done].
  destruct (Qeq_bool sqrtPrice 0) eqn:Zs; [done|].
  destruct (Qeq_bool liquidity 0) eqn:Zl; [done|]. simpl in H.
  apply Qeq_bool_false in Zs, Zl. injection H as <-.
  eexists. split_and!; try done.
  destruct (Qlt_le_dec 0 (sqrtPrice * sqrtPrice)) as [|Hle]; [done|].
  exfalso. apply Zs. nra.
Qed.

Lemma comparePair_uncrossed_venues self p now a b :
  (Analyzer.pd_bid b <= Analyzer.pd_ask a)%Q ->
  (Analyzer.pd_bid a <= Analyzer.pd_ask b)%Q ->
  Analyzer.comparePair self p now a b = [].
Proof.
  intros H1 H2. unfold Analyzer.comparePair, Analyzer.buyBlock,
    Analyzer.sellBlock.
  destruct (_ || _); [done|].
  apply Qltb_false in H1, H2. by rewrite H1, H2.
Qed.

(** X24.  A quote Raydium's [getPrice] returns stands around the pool price
    [quote reserve / base reserve]: that price is positive, the bid is below
    it and the ask above it, 0.5 % of the price apart, and the timestamp is
    the time of the call.  It returns a quote exactly when the pair has a
    pool, the two reserve addresses are not empty and neither random draw
    is 0. *)
Theorem raydium_quote_straddles_the_pool_price pools random1 random2 now pair :
  (0 <= random1)%Q -> (0 <= random2)%Q ->
  let answer :=
    RaydiumMarketProvider.getPrice pools random1 random2 now pair in
  (forall q, answer = Some q ->
     exists price,
       last q = Some price
       /\ (0 < price)%Q
       /\ (bid q < price)%Q /\ (price < ask q)%Q
       /\ (ask q - bid q == price * (5 # 1000))%Q
       /\ timestamp q = now)
  /\ (is_Some answer <->
      exists pool,
        pools !! pair = Some pool
        /\ RaydiumMarketProvider.baseReserve pool <> EmptyString
        /\ RaydiumMarketProvider.quoteReserve pool <> EmptyString
        /\ ~ (random1 == 0)%Q /\ ~ (random2 == 0)%Q).
Proof.
  intros H1 H2 answer. subst answer. split.
  - intros q (price & -> & Hp & _)%Raydium_getPrice_Some; [|done..].
    exists price. simpl. split_and!; try done; halves; lra.
  - split.
    + intros [q Hq].
      destruct (Raydium_getPrice_Some _ _ _ _ _ _ H1 H2 Hq)
        as (_ & _ & _ & _ & Hr1 & Hr2).
      unfold RaydiumMarketProvider.getPrice,
        RaydiumMarketProvider.simulateFetchReserve,
        RaydiumMarketProvider.charCodeAt0 in Hq.
      destruct (pools !! pair) as [pool|]; [|done]. exists pool.
      destruct (RaydiumMarketProvider.baseReserve pool); [done|].
      destruct (RaydiumMarketProvider.quoteReserve pool); [done|].
      done.
    + intros (pool & Hpool & Hb & Hq & Hr1 & Hr2).
      unfold RaydiumMarketProvider.getPrice. rewrite Hpool.
      destruct (RaydiumMarketProvider.simulateFetchReserve random1 _)
        as [b|] eqn:Eb.
      2:{ unfold RaydiumMarketProvider.simulateFetchReserve,
            RaydiumMarketProvider.charCodeAt0 in Eb.
          by destruct (RaydiumMarketProvider.baseReserve pool). }
      destruct (RaydiumMarketProvider.simulateFetchReserve random2 _)
        as [c|] eqn:Ec.
      2:{ unfold RaydiumMarketProvider.simulateFetchReserve,
            RaydiumMarketProvider.charCodeAt0 in Ec.
          by destruct (RaydiumMarketProvider.quoteReserve pool). }
      destruct (simulateFetchReserve_sign _ _ _ H1 Eb) as (_ & Hb0).
      destruct (simulateFetchReserve_sign _ _ _ H2 Ec) as (_ & Hc0).
      assert (Qeq_bool b 0 = false) as -> by (apply Qeq_bool_false; tauto).
      assert (Qeq_bool c 0 = false) as -> by (apply Qeq_bool_false; tauto).
      done.
Qed.

(** X25.  A quote Orca's [getPrice] returns stands around the square of the
    pool's [sqrtPrice], which is positive even for a negative [sqrtPrice]:
    the bid is below it and the ask above it, 0.4 % of the price apart.  It
    returns a quote exactly when the pair has a pool and neither [sqrtPrice]
    nor [liquidity] is 0. *)
Theorem orca_quote_straddles_the_pool_price pools sqrtPrice liquidity now pair :
  let answer :=
    OrcaMarketProvider.getPrice pools sqrtPrice liquidity now pair in
  (forall q, answer = Some q ->
     exists price,
       last q = Some price
       /\ price = (sqrtPrice * sqrtPrice)%Q
       /\ (0 < price)%Q
       /\ (bid q < price)%Q /\ (price < ask q)%Q
       /\ (ask q - bid q == price * (4 # 1000))%Q
       /\ timestamp q = now)
  /\ (is_Some answer <->
      pair ∈ pools /\ ~ (sqrtPrice == 0)%Q /\ ~ (liquidity == 0)%Q).
Proof.
  intros answer. subst answer. split.
  - intros q (price & -> & Hprice & Hp & _)%Orca_getPrice_Some.
    exists price. simpl. split_and!; try done; halves; lra.
  - split.
    + intros [q (_ & _ & _ & _ & ? & ? & ?)%Orca_getPrice_Some]. done.
    + intros (Hin & Hs & Hl). unfold OrcaMarketProvider.getPrice.
      rewrite bool_decide_eq_true_2 by done.
      assert (Qeq_bool sqrtPrice 0 = false) as ->
        by (by apply Qeq_bool_false).
      assert (Qeq_bool liquidity 0 = false) as ->
        by (by apply Qeq_bool_false).
      done.
Qed.

(** X26.  When the pool prices of Raydium and Orca are within 0.4 % of each
    other, the analyzer finds no opportunity between the two venues' quotes,
    whatever its settings and the clock: the spreads the two providers add
    keep the books uncrossed. *)
Theorem close_pool_prices_yield_no_opportunity self clock t
    pools random1 random2 orcaPools sqrtPrice liquidity t1 t2 pair a b pR pO :
  (0 <= random1)%Q -> (0 <= random2)%Q ->
  RaydiumMarketProvider.getPrice pools random1 random2 t1 pair = Some a ->
  OrcaMarketProvider.getPrice orcaPools sqrtPrice liquidity t2 pair = Some b ->
  last a = Some pR -> last b = Some pO ->
  (pR * (996 # 1000) <= pO)%Q -> (pO <= pR * (1004 # 1000))%Q ->
  let raydium := CollectorMore.record "Raydium" pair a in
  let orca := CollectorMore.record "Orca" pair b in
  (Analyzer.findArbitrageOpportunities self clock t
     [(pair, [raydium; orca])]).1 = []
  /\ (Analyzer.findArbitrageOpportunities self clock t
        [(pair, [orca; raydium])]).1 = [].
Proof.
  intros H1 H2 (p & -> & Hp & _)%Raydium_getPrice_Some
         (p' & -> & _ & Hp' & _)%Orca_getPrice_Some; [|done..].
  simpl. intros [= ->] [= ->] Hlo Hhi.
  unfold Analyzer.findArbitrageOpportunities. simpl.
  rewrite !comparePair_uncrossed_venues; simpl; try done; halves; lra.
Qed.
End ProviderProperties.


(** * Further properties of the detector *)

Section DetectorProperties.
Import Arbitrage DetectorRun.

Variable clock : nat -> Z.

Ltac unfold_monad :=
  cbv [mbind M_bind bind mret M_ret ret get modify Date_now modifyObject
       newObject] in *.

Lemma checkTradeLimits_reads w :
  (reads w <= reads (checkTradeLimits clock w).2)%nat.
Proof.
  destruct (checkTradeLimits_spec clock w) as (_ & _ & ->).
  destruct (_ <? _); lia.
Qed.

Lemma handleOpportunity_reads o w :
  (reads w <= reads (handleOpportunity clock o w).2)%nat.
Proof.
  unfold handleOpportunity. destruct (status o); try (simpl; lia).
  unfold_monad. destruct (negb _); [simpl; lia|].
  pose proof (checkTradeLimits_reads w) as H.
  destruct (checkTradeLimits clock w) as [passed w']. simpl in H.
  by destruct (negb passed).
Qed.

Lemma notifyOpportunityCallbacks_reads ref w :
  (reads w <= reads (notifyOpportunityCallbacks clock ref w).2)%nat.
Proof.
  unfold notifyOpportunityCallbacks. unfold_monad.
  destruct (objects w !! ref); [apply handleOpportunity_reads | simpl; lia].
Qed.

Lemma executeOpportunity_reads ref w :
  (S (reads w) <= reads (executeOpportunity clock ref w).2)%nat.
Proof.
  unfold executeOpportunity. unfold_monad. simpl.
  match goal with
  | |- context [notifyOpportunityCallbacks clock ref ?w1] =>
      pose proof (notifyOpportunityCallbacks_reads ref w1) as H;
      destruct (notifyOpportunityCallbacks clock ref w1) as [u w2]
  end.
  simpl in *. by destruct (objects w !! ref).
Qed.

(** What [evaluateForExecution] does to the clock and to the detector. *)
Lemma evaluateForExecution_steps ref w :
  let w' := (evaluateForExecution clock ref w).2 in
  (reads w <= reads w')%nat
  /\ config (detector w') = config (detector w)
  /\ (detector_side w' = detector_side w
      \/ (cooldownMs (config (detector w))
          <= clock (reads w) - lastExecutionTime (detector w)
          /\ timers w' = timers w ++ [ref]
          /\ activeExecutions (detector w')
             = activeExecutions (detector w) + 1
          /\ lastExecutionTime (detector w') = clock (S (reads w))
          /\ (S (S (reads w)) <= reads w')%nat)).
Proof.
  unfold evaluateForExecution. unfold_monad.
  destruct (negb _); [simpl; split_and!; [lia | done | by left]|].
  destruct (_ <=? _); [simpl; split_and!; [lia | done | by left]|].
  destruct (Z.ltb_spec (clock (reads w) - lastExecutionTime (detector w))
              (cooldownMs (config (detector w))));
    [simpl; split_and!; [lia | done | by left]|].
  destruct (objects w !! ref) as [o|] eqn:Ho;
    [|simpl; split_and!; [lia | done | by left]].
  destruct (Qltb _ _); [simpl; split_and!; [lia | done | by left]|].
  pose proof (executeOpportunity_side clock ref (setReads (S (reads w)) w))
    as Hside.
  pose proof (executeOpportunity_reads ref (setReads (S (reads w)) w)) as Hr.
  destruct (executeOpportunity clock ref (setReads (S (reads w)) w))
    as [u w']. unfold detector_side in Hside. simpl in *.
  injection Hside as Hd Hobj Ht. rewrite Hd, Ht. simpl.
  split_and!; [lia | done |]. right. split_and!; try done.
Qed.

(** One opportunity of the loop, when at most one execution was started
    since [w0] and clock reads below number [N] are less than the cooldown
    apart. *)
Lemma ingestOne_atMostOneStarted (N : nat) opp w0 w :
  (forall n m, (reads w0 <= n)%nat -> (n < m)%nat -> (m < N)%nat ->
               clock m - clock n < cooldownMs (config (detector w0))) ->
  (reads (ingestOne clock opp w).2 <= N)%nat ->
  atMostOneStarted clock w0 w ->
  atMostOneStarted clock w0 (ingestOne clock opp w).2
  /\ (reads w <= reads (ingestOne clock opp w).2)%nat.
Proof.
  intros Hclock. unfold ingestOne. unfold_monad.
  destruct (detectedOpportunities (detector w) !! generateOpportunityId opp)
    as [ref|] eqn:Hid; simpl; [done|].
  match goal with
  | |- context [notifyOpportunityCallbacks clock ?r ?w1] =>
      pose proof (notifyOpportunityCallbacks_frame clock r w1) as H;
      pose proof (notifyOpportunityCallbacks_reads r w1) as Hreads;
      destruct (notifyOpportunityCallbacks clock r w1) as [u w2]
  end.
  unfold detector_side in H. simpl in H, Hreads. injection H as Hd Ho Ht.
  pose proof (evaluateForExecution_steps (length (objects w)) w2)
    as (Hr & Hc & Hcases).
  destruct (evaluateForExecution clock (length (objects w)) w2) as [u' w3].
  simpl in *. intros HN (Hcfg & Hr0 & Hstate).
  split; [|lia]. unfold atMostOneStarted.
  rewrite Hc, Hd. simpl. split_and!; [done | lia |].
  destruct Hcases as [Hsame | (Hcool & Ht3 & Ha3 & Hl3 & Hr3)].
  - unfold detector_side in Hsame. injection Hsame as Hd3 _ Ht3.
    rewrite Hd3, Ht3, Hd, Ht. simpl.
    destruct Hstate as [? | (r & k & ? & ? & ? & ?)]; [by left|].
    right. exists r, k. split_and!; try done; lia.
  - rewrite Hd in Hcool, Ha3. simpl in Hcool, Ha3.
    destruct Hstate as [(Ht0 & Ha0 & Hl0) | (r & k & _ & _ & Hl & Hk)].
    + right. exists (length (objects w)), (S (reads w2)).
      rewrite Ht3, Ha3, Hl3, Ht, Ht0, Ha0. split_and!; try done; lia.
    + exfalso. rewrite Hl, Hcfg in Hcool.
      specialize (Hclock k (reads w2)). lia.
Qed.

Lemma ingest_reads opps w :
  (reads w <= reads (ingest clock opps w).2)%nat.
Proof.
  revert w. induction opps as [|opp opps IH]; intros w; [simpl; lia|].
  rewrite ingest_cons. etrans; [|apply IH].
  unfold ingestOne. unfold_monad.
  destruct (detectedOpportunities (detector w) !! generateOpportunityId opp);
    simpl; [lia|].
  match goal with
  | |- context [notifyOpportunityCallbacks clock ?r ?w1] =>
      pose proof (notifyOpportunityCallbacks_reads r w1) as Hreads;
      destruct (notifyOpportunityCallbacks clock r w1) as [u w2]
  end.
  pose proof (evaluateForExecution_steps (length (objects w)) w2) as (Hr & _).
  destruct (evaluateForExecution clock (length (objects w)) w2) as [u' w3].
  simpl in *. lia.
Qed.

Lemma ingest_atMostOneStarted (N : nat) opps w0 w :
  (forall n m, (reads w0 <= n)%nat -> (n < m)%nat -> (m < N)%nat ->
               clock m - clock n < cooldownMs (config (detector w0))) ->
  (reads (ingest clock opps w).2 <= N)%nat ->
  atMostOneStarted clock w0 w ->
  atMostOneStarted clock w0 (ingest clock opps w).2.
Proof.
  intros Hclock. revert w. induction opps as [|opp opps IH]; intros w HN Hw;
    [done|].
  rewrite ingest_cons in *. apply IH; [done|].
  apply (ingestOne_atMostOneStarted N); [done | | done].
  etrans; [apply ingest_reads | done].
Qed.

(** X27.  A delivery during which the clock advances by less than the
    cooldown starts at most one execution, however many opportunities it
    brings and however many slots are free. *)
Theorem short_delivery_starts_at_most_one_execution opps w :
  let w' := (handleOpportunities clock opps w).2 in
  (forall n m, (reads w <= n)%nat -> (n < m)%nat -> (m < reads w')%nat ->
               clock m - clock n < cooldownMs (config (detector w))) ->
  (timers w' = timers w
   /\ activeExecutions (detector w') = activeExecutions (detector w))
  \/ exists ref,
       timers w' = timers w ++ [ref]
       /\ activeExecutions (detector w') = activeExecutions (detector w) + 1.
Proof.
  unfold handleOpportunities, cleanupOldOpportunities. unfold_monad.
  destruct (negb _); [by left|].
  pose proof (ingest_atMostOneStarted (reads (ingest clock opps w).2) opps w w)
    as Hone.
  destruct (ingest clock opps w) as [u w1]. simpl in *. intros Hclock.
  destruct Hone as (_ & _ & [(? & ? & _) | (ref & k & ? & ? & _)]).
  - intros n m ? ? ?. apply Hclock; lia.
  - lia.
  - unfold atMostOneStarted. split_and!; [done | lia | by left].
  - by left.
  - right. by exists ref.
Qed.

(** X28.  After a delivery to a running detector, every opportunity left in
    the table is at most five minutes old at the clock read of the cleanup;
    an entry older than that is removed whatever its status, also one whose
    execution is still under way. *)
Theorem table_holds_only_recent_opportunities opps w :
  isRunning (detector w) = true ->
  table_ok w ->
  let w1 := (ingest clock opps w).2 in
  let w' := (handleOpportunities clock opps w).2 in
  let now := clock (reads w1) in
  (forall id ref,
     detectedOpportunities (detector w') !! id = Some ref ->
     exists o, objects w' !! ref = Some o
               /\ now - Analyzer.timestamp (opportunity o) <= maxAge)
  /\ (forall id ref o,
        detectedOpportunities (detector w1) !! id = Some ref ->
        objects w1 !! ref = Some o ->
        maxAge < now - Analyzer.timestamp (opportunity o) ->
        detectedOpportunities (detector w') !! id = None)
  /\ objects w' = objects w1 /\ timers w' = timers w1.
Proof.
  intros Hrun Hok. unfold handleOpportunities, cleanupOldOpportunities.
  unfold_monad. rewrite Hrun. simpl.
  pose proof (ingest_grows clock opps w) as (_ & _ & _ & _ & _ & _ & Hok1).
  specialize (Hok1 Hok).
  destruct (ingest clock opps w) as [u w1]. simpl in *.
  split_and!; try done.
  - intros id ref (Hid & Hfresh)%map_lookup_filter_Some. simpl in Hfresh.
    apply Hok1, lookup_lt_is_Some in Hid as [o Ho]. exists o. split; [done|].
    unfold expired in Hfresh. rewrite Ho in Hfresh.
    apply Z.ltb_ge in Hfresh. unfold maxAge. lia.
  - intros id ref o Hid Ho Hold. apply map_lookup_filter_None. right.
    intros ref' Hid'. simpl. assert (ref' = ref) as -> by congruence.
    unfold expired. rewrite Ho. intros Hfresh%Z.ltb_ge.
    unfold maxAge in Hold. lia.
Qed.
End DetectorProperties.


Lemma reported_profit_is_the_estimate_witness :
  let run :=
    Execution.executeArbitrage ExecutionExample.confirms
      ExecutionExample.tokenProgram (fun _ => 10000)
      ExecutionExample.params0 ExecutionExample.world0 in
  Execution.arbitrage_success run.1 = true
  /\ Execution.reads run.2 = 2%nat
  /\ Execution.executionTime run.1 = Some 0.
Proof.
  intros run. split; [reflexivity|].
  destruct (reported_profit_is_the_estimate unit ExecutionExample.confirms
              ExecutionExample.tokenProgram (fun _ => 10000)
              ExecutionExample.params0 ExecutionExample.world0)
    as (_ & _ & Hr & Ht & _); [reflexivity|].
  exact (conj Hr Ht).
Defined.

Lemma raydium_quote_straddles_the_pool_price_witness :
  is_Some (RaydiumMarketProvider.getPrice ProviderExample.raydiumPools
             (1 # 2) (1 # 4) 1000 "SOL/USDC").
Proof.
  destruct (raydium_quote_straddles_the_pool_price
              ProviderExample.raydiumPools (1 # 2) (1 # 4) 1000 "SOL/USDC")
    as (_ & _ & H); [discriminate | discriminate |].
  apply H. eexists. split; [reflexivity|].
  split_and!; discriminate.
Defined.

Lemma close_pool_prices_yield_no_opportunity_witness :
  (Analyzer.findArbitrageOpportunities AnalyzerExample.analyzer0
     (fun _ => 1000) 0
     [("SOL/USDC"%string,
       [CollectorMore.record "Raydium" "SOL/USDC" ProviderExample.raydiumQuote;
        CollectorMore.record "Orca" "SOL/USDC" ProviderExample.orcaQuote])]).1
  = [].
Proof.
  destruct (close_pool_prices_yield_no_opportunity AnalyzerExample.analyzer0
              (fun _ => 1000) 0%nat ProviderExample.raydiumPools
              (311 # 1000) (327 # 1000) ProviderExample.orcaPools 1 5000000
              1000 1000 "SOL/USDC" ProviderExample.raydiumQuote
              ProviderExample.orcaQuote ProviderExample.raydiumPrice
              ProviderExample.orcaPrice) as [H _];
    [discriminate | discriminate | vm_compute; reflexivity
    | vm_compute; reflexivity | reflexivity | reflexivity
    | vm_compute; discriminate | vm_compute; discriminate | exact H].
Defined.

Lemma short_delivery_starts_at_most_one_execution_witness :
  let w' := (Arbitrage.handleOpportunities ArbitrageExample.clock0
               DetectorExample.twoOpportunities DetectorExample.roomy).2 in
  (Arbitrage.timers w' = Arbitrage.timers DetectorExample.roomy
   /\ Arbitrage.activeExecutions (Arbitrage.detector w')
      = Arbitrage.activeExecutions (Arbitrage.detector DetectorExample.roomy))
  \/ exists ref,
       Arbitrage.timers w' = Arbitrage.timers DetectorExample.roomy ++ [ref]
       /\ Arbitrage.activeExecutions (Arbitrage.detector w')
          = Arbitrage.activeExecutions
              (Arbitrage.detector DetectorExample.roomy) + 1.
Proof.
  apply (short_delivery_starts_at_most_one_execution ArbitrageExample.clock0
           DetectorExample.twoOpportunities DetectorExample.roomy).
  intros n m _ _ _. reflexivity.
Defined.

Lemma table_holds_only_recent_opportunities_witness :
  let w' := (Arbitrage.handleOpportunities DetectorExample.lateClock
               [DetectorExample.old0] ArbitrageExample.world0).2 in
  Arbitrage.detectedOpportunities (Arbitrage.detector w')
    !! "Raydium-Serum-SOL/USDC-buy-0"%string = None
  /\ Arbitrage.timers w' = [0%nat].
Proof.
  intros w'.
  destruct (table_holds_only_recent_opportunities DetectorExample.lateClock
              [DetectorExample.old0] ArbitrageExample.world0)
    as (_ & Hold & _ & Ht).
  - reflexivity.
  - intros id ref H. change ((∅ : gmap string nat) !! id = Some ref) in H.
    by rewrite lookup_empty in H.
  - split.
    + apply (Hold _ 0%nat DetectorExample.oldExecuting0);
        vm_compute; reflexivity.
    + subst w'. rewrite Ht. vm_compute. reflexivity.
Defined.


(** * Properties of the wiring of the arbitrage manager *)

Lemma orQ_nonzero x d : ~ (d == 0)%Q -> ~ (Manager.orQ x d == 0)%Q.
Proof.
  intros Hd. unfold Manager.orQ. destruct x as [v|]; [|done].
  destruct (Qeq_bool v 0) eqn:E; [done|]. by apply Qeq_bool_neq.
Qed.

Lemma orZ_nonzero x d : d <> 0 -> Manager.orZ x d <> 0.
Proof. intros Hd. unfold Manager.orZ. by destruct x as [[| |]|]. Qed.

(** X29.  What [config.detector] says has no effect on a constructed
    [ArbitrageManager]: the strategy's constructor replaces all six settings
    of the detector by its own, and the analyzer's threshold, slippage and
    trade size too.  None of these settings is 0 afterwards (a configured 0
    gives the default), and the new detector is stopped, with an empty
    table. *)
Theorem manager_ignores_detector_settings clock t detectorConfig
    strategyConfig a :
  let made := Manager.newManager clock t detectorConfig strategyConfig a in
  let d := Arbitrage.detector made.1 in
  let s := Arbitrage.strategyConfig (Arbitrage.strategy made.1) in
  made = Manager.newManager clock t None strategyConfig a
  /\ Arbitrage.config d
     = Arbitrage.mkDetectorConfig
         (Arbitrage.s_minProfitThreshold s) (Arbitrage.s_maxSlippage s)
         (Arbitrage.s_tradeSizeUsd s) (Arbitrage.s_maxConcurrentTrades s)
         (Arbitrage.s_cooldownMs s) (Arbitrage.s_gasMultiplier s)
  /\ Analyzer.minProfitThreshold made.2 = Arbitrage.s_minProfitThreshold s
  /\ Analyzer.maxSlippage made.2 = Arbitrage.s_maxSlippage s
  /\ Analyzer.tradeSizeUsd made.2 = Arbitrage.s_tradeSizeUsd s
  /\ (~ (Arbitrage.s_minProfitThreshold s == 0)%Q
      /\ Arbitrage.s_maxConcurrentTrades s <> 0
      /\ Arbitrage.s_cooldownMs s <> 0)
  /\ Arbitrage.isRunning d = false
  /\ Arbitrage.detectedOpportunities d = ∅.
Proof.
  unfold Manager.newManager, Manager.newDetector, Manager.updateConfig,
    Arbitrage.mergeDetectorConfig, Arbitrage.resetDailyTradeCount.
  cbv [mbind Arbitrage.M_bind Arbitrage.bind Arbitrage.modify
       Arbitrage.Date_now].
  simpl. split_and!; try done.
  - by apply orQ_nonzero.
  - by apply orZ_nonzero.
  - by apply orZ_nonzero.
Qed.
